(** * sqlitepp: the Statement / ResultSet protocol over the SQLite3 C API

    A shallow embedding of the two variants of the wrapper that the
    repository holds:

    - [sqlitepp]: src/sqlitepp/sqlitepp.cc with include/sqlitepp/sqlitepp.h
      (Statement created by Database::prepare, rows read through ResultSet);
    - [legacy]: src/sqlitepp.cpp with include/sqlitepp.h
      (Statement compiled by its own constructor, rows read on the
      Statement itself).

    The SQLite3 engine is external: it is a parameter of the development
    (record [Engine]), and every call the wrapper makes to it is logged in
    the [calls] of the [World], so that "without calling the engine" and
    "exactly one step" are statements about that log.

    Scope.  C++ exceptions are modelled by their class; a [DatabaseError]
    keeps its code and its what() text.  The what() texts of the standard
    exception classes are not kept, but building them is part of the
    model where it can go wrong: Openable::requireOpen reads [m_name], a
    reference that dangles, and Statement::handleBindResult offsets a
    string literal by the bind index; both end in [Undefined] where C++
    gives them no meaning.  Memory is modelled as far as the shared
    ownership of Statements needs it: a free store of reference-counted
    objects. *)

From stdpp Require Import base gmap strings list pretty.
From Stdlib Require Import ZArith.
From Stdlib Require Import Floats.PrimFloat.

Local Open Scope Z_scope.

(** ** C++ control flow: exceptions, abort, undefined behaviour *)

(** sqlitepp::DatabaseError (derived from std::runtime_error): the engine's
    result code, and the what() text made by getErrorMessage. *)
Record DatabaseError : Type := mkDatabaseError {
  m_errorCode : Z;
  what : string
}.

(** The exception classes the wrapper throws.  [logic_error] is the
    invalid-state error, [runtime_error] (thrown as such) the allocation
    error. *)
Inductive exception : Type :=
| logic_error
| invalid_argument
| out_of_range
| runtime_error
| database_error (e : DatabaseError).

(** How a call ends: it returns, it throws, the process is aborted
    (std::abort), or the language gives the call no meaning. *)
Inductive outcome (A : Type) : Type :=
| Return (a : A)
| Throw (e : exception)
| Abort
| Undefined.
Arguments Return {A} a.
Arguments Throw {A} e.
Arguments Abort {A}.
Arguments Undefined {A}.

(** A computation over a mutable state [S]: what a thrown exception leaves
    behind is the state at the throw. *)
Definition M (S A : Type) : Type := S -> outcome A * S.

#[global] Instance M_ret {S} : MRet (M S) := fun A a s => (Return a, s).

#[global] Instance M_bind {S} : MBind (M S) := fun A B k m s =>
  match m s with
  | (Return a, s') => k a s'
  | (Throw e, s') => (Throw e, s')
  | (Abort, s') => (Abort, s')
  | (Undefined, s') => (Undefined, s')
  end.

Definition throw {S A} (e : exception) : M S A := fun s => (Throw e, s).
Definition abort {S A} : M S A := fun s => (Abort, s).
Definition undefined {S A} : M S A := fun s => (Undefined, s).
Definition gets {S A} (f : S -> A) : M S A := fun s => (Return (f s), s).
Definition modify {S} (f : S -> S) : M S unit := fun s => (Return tt, f s).

(** A block with a local object: [cleanup], the destructor of the local,
    runs when [body] returns and when an exception leaves it. *)
Definition scoped {S A} (body : M S A) (cleanup : M S unit) : M S A :=
  fun s =>
    match body s with
    | (Return a, s') => (cleanup ;; mret a) s'
    | (Throw e, s') => (cleanup ;; throw e) s'
    | (Abort, s') => (Abort, s')
    | (Undefined, s') => (Undefined, s')
    end.

(** Runs [m] on the part of the state that [get] selects. *)
Definition zoom {S T A} (get : S -> T) (set : T -> S -> S) (m : M T A) : M S A :=
  fun s => let '(r, t) := m (get s) in (r, set t s).

(** A method body runs on the pair of its object and its environment. *)
Definition on_this {T W A} (m : M T A) : M (T * W) A :=
  zoom fst (fun t s => (t, snd s)) m.
Definition on_env {T W A} (m : M W A) : M (T * W) A :=
  zoom snd (fun w s => (fst s, w)) m.

(** A method call on the object [obj], which is dropped afterwards. *)
Definition with_object {T W A} (obj : T) (m : M (T * W) A) : M W A :=
  fun w => let '(r, (_, w')) := m (obj, w) in (r, w').

(** ** The SQLite3 C API *)

(** Handles ([sqlite3*], [sqlite3_stmt*]) are addresses; 0 is NULL. *)
Definition ptr : Type := N.
Definition NULL : ptr := 0%N.

(** Result codes of sqlite3.h. *)
Definition SQLITE_OK : Z := 0.
Definition SQLITE_NOMEM : Z := 7.
Definition SQLITE_RANGE : Z := 25.
Definition SQLITE_ROW : Z := 100.
Definition SQLITE_DONE : Z := 101.

(** The conversion of a wider integer (a [sqlite3_int64], a [size_t]) to
    [int]: the value modulo 2^32, taken in the range of int (the rule of
    C++20, and what the compilers did before it). *)
Definition to_int (z : Z) : Z := (z + 2 ^ 31) mod 2 ^ 32 - 2 ^ 31.

(** A C double, as the engine hands it over. *)
Definition double : Type := float.

(** The calls the wrapper makes, with their arguments. *)
Inductive Call : Type :=
| call_open (filename : string)
| call_close (db : ptr)
| call_errmsg (db : ptr)
| call_prepare_v2 (db : ptr) (sql : string) (nByte : Z)
| call_finalize (stmt : ptr)
| call_step (stmt : ptr)
| call_reset (stmt : ptr)
| call_bind_double (stmt : ptr) (index : Z) (value : double)
| call_bind_int (stmt : ptr) (index : Z) (value : Z)
| call_bind_text (stmt : ptr) (index : Z) (text : string) (nByte : Z)
| call_bind_parameter_index (stmt : ptr) (name : string)
| call_data_count (stmt : ptr)
| call_column_count (stmt : ptr)
| call_column_double (stmt : ptr) (column : Z)
| call_column_int (stmt : ptr) (column : Z)
| call_column_text (stmt : ptr) (column : Z)
| call_last_insert_rowid (db : ptr).

(** The engine: a state [E] and the answer of each API function in it.
    [eng_open] and [eng_prepare_v2] answer with the handle they store
    through their out-parameter and with the result code; [eng_column_text]
    answers with a C string or with the null pointer ([None]);
    [eng_errstr] is the static table of default messages. *)
Record Engine (E : Type) : Type := {
  eng_open : string -> E -> (ptr * Z) * E;
  eng_close : ptr -> E -> Z * E;
  eng_errmsg : ptr -> E -> string * E;
  eng_errstr : Z -> string;
  eng_prepare_v2 : ptr -> string -> Z -> E -> (ptr * Z) * E;
  eng_finalize : ptr -> E -> Z * E;
  eng_step : ptr -> E -> Z * E;
  eng_reset : ptr -> E -> Z * E;
  eng_bind_double : ptr -> Z -> double -> E -> Z * E;
  eng_bind_int : ptr -> Z -> Z -> E -> Z * E;
  eng_bind_text : ptr -> Z -> string -> Z -> E -> Z * E;
  eng_bind_parameter_index : ptr -> string -> E -> Z * E;
  eng_data_count : ptr -> E -> Z * E;
  eng_column_count : ptr -> E -> Z * E;
  eng_column_double : ptr -> Z -> E -> double * E;
  eng_column_int : ptr -> Z -> E -> Z * E;
  eng_column_text : ptr -> Z -> E -> option string * E;
  eng_last_insert_rowid : ptr -> E -> Z * E
}.
Arguments eng_open {E}.
Arguments eng_close {E}.
Arguments eng_errmsg {E}.
Arguments eng_errstr {E}.
Arguments eng_prepare_v2 {E}.
Arguments eng_finalize {E}.
Arguments eng_step {E}.
Arguments eng_reset {E}.
Arguments eng_bind_double {E}.
Arguments eng_bind_int {E}.
Arguments eng_bind_text {E}.
Arguments eng_bind_parameter_index {E}.
Arguments eng_data_count {E}.
Arguments eng_column_count {E}.
Arguments eng_column_double {E}.
Arguments eng_column_int {E}.
Arguments eng_column_text {E}.
Arguments eng_last_insert_rowid {E}.

(** What the wrapper runs in: the engine's state, the log of the calls made
    to it (oldest first), and what was written to std::cerr. *)
Record World (E : Type) : Type := mkWorld {
  engine : E;
  calls : list Call;
  cerr : string
}.
Arguments mkWorld {E}.
Arguments engine {E}.
Arguments calls {E}.
Arguments cerr {E}.

(** One call to the engine: log it, take the answer, keep the new state. *)
Definition ffi {E A} (c : Call) (f : E -> A * E) : M (World E) A :=
  fun w => let '(a, e) := f (engine w) in
           (Return a, mkWorld e (calls w ++ [c]) (cerr w)).

(** The world after the call [c] answered from engine state [e]. *)
Definition called {E} (w : World E) (c : Call) (e : E) : World E :=
  mkWorld e (calls w ++ [c]) (cerr w).

(** [std::cerr << text]. *)
Definition print {E} (text : string) : M (World E) unit :=
  modify (fun w => mkWorld (engine w) (calls w) (cerr w +:+ text)).

(** The value of a [bind] call: the overloads of bind differ in the type of
    their second parameter only. *)
Inductive value : Type :=
| of_double (v : double)
| of_int (v : Z)
| of_string (v : string).

(** The API functions as the wrapper calls them. *)
Section Api.
Context {E : Type} (eng : Engine E).

Definition sqlite3_open (filename : string) : M (World E) (ptr * Z) :=
  ffi (call_open filename) (eng_open eng filename).
Definition sqlite3_close (db : ptr) : M (World E) Z :=
  ffi (call_close db) (eng_close eng db).
Definition sqlite3_errmsg (db : ptr) : M (World E) string :=
  ffi (call_errmsg db) (eng_errmsg eng db).
Definition sqlite3_errstr (code : Z) : string :=
  eng_errstr eng code.
Definition sqlite3_prepare_v2 (db : ptr) (sql : string) (nByte : Z)
  : M (World E) (ptr * Z) :=
  ffi (call_prepare_v2 db sql nByte) (eng_prepare_v2 eng db sql nByte).
Definition sqlite3_finalize (stmt : ptr) : M (World E) Z :=
  ffi (call_finalize stmt) (eng_finalize eng stmt).
Definition sqlite3_step (stmt : ptr) : M (World E) Z :=
  ffi (call_step stmt) (eng_step eng stmt).
Definition sqlite3_reset (stmt : ptr) : M (World E) Z :=
  ffi (call_reset stmt) (eng_reset eng stmt).
Definition sqlite3_bind_double (stmt : ptr) (index : Z) (value : double)
  : M (World E) Z :=
  ffi (call_bind_double stmt index value) (eng_bind_double eng stmt index value).
Definition sqlite3_bind_int (stmt : ptr) (index : Z) (value : Z)
  : M (World E) Z :=
  ffi (call_bind_int stmt index value) (eng_bind_int eng stmt index value).
Definition sqlite3_bind_text (stmt : ptr) (index : Z) (text : string) (nByte : Z)
  : M (World E) Z :=
  ffi (call_bind_text stmt index text nByte)
      (eng_bind_text eng stmt index text nByte).
(** The call that the overload of bind for [v] makes: sqlite3_bind_double
    or sqlite3_bind_int with the value, sqlite3_bind_text with the
    characters and the length [nByte] that the variant passes. *)
Definition sqlite3_bind (nByte : string -> Z) (stmt : ptr) (index : Z) (v : value)
  : M (World E) Z :=
  match v with
  | of_double d => sqlite3_bind_double stmt index d
  | of_int i => sqlite3_bind_int stmt index i
  | of_string s => sqlite3_bind_text stmt index s (nByte s)
  end.
Definition sqlite3_bind_parameter_index (stmt : ptr) (name : string)
  : M (World E) Z :=
  ffi (call_bind_parameter_index stmt name)
      (eng_bind_parameter_index eng stmt name).
Definition sqlite3_data_count (stmt : ptr) : M (World E) Z :=
  ffi (call_data_count stmt) (eng_data_count eng stmt).
Definition sqlite3_column_count (stmt : ptr) : M (World E) Z :=
  ffi (call_column_count stmt) (eng_column_count eng stmt).
Definition sqlite3_column_double (stmt : ptr) (column : Z) : M (World E) double :=
  ffi (call_column_double stmt column) (eng_column_double eng stmt column).
Definition sqlite3_column_int (stmt : ptr) (column : Z) : M (World E) Z :=
  ffi (call_column_int stmt column) (eng_column_int eng stmt column).
Definition sqlite3_column_text (stmt : ptr) (column : Z)
  : M (World E) (option string) :=
  ffi (call_column_text stmt column) (eng_column_text eng stmt column).
Definition sqlite3_last_insert_rowid (db : ptr) : M (World E) Z :=
  ffi (call_last_insert_rowid db) (eng_last_insert_rowid eng db).

(** DatabaseError::getErrorMessage. *)
Definition getErrorMessage (errorCode : Z) (errorMessage : string) : string :=
  "Caught SQLite3 error " +:+ pretty errorCode +:+ " meaning: " +:+ errorMessage.

(** DatabaseError(errorCode, errorMessage). *)
Definition DatabaseError_msg (errorCode : Z) (errorMessage : string) : exception :=
  database_error (mkDatabaseError errorCode (getErrorMessage errorCode errorMessage)).

(** DatabaseError(errorCode): the message is the engine's default one. *)
Definition DatabaseError_code (errorCode : Z) : exception :=
  DatabaseError_msg errorCode (sqlite3_errstr errorCode).

(** std::string(const char* ) on a pointer that may be null: the
    constructor has no meaning on the null pointer. *)
Definition string_of_c_str {S} (text : option string) : M S string :=
  match text with
  | Some s => mret s
  | None => undefined
  end.

(** ["literal" + index] with an [int] index: the literal decays to a
    pointer to its first character and the index is added to it.  The sum
    points to a C string, the rest of the literal, as long as it stays
    inside the array, whose last element is the terminating null
    character; anywhere else the std::string built from it has no
    meaning. *)
Definition literal_plus {S} (literal : string) (index : Z) : M S string :=
  if decide (0 <= index <= Z.of_nat (String.length literal)) then
    mret (String.substring (Z.to_nat index)
            (String.length literal - Z.to_nat index)%nat literal)
  else undefined.

End Api.

(** [value.size()] passed for an [int] parameter. *)
Definition int_of_size (s : string) : Z := to_int (Z.of_nat (String.length s)).

(** The entry that [sqlite3_bind] leaves in the log. *)
Definition bind_call (nByte : string -> Z) (stmt : ptr) (index : Z) (v : value)
  : Call :=
  match v with
  | of_double d => call_bind_double stmt index d
  | of_int i => call_bind_int stmt index i
  | of_string s => call_bind_text stmt index s (nByte s)
  end.

(** DatabaseError::errorCode(). *)
Definition errorCode (e : DatabaseError) : Z := m_errorCode e.

(** ** Openable: the open/closed flag shared by Database and Statement *)

(** [m_name] records the literal that the owner's constructor passes
    ("Database", "Statement").  The member itself is declared a reference
    ([const std::string&]): the constructor binds it to the temporary
    std::string made from the literal, which is destroyed when the
    constructor's initialiser ends.  In every Database and Statement the
    reference therefore dangles, and reading it has no meaning. *)
Record Openable : Type := mkOpenable {
  m_open : bool;
  m_name : string
}.

(** A class derived from Openable holds an Openable subobject. *)
Class Derived (T : Type) : Type := {
  base : T -> Openable;
  with_base : Openable -> T -> T
}.

Section OpenableMethods.
Context {T : Type} `{Derived T} {W : Type}.

(** Openable::isOpen. *)
Definition isOpen (this : T) : bool := m_open (base this).

(** Openable::requireOpen.  On an object that is not open the operand of
    the throw, [m_name + " is not open."], is evaluated first; it reads
    the dangling [m_name], so that no std::logic_error is ever built: the
    call has no defined outcome. *)
Definition requireOpen : M (T * W) unit :=
  open ← gets (fun s => isOpen (fst s));
  if negb open then undefined else mret tt.

(** The object [this] with its flag set to [open]. *)
Definition opened (open : bool) (this : T) : T :=
  with_base (mkOpenable open (m_name (base this))) this.

(** Openable::setOpen. *)
Definition setOpen (open : bool) : M (T * W) unit :=
  on_this (modify (opened open)).

End OpenableMethods.

(** ** src/sqlitepp/sqlitepp.cc *)

Module sqlitepp.

(** std::shared_ptr<Statement> and std::weak_ptr<Statement>: the address
    of the Statement they refer to, or empty. *)
Definition addr : Type := nat.
Definition shared_ptr : Type := option addr.
Definition weak_ptr : Type := option addr.

Module Statement.

Record t : Type := mk {
  openable : Openable;
  m_handle : ptr;
  m_canRead : bool;
  m_instancePointer : weak_ptr
}.

#[global] Instance derived : Derived t := {|
  base := openable;
  with_base o s := mk o (m_handle s) (m_canRead s) (m_instancePointer s)
|}.

Definition set_canRead (b : bool) (s : t) : t :=
  mk (openable s) (m_handle s) b (m_instancePointer s).

Section Methods.
Context {E : Type} (eng : Engine E).

(** Statement::Statement(sqlite3_stmt* handle). *)
Definition new (handle : ptr) : t :=
  mk (mkOpenable true "Statement") handle false None.

(** Statement::~Statement. *)
Definition destructor : M (t * World E) unit :=
  this ← gets fst;
  if isOpen this then
    on_env (sqlite3_finalize eng (m_handle this)) ;;
    setOpen false
  else mret tt.

(** Statement::handleBindResult.  For SQLITE_RANGE the what() text is
    [std::out_of_range("Bind index out of range: " + index)]: the literal
    offset by the index, not the index appended to it. *)
Definition handleBindResult (index : Z) (result : Z) : M (t * World E) unit :=
  if decide (result = SQLITE_OK) then mret tt
  else if decide (result = SQLITE_RANGE) then
    literal_plus "Bind index out of range: " index ;;
    throw out_of_range
  else if decide (result = SQLITE_NOMEM) then throw runtime_error
  else throw (DatabaseError_code eng result).

(** Statement::getParameterIndex. *)
Definition getParameterIndex (name : string) : M (t * World E) Z :=
  requireOpen ;;
  this ← gets fst;
  index ← on_env (sqlite3_bind_parameter_index eng (m_handle this) name);
  if decide (index = 0) then throw invalid_argument else mret index.

(** Statement::bind(const int index, value), for the three value types;
    a string is passed with [value.size()], a [size_t] that the [int]
    parameter of sqlite3_bind_text receives. *)
Definition bind (index : Z) (v : value) : M (t * World E) unit :=
  requireOpen ;;
  this ← gets fst;
  result ← on_env (sqlite3_bind eng int_of_size (m_handle this) index v);
  handleBindResult index result.

(** Statement::bind(const std::string& name, value). *)
Definition bind_name (name : string) (v : value) : M (t * World E) unit :=
  index ← getParameterIndex name;
  bind index v.

(** Statement::requireCanRead. *)
Definition requireCanRead : M (t * World E) unit :=
  this ← gets fst;
  if negb (m_canRead this) then throw logic_error else mret tt.

(** Statement::setInstancePointer. *)
Definition setInstancePointer (instancePointer : weak_ptr) : M (t * World E) unit :=
  on_this (modify (fun s =>
    mk (openable s) (m_handle s) (m_canRead s) instancePointer)).

(** Statement::step. *)
Definition step : M (t * World E) bool :=
  requireOpen ;;
  this ← gets fst;
  result ← on_env (sqlite3_step eng (m_handle this));
  (if decide (result = SQLITE_ROW) then on_this (modify (set_canRead true))
   else if decide (result = SQLITE_DONE) then on_this (modify (set_canRead false))
   else throw (DatabaseError_code eng result)) ;;
  gets (fun s => m_canRead (fst s)).

(** Statement::close. *)
Definition close : M (t * World E) unit :=
  this ← gets fst;
  if isOpen this then
    on_env (sqlite3_finalize eng (m_handle this)) ;;
    setOpen false
  else mret tt.

(** Statement::reset. *)
Definition reset : M (t * World E) bool :=
  requireOpen ;;
  this ← gets fst;
  result ← on_env (sqlite3_reset eng (m_handle this));
  mret (bool_decide (result = SQLITE_OK)).

End Methods.
End Statement.

(** *** Shared ownership *)

(** A Statement on the free store with the use count of its control
    block: the number of shared_ptr that refer to it. *)
Record Cell : Type := mkCell {
  object : Statement.t;
  use_count : nat
}.

(** The free store with the world.  Addresses are handed out in
    increasing order from [brk] and never reused, so that an expired
    weak_ptr never finds another object. *)
Record Memory (E : Type) : Type := mkMemory {
  world : World E;
  heap : gmap addr Cell;
  brk : addr
}.
Arguments mkMemory {E}.
Arguments world {E}.
Arguments heap {E}.
Arguments brk {E}.

Section Ownership.
Context {E : Type} (eng : Engine E).

(** The same free store in the world [w]. *)
Definition set_world (w : World E) (μ : Memory E) : Memory E :=
  mkMemory w (heap μ) (brk μ).

(** An engine call made while the free store is in reach. *)
Definition on_world {A} (m : M (World E) A) : M (Memory E) A :=
  zoom world set_world m.

(** [p->method(...)]: the method runs on the object [p] refers to and on
    the world; through an empty or dangling pointer the call has no
    meaning. *)
Definition deref {A} (p : shared_ptr) (method : M (Statement.t * World E) A)
  : M (Memory E) A :=
  fun μ =>
    match p with
    | Some a =>
        match heap μ !! a with
        | Some c =>
            let '(r, (s, w)) := method (object c, world μ) in
            (r, mkMemory w (<[a := mkCell s (use_count c)]> (heap μ)) (brk μ))
        | None => (Undefined, μ)
        end
    | None => (Undefined, μ)
    end.

(** std::shared_ptr<Statement>(new Statement(...)): the object is placed at
    a fresh address, its use count is 1. *)
Definition make_shared (s : Statement.t) : M (Memory E) shared_ptr :=
  fun μ =>
    (Return (Some (brk μ)),
     mkMemory (world μ) (<[brk μ := mkCell s 1]> (heap μ)) (S (brk μ))).

(** std::weak_ptr::lock: a new shared_ptr to the object if it still
    exists, the empty shared_ptr otherwise. *)
Definition lock (p : weak_ptr) : M (Memory E) shared_ptr :=
  fun μ =>
    match p with
    | Some a =>
        match heap μ !! a with
        | Some c =>
            (Return (Some a),
             mkMemory (world μ)
                      (<[a := mkCell (object c) (S (use_count c))]> (heap μ))
                      (brk μ))
        | None => (Return None, μ)
        end
    | None => (Return None, μ)
    end.

(** The end of a shared_ptr: the use count drops; the last owner runs
    ~Statement and frees the object. *)
Definition release (p : shared_ptr) : M (Memory E) unit :=
  fun μ =>
    match p with
    | Some a =>
        match heap μ !! a with
        | Some c =>
            match use_count c with
            | S (S n) =>
                (Return tt,
                 mkMemory (world μ) (<[a := mkCell (object c) (S n)]> (heap μ))
                          (brk μ))
            | _ =>
                let '(r, w) :=
                  with_object (object c) (Statement.destructor eng) (world μ) in
                (r, mkMemory w (delete a (heap μ)) (brk μ))
            end
        | None => (Undefined, μ)
        end
    | None => (Return tt, μ)
    end.

End Ownership.

(** The free store as Database::prepare fills it: every Statement lies
    below [brk], has at least one owner, and its instance pointer refers
    to the Statement itself. *)
Definition wf {E} (μ : Memory E) : Prop :=
  map_Forall (fun a c =>
    (a < brk μ)%nat
    /\ (0 < use_count c)%nat
    /\ Statement.m_instancePointer (object c) = Some a) (heap μ).

#[global] Instance wf_dec {E} (μ : Memory E) : Decision (wf μ).
Proof. unfold wf. apply _. Defined.

(** A computation that leaves a well-formed free store well-formed,
    however it ends. *)
Definition keeps_wf {E A} (m : M (Memory E) A) : Prop :=
  forall μ, wf μ -> wf (snd (m μ)).

Module ResultSet.

Record t : Type := mk {
  m_statement : shared_ptr
}.

Section Methods.
Context {E : Type} (eng : Engine E).

(** ResultSet::ResultSet(const std::shared_ptr<Statement> statement). *)
Definition new (statement : shared_ptr) : t := mk statement.

(** ResultSet::canRead. *)
Definition canRead (this : t) : M (Memory E) bool :=
  deref (m_statement this) (gets (fun s => Statement.m_canRead (fst s))).

(** ResultSet::columnCount. *)
Definition columnCount (this : t) : M (Memory E) Z :=
  deref (m_statement this) requireOpen ;;
  deref (m_statement this) (Statement.requireCanRead) ;;
  h ← deref (m_statement this) (gets (fun s => Statement.m_handle (fst s)));
  on_world (sqlite3_data_count eng h).

(** ResultSet::readDouble. *)
Definition readDouble (this : t) (column : Z) : M (Memory E) double :=
  deref (m_statement this) requireOpen ;;
  deref (m_statement this) (Statement.requireCanRead) ;;
  h ← deref (m_statement this) (gets (fun s => Statement.m_handle (fst s)));
  on_world (sqlite3_column_double eng h column).

(** ResultSet::readInt. *)
Definition readInt (this : t) (column : Z) : M (Memory E) Z :=
  deref (m_statement this) requireOpen ;;
  deref (m_statement this) (Statement.requireCanRead) ;;
  h ← deref (m_statement this) (gets (fun s => Statement.m_handle (fst s)));
  on_world (sqlite3_column_int eng h column).

(** ResultSet::readString. *)
Definition readString (this : t) (column : Z) : M (Memory E) string :=
  deref (m_statement this) requireOpen ;;
  deref (m_statement this) (Statement.requireCanRead) ;;
  h ← deref (m_statement this) (gets (fun s => Statement.m_handle (fst s)));
  text ← on_world (sqlite3_column_text eng h column);
  string_of_c_str text.

(** ResultSet::next. *)
Definition next (this : t) : M (Memory E) bool :=
  deref (m_statement this) (Statement.step eng).

(** The end of a ResultSet: its member [m_statement] ends. *)
Definition destructor (this : t) : M (Memory E) unit :=
  release eng (m_statement this).

End Methods.
End ResultSet.

Section Execute.
Context {E : Type} (eng : Engine E).

(** Statement::execute, called on the Statement at address [this]. *)
Definition Statement_execute (this : addr) : M (Memory E) ResultSet.t :=
  deref (Some this) (Statement.step eng) ;;
  instancePointer ←
    deref (Some this) (gets (fun s => Statement.m_instancePointer (fst s)));
  statement ← lock instancePointer;
  mret (ResultSet.new statement).

End Execute.

Module Database.

Record t : Type := mk {
  openable : Openable;
  m_handle : ptr
}.

#[global] Instance derived : Derived t := {|
  base := openable;
  with_base o d := mk o (m_handle d)
|}.

Section Methods.
Context {E : Type} (eng : Engine E).

(** Database::Database(): closed; [m_handle] is not initialised, it holds
    whatever [uninit] the storage held. *)
Definition new (uninit : ptr) : t :=
  mk (mkOpenable false "Database") uninit.

(** Database::~Database. *)
Definition destructor : M (t * World E) unit :=
  this ← gets fst;
  if isOpen this then
    on_env (sqlite3_close eng (m_handle this)) ;;
    setOpen false
  else mret tt.

(** Database::close. *)
Definition close : M (t * World E) unit :=
  this ← gets fst;
  if isOpen this then
    result ← on_env (sqlite3_close eng (m_handle this));
    if decide (result = SQLITE_OK) then setOpen false
    else throw (DatabaseError_code eng result)
  else mret tt.

(** Database::lastInsertRowId: the row id, a [sqlite3_int64], is returned
    as an [int]. *)
Definition lastInsertRowId : M (t * World E) Z :=
  requireOpen ;;
  this ← gets fst;
  rowid ← on_env (sqlite3_last_insert_rowid eng (m_handle this));
  mret (to_int rowid).

(** Database::open.  sqlite3_open stores the handle, or NULL, in
    [m_handle] through its out-parameter. *)
Definition open (file : string) : M (t * World E) unit :=
  this ← gets fst;
  if isOpen this then throw logic_error
  else
    '(handle, result) ← on_env (sqlite3_open eng file);
    on_this (modify (fun d => mk (openable d) handle)) ;;
    if decide (handle = NULL) then throw runtime_error
    else if decide (result = SQLITE_OK) then setOpen true
    else
      errorMessage ← on_env (sqlite3_errmsg eng handle);
      on_env (sqlite3_close eng handle) ;;
      throw (DatabaseError_msg result errorMessage).

(** Database::Database(const std::string& file): the constructed object,
    unless open throws. *)
Definition new_file (uninit : ptr) (file : string) : M (World E) t :=
  fun w => let '(r, (d, w')) := open file (new uninit, w) in
           (match r with
            | Return _ => Return d
            | Throw e => Throw e
            | Abort => Abort
            | Undefined => Undefined
            end, w').

(** Database::prepare.  The text is passed with [sql.size()], a [size_t]
    that the [int] parameter of sqlite3_prepare_v2 receives. *)
Definition prepare (sql : string) : M (t * Memory E) shared_ptr :=
  requireOpen ;;
  this ← gets fst;
  '(statementHandle, result) ← on_env (on_world
      (sqlite3_prepare_v2 eng (m_handle this) sql (int_of_size sql)));
  if decide (result ≠ SQLITE_OK) then
    errorMessage ← on_env (on_world (sqlite3_errmsg eng (m_handle this)));
    throw (DatabaseError_msg result errorMessage)
  else if decide (statementHandle = NULL) then throw runtime_error
  else
    statement ← on_env (make_shared (Statement.new statementHandle));
    on_env (deref statement (Statement.setInstancePointer statement)) ;;
    mret statement.

(** Database::execute: the local [statement] ends with the call, however
    the call ends. *)
Definition execute (sql : string) : M (t * Memory E) unit :=
  requireOpen ;;
  statement ← prepare sql;
  scoped (on_env (deref statement (Statement.step eng)) ;; mret tt)
         (on_env (release eng statement)).

End Methods.
End Database.

End sqlitepp.

(** ** src/sqlitepp.cpp *)

Module legacy.

Module Database.

Record t : Type := mk {
  openable : Openable;
  m_handle : ptr
}.

#[global] Instance derived : Derived t := {|
  base := openable;
  with_base o d := mk o (m_handle d)
|}.

Section Methods.
Context {E : Type} (eng : Engine E).

(** Database::Database(). *)
Definition new (uninit : ptr) : t :=
  mk (mkOpenable false "Database") uninit.

(** Database::~Database: a close that fails is reported on std::cerr and
    the process is aborted. *)
Definition destructor : M (t * World E) unit :=
  this ← gets fst;
  if isOpen this then
    result ← on_env (sqlite3_close eng (m_handle this));
    if decide (result ≠ SQLITE_OK) then
      on_env (print ("sqlitepp::Database::~Database(): Close failed with code "
                     +:+ pretty result +:+ " meaning: "
                     +:+ sqlite3_errstr eng result)) ;;
      abort
    else setOpen false
  else mret tt.

(** Database::close. *)
Definition close : M (t * World E) unit :=
  this ← gets fst;
  if isOpen this then
    result ← on_env (sqlite3_close eng (m_handle this));
    if decide (result = SQLITE_OK) then setOpen false
    else throw (DatabaseError_code eng result)
  else mret tt.

(** Database::open. *)
Definition open (file : string) : M (t * World E) unit :=
  this ← gets fst;
  if isOpen this then throw logic_error
  else
    '(handle, result) ← on_env (sqlite3_open eng file);
    on_this (modify (fun d => mk (openable d) handle)) ;;
    if decide (handle = NULL) then throw runtime_error
    else if decide (result = SQLITE_OK) then setOpen true
    else
      errorMessage ← on_env (sqlite3_errmsg eng handle);
      on_env (sqlite3_close eng handle) ;;
      throw (DatabaseError_msg result errorMessage).

(** Database::Database(const std::string& file). *)
Definition new_file (uninit : ptr) (file : string) : M (World E) t :=
  fun w => let '(r, (d, w')) := open file (new uninit, w) in
           (match r with
            | Return _ => Return d
            | Throw e => Throw e
            | Abort => Abort
            | Undefined => Undefined
            end, w').

End Methods.
End Database.

Module Statement.

Record t : Type := mk {
  openable : Openable;
  m_handle : ptr;
  m_canRead : bool
}.

#[global] Instance derived : Derived t := {|
  base := openable;
  with_base o s := mk o (m_handle s) (m_canRead s)
|}.

Definition set_canRead (b : bool) (s : t) : t :=
  mk (openable s) (m_handle s) b.

Section Methods.
Context {E : Type} (eng : Engine E).

(** Statement::Statement(Database& database, const std::string& statement):
    the constructed object, unless the constructor throws. *)
Definition new (database : Database.t) (statement : string) : M (World E) t :=
  with_object database requireOpen ;;
  '(handle, result) ←
    sqlite3_prepare_v2 eng (Database.m_handle database) statement (-1);
  if decide (result ≠ SQLITE_OK) then
    errorMessage ← sqlite3_errmsg eng (Database.m_handle database);
    throw (DatabaseError_msg result errorMessage)
  else if decide (handle = NULL) then throw runtime_error
  else mret (mk (mkOpenable true "Statement") handle false).

(** Statement::~Statement. *)
Definition destructor : M (t * World E) unit :=
  this ← gets fst;
  if isOpen this then
    on_env (sqlite3_finalize eng (m_handle this)) ;;
    setOpen false
  else mret tt.

(** Statement::handleBindResult.  For SQLITE_RANGE the what() text is
    [std::out_of_range("Bind index out of range: " + index)]: the literal
    offset by the index, not the index appended to it. *)
Definition handleBindResult (index : Z) (result : Z) : M (t * World E) unit :=
  if decide (result = SQLITE_OK) then mret tt
  else if decide (result = SQLITE_RANGE) then
    literal_plus "Bind index out of range: " index ;;
    throw out_of_range
  else if decide (result = SQLITE_NOMEM) then throw runtime_error
  else throw (DatabaseError_code eng result).

(** Statement::getParameterIndex. *)
Definition getParameterIndex (name : string) : M (t * World E) Z :=
  requireOpen ;;
  this ← gets fst;
  index ← on_env (sqlite3_bind_parameter_index eng (m_handle this) name);
  if decide (index = 0) then throw invalid_argument else mret index.

(** Statement::bindDouble, bindInt, bindString by index; a string is
    passed with length -1. *)
Definition bind (index : Z) (v : value) : M (t * World E) unit :=
  requireOpen ;;
  this ← gets fst;
  result ← on_env (sqlite3_bind eng (fun _ => -1) (m_handle this) index v);
  handleBindResult index result.

(** Statement::bindDouble, bindInt, bindString by name. *)
Definition bind_name (name : string) (v : value) : M (t * World E) unit :=
  index ← getParameterIndex name;
  bind index v.

(** Statement::canRead. *)
Definition canRead : M (t * World E) bool :=
  gets (fun s => m_canRead (fst s)).

(** Statement::requireCanRead. *)
Definition requireCanRead : M (t * World E) unit :=
  this ← gets fst;
  if negb (m_canRead this) then throw logic_error else mret tt.

(** Statement::columnCount. *)
Definition columnCount : M (t * World E) Z :=
  requireOpen ;;
  requireCanRead ;;
  this ← gets fst;
  on_env (sqlite3_column_count eng (m_handle this)).

(** Statement::readDouble. *)
Definition readDouble (column : Z) : M (t * World E) double :=
  requireOpen ;;
  requireCanRead ;;
  this ← gets fst;
  on_env (sqlite3_column_double eng (m_handle this) column).

(** Statement::readInt. *)
Definition readInt (column : Z) : M (t * World E) Z :=
  requireOpen ;;
  requireCanRead ;;
  this ← gets fst;
  on_env (sqlite3_column_int eng (m_handle this) column).

(** Statement::readString. *)
Definition readString (column : Z) : M (t * World E) string :=
  requireOpen ;;
  requireCanRead ;;
  this ← gets fst;
  text ← on_env (sqlite3_column_text eng (m_handle this) column);
  string_of_c_str text.

(** Statement::step. *)
Definition step : M (t * World E) bool :=
  requireOpen ;;
  this ← gets fst;
  result ← on_env (sqlite3_step eng (m_handle this));
  (if decide (result = SQLITE_ROW) then on_this (modify (set_canRead true))
   else if decide (result = SQLITE_DONE) then on_this (modify (set_canRead false))
   else throw (DatabaseError_code eng result)) ;;
  gets (fun s => m_canRead (fst s)).

(** Statement::finalize. *)
Definition finalize : M (t * World E) unit :=
  this ← gets fst;
  if isOpen this then
    on_env (sqlite3_finalize eng (m_handle this)) ;;
    setOpen false
  else mret tt.

(** Statement::reset. *)
Definition reset : M (t * World E) bool :=
  requireOpen ;;
  this ← gets fst;
  result ← on_env (sqlite3_reset eng (m_handle this));
  mret (bool_decide (result = SQLITE_OK)).

End Methods.
End Statement.

Section DatabaseStatements.
Context {E : Type} (eng : Engine E).

(** Database::execute: the local [statement] is stepped once and
    finalized; its destructor runs however the call ends. *)
Definition Database_execute (sql : string) : M (Database.t * World E) unit :=
  requireOpen ;;
  this ← gets fst;
  statement ← on_env (Statement.new eng this sql);
  on_env (with_object statement
    (scoped (Statement.step eng ;; Statement.finalize eng)
            (Statement.destructor eng))).

(** Database::prepare: the Statement that the returned shared_ptr owns. *)
Definition Database_prepare (sql : string) : M (Database.t * World E) Statement.t :=
  this ← gets fst;
  on_env (Statement.new eng this sql).

End DatabaseStatements.

End legacy.

(** ** An engine that answers from a script

    Its state is the list of the numbers it will answer with, one per
    call (two for the calls that also store a handle); 0 once the script
    is used up.  It runs the wrapper on concrete inputs. *)

Module script.

Definition pop (e : list Z) : Z * list Z :=
  match e with
  | [] => (0, [])
  | z :: e' => (z, e')
  end.

Definition pop_handle (e : list Z) : (ptr * Z) * list Z :=
  let '(h, e1) := pop e in
  let '(r, e2) := pop e1 in
  ((Z.to_N h, r), e2).

Definition errstr (code : Z) : string :=
  if decide (code = 0) then "not an error"
  else if decide (code = 1) then "SQL logic error"
  else if decide (code = 5) then "database is locked"
  else if decide (code = 14) then "unable to open database file"
  else "unknown error".

Definition eng : Engine (list Z) := {|
  eng_open _ := pop_handle;
  eng_close _ := pop;
  eng_errmsg _ e := ("unable to open database file", e);
  eng_errstr := errstr;
  eng_prepare_v2 _ _ _ := pop_handle;
  eng_finalize _ := pop;
  eng_step _ := pop;
  eng_reset _ := pop;
  eng_bind_double _ _ _ := pop;
  eng_bind_int _ _ _ := pop;
  eng_bind_text _ _ _ _ := pop;
  eng_bind_parameter_index _ _ := pop;
  eng_data_count _ := pop;
  eng_column_count _ := pop;
  eng_column_double _ _ e :=
    let '(z, e') := pop e in (if decide (z = 0) then 0%float else 1.5%float, e');
  eng_column_int _ _ := pop;
  eng_column_text _ _ e :=
    let '(z, e') := pop e in ((if decide (z = 0) then None else Some (pretty z)), e');
  eng_last_insert_rowid _ := pop
|}.

(** A world that has seen no call yet. *)
Definition fresh (answers : list Z) : World (list Z) := mkWorld answers [] "".

(** An empty free store over [fresh]. *)
Definition store (answers : list Z) : sqlitepp.Memory (list Z) :=
  sqlitepp.mkMemory (fresh answers) ∅ 0%nat.

(** A Statement as Database::prepare makes it, here with handle 64, and
    the same after a step that found a row. *)
Definition stmt : sqlitepp.Statement.t := sqlitepp.Statement.new 64%N.
Definition stmt_row : sqlitepp.Statement.t :=
  sqlitepp.Statement.set_canRead true stmt.
Definition stmt_closed : sqlitepp.Statement.t := opened false stmt_row.

(** The same for the Statement of src/sqlitepp.cpp. *)
Definition old_stmt : legacy.Statement.t :=
  legacy.Statement.mk (mkOpenable true "Statement") 64%N false.
Definition old_stmt_row : legacy.Statement.t :=
  legacy.Statement.set_canRead true old_stmt.
Definition old_stmt_closed : legacy.Statement.t := opened false old_stmt_row.

(** A free store that holds [stmt_row] at address 0, owned by two
    shared_ptr (the caller's and a ResultSet's). *)
Definition shared_row (answers : list Z) : sqlitepp.Memory (list Z) :=
  sqlitepp.mkMemory (fresh answers)
    {[ 0%nat := sqlitepp.mkCell
                  (sqlitepp.Statement.mk (mkOpenable true "Statement") 64%N true
                     (Some 0%nat)) 2 ]} 1%nat.

(** The free store after Database::prepare made its first Statement
    (handle 64): at address 0, owned by the caller alone. *)
Definition prepared (answers : list Z) : sqlitepp.Memory (list Z) :=
  sqlitepp.mkMemory (fresh answers)
    {[ 0%nat := sqlitepp.mkCell
                  (sqlitepp.Statement.mk (mkOpenable true "Statement") 64%N false
                     (Some 0%nat)) 1 ]} 1%nat.

(** The free store of [prepared] after an explicit close of its
    Statement, which never had a row. *)
Definition prepared_closed (answers : list Z) : sqlitepp.Memory (list Z) :=
  sqlitepp.mkMemory (fresh answers)
    {[ 0%nat := sqlitepp.mkCell
                  (sqlitepp.Statement.mk (mkOpenable false "Statement") 64%N false
                     (Some 0%nat)) 1 ]} 1%nat.

(** The Statement of [shared_row] after an explicit close, and the free
    store that then holds it. *)
Definition stmt_self_closed : sqlitepp.Statement.t :=
  sqlitepp.Statement.mk (mkOpenable false "Statement") 64%N true (Some 0%nat).
Definition closed_row (answers : list Z) : sqlitepp.Memory (list Z) :=
  sqlitepp.mkMemory (fresh answers)
    {[ 0%nat := sqlitepp.mkCell stmt_self_closed 2 ]} 1%nat.

(** A Database that was never opened, and one that is open on handle 32. *)
Definition db : sqlitepp.Database.t := sqlitepp.Database.new 0%N.
Definition db_open : sqlitepp.Database.t :=
  sqlitepp.Database.mk (mkOpenable true "Database") 32%N.
Definition old_db : legacy.Database.t := legacy.Database.new 0%N.
Definition old_db_open : legacy.Database.t :=
  legacy.Database.mk (mkOpenable true "Database") 32%N.

(** The query of the test suite up to its first row, followed by an
    explicit close of the Statement and a look at the ResultSet. *)
Definition close_then_canRead
  : M (sqlitepp.Database.t * sqlitepp.Memory (list Z)) bool :=
  statement ← sqlitepp.Database.prepare eng "SELECT id, value FROM test;";
  match statement with
  | Some this =>
      resultSet ← on_env (sqlitepp.Statement_execute eng this);
      on_env (sqlitepp.deref statement (sqlitepp.Statement.close eng)) ;;
      on_env (sqlitepp.ResultSet.canRead resultSet)
  | None => undefined
  end.

End script.

(** * Properties *)

(** ** Running the monad *)

Lemma bind_Return {S A B} (m : M S A) (k : A -> M S B) s a s' :
  m s = (Return a, s') -> (m ≫= k) s = k a s'.
Proof. unfold mbind, M_bind. intros ->. reflexivity. Qed.

Lemma bind_Throw {S A B} (m : M S A) (k : A -> M S B) s e s' :
  m s = (Throw e, s') -> (m ≫= k) s = (Throw e, s').
Proof. unfold mbind, M_bind. intros ->. reflexivity. Qed.

Lemma bind_Undefined {S A B} (m : M S A) (k : A -> M S B) s s' :
  m s = (Undefined, s') -> (m ≫= k) s = (Undefined, s').
Proof. unfold mbind, M_bind. intros ->. reflexivity. Qed.

(** requireOpen on an open object returns and changes nothing; on a closed
    one it reads the dangling [m_name]: no exception is thrown, the call
    has no defined outcome. *)
Lemma requireOpen_open {T} `{Derived T} {W} (this : T) (w : W) :
  isOpen this = true -> requireOpen (this, w) = (Return tt, (this, w)).
Proof.
  intros Hopen. unfold requireOpen, mbind, M_bind, gets. cbn. rewrite Hopen.
  reflexivity.
Qed.

Lemma requireOpen_closed {T} `{Derived T} {W} (this : T) (w : W) :
  isOpen this = false -> requireOpen (this, w) = (Undefined, (this, w)).
Proof.
  intros Hopen. unfold requireOpen, mbind, M_bind, gets. cbn. rewrite Hopen.
  reflexivity.
Qed.

(** Unfolds a method body down to the engine's answers. *)
Create HintDb wrapper.
#[global] Hint Unfold mbind M_bind mret M_ret gets modify throw abort undefined
  on_this on_env zoom ffi called with_object scoped print setOpen
  sqlitepp.on_world sqlitepp.set_world : wrapper.
#[global] Hint Unfold sqlite3_open sqlite3_close sqlite3_errmsg sqlite3_prepare_v2
  sqlite3_finalize sqlite3_step sqlite3_reset sqlite3_bind_double
  sqlite3_bind_int sqlite3_bind_text sqlite3_bind_parameter_index
  sqlite3_data_count sqlite3_column_count sqlite3_column_double
  sqlite3_column_int sqlite3_column_text sqlite3_last_insert_rowid
  string_of_c_str : wrapper.

Ltac run := autounfold with wrapper in *; cbn in *.

Ltac answer H := cbn; rewrite H; cbn.

(** ** Statement::step *)

Section Step.
Context {E : Type} (eng : Engine E).

(** sqlitepp.cc: what step does for each answer of sqlite3_step. *)
Lemma step_cases (s : sqlitepp.Statement.t) (w : World E) (result : Z) (e' : E) :
  eng_step eng (sqlitepp.Statement.m_handle s) (engine w) = (result, e') ->
  let w' := called w (call_step (sqlitepp.Statement.m_handle s)) e' in
  (isOpen s = true -> result = SQLITE_ROW ->
     sqlitepp.Statement.step eng (s, w)
     = (Return true, (sqlitepp.Statement.set_canRead true s, w')))
  /\ (isOpen s = true -> result = SQLITE_DONE ->
     sqlitepp.Statement.step eng (s, w)
     = (Return false, (sqlitepp.Statement.set_canRead false s, w')))
  /\ (isOpen s = true -> result <> SQLITE_ROW -> result <> SQLITE_DONE ->
     sqlitepp.Statement.step eng (s, w)
     = (Throw (DatabaseError_code eng result), (s, w')))
  /\ (isOpen s = false ->
     sqlitepp.Statement.step eng (s, w) = (Undefined, (s, w))).
Proof.
  intros Hengine w'. unfold sqlitepp.Statement.step.
  repeat split; intros Hopen.
  - intros ->. rewrite (bind_Return _ _ _ _ _ (requireOpen_open s w Hopen)).
    run. answer Hengine. reflexivity.
  - intros ->. rewrite (bind_Return _ _ _ _ _ (requireOpen_open s w Hopen)).
    run. answer Hengine. reflexivity.
  - intros Hrow Hdone.
    rewrite (bind_Return _ _ _ _ _ (requireOpen_open s w Hopen)).
    run. answer Hengine. repeat case_decide; try congruence. reflexivity.
  - rewrite (bind_Undefined _ _ _ _ (requireOpen_closed s w Hopen)). reflexivity.
Qed.

(** sqlitepp.cpp: the same. *)
Lemma legacy_step_cases (s : legacy.Statement.t) (w : World E) (result : Z) (e' : E) :
  eng_step eng (legacy.Statement.m_handle s) (engine w) = (result, e') ->
  let w' := called w (call_step (legacy.Statement.m_handle s)) e' in
  (isOpen s = true -> result = SQLITE_ROW ->
     legacy.Statement.step eng (s, w)
     = (Return true, (legacy.Statement.set_canRead true s, w')))
  /\ (isOpen s = true -> result = SQLITE_DONE ->
     legacy.Statement.step eng (s, w)
     = (Return false, (legacy.Statement.set_canRead false s, w')))
  /\ (isOpen s = true -> result <> SQLITE_ROW -> result <> SQLITE_DONE ->
     legacy.Statement.step eng (s, w)
     = (Throw (DatabaseError_code eng result), (s, w')))
  /\ (isOpen s = false ->
     legacy.Statement.step eng (s, w) = (Undefined, (s, w))).
Proof.
  intros Hengine w'. unfold legacy.Statement.step.
  repeat split; intros Hopen.
  - intros ->. rewrite (bind_Return _ _ _ _ _ (requireOpen_open s w Hopen)).
    run. answer Hengine. reflexivity.
  - intros ->. rewrite (bind_Return _ _ _ _ _ (requireOpen_open s w Hopen)).
    run. answer Hengine. reflexivity.
  - intros Hrow Hdone.
    rewrite (bind_Return _ _ _ _ _ (requireOpen_open s w Hopen)).
    run. answer Hengine. repeat case_decide; try congruence. reflexivity.
  - rewrite (bind_Undefined _ _ _ _ (requireOpen_closed s w Hopen)). reflexivity.
Qed.

End Step.

(** C1.  On an open Statement, step() has exactly three outcomes, decided
    by the answer of sqlite3_step: SQLITE_ROW sets canRead and returns
    true; SQLITE_DONE clears canRead and returns false; any other code
    throws a DatabaseError carrying that code and leaves the Statement as
    it was.  On a Statement that is not open, step() does not throw the
    std::logic_error that the claim and the header promise: requireOpen
    builds the message from the dangling [m_name], and the call has no
    defined outcome.  This holds for Statement::step of sqlitepp.cc and
    of sqlitepp.cpp. *)
Theorem step_outcomes {E} (eng : Engine E)
    (s : sqlitepp.Statement.t) (l : legacy.Statement.t) (w : World E)
    (result : Z) (e' : E) :
  (eng_step eng (sqlitepp.Statement.m_handle s) (engine w) = (result, e') ->
   let w' := called w (call_step (sqlitepp.Statement.m_handle s)) e' in
   (isOpen s = true -> result = SQLITE_ROW ->
      sqlitepp.Statement.step eng (s, w)
      = (Return true, (sqlitepp.Statement.set_canRead true s, w')))
   /\ (isOpen s = true -> result = SQLITE_DONE ->
      sqlitepp.Statement.step eng (s, w)
      = (Return false, (sqlitepp.Statement.set_canRead false s, w')))
   /\ (isOpen s = true -> result <> SQLITE_ROW -> result <> SQLITE_DONE ->
      sqlitepp.Statement.step eng (s, w)
      = (Throw (DatabaseError_code eng result), (s, w'))
      /\ exists e, DatabaseError_code eng result = database_error e
                   /\ errorCode e = result)
   /\ (isOpen s = false ->
      fst (sqlitepp.Statement.step eng (s, w)) = Undefined))
  /\
  (eng_step eng (legacy.Statement.m_handle l) (engine w) = (result, e') ->
   let w' := called w (call_step (legacy.Statement.m_handle l)) e' in
   (isOpen l = true -> result = SQLITE_ROW ->
      legacy.Statement.step eng (l, w)
      = (Return true, (legacy.Statement.set_canRead true l, w')))
   /\ (isOpen l = true -> result = SQLITE_DONE ->
      legacy.Statement.step eng (l, w)
      = (Return false, (legacy.Statement.set_canRead false l, w')))
   /\ (isOpen l = true -> result <> SQLITE_ROW -> result <> SQLITE_DONE ->
      legacy.Statement.step eng (l, w)
      = (Throw (DatabaseError_code eng result), (l, w'))
      /\ exists e, DatabaseError_code eng result = database_error e
                   /\ errorCode e = result)
   /\ (isOpen l = false ->
      fst (legacy.Statement.step eng (l, w)) = Undefined)).
Proof.
  split; intros Hengine w'.
  - destruct (step_cases eng s w result e' Hengine) as (Hrow & Hdone & Herr & Hclosed).
    repeat split; auto.
    + eexists; split; reflexivity.
    + intros Hopen. rewrite (Hclosed Hopen). reflexivity.
  - destruct (legacy_step_cases eng l w result e' Hengine)
      as (Hrow & Hdone & Herr & Hclosed).
    repeat split; auto.
    + eexists; split; reflexivity.
    + intros Hopen. rewrite (Hclosed Hopen). reflexivity.
Qed.

(** A row, the end of the rows, an engine error (code 5), and a Statement
    that was closed after its first row, in both variants, on the
    scripted engine. *)
Lemma step_outcomes_witness :
  sqlitepp.Statement.step script.eng (script.stmt, script.fresh [SQLITE_ROW])
  = (Return true, (script.stmt_row, mkWorld [] [call_step 64%N] ""))
  /\ sqlitepp.Statement.step script.eng (script.stmt_row, script.fresh [SQLITE_DONE])
  = (Return false, (script.stmt, mkWorld [] [call_step 64%N] ""))
  /\ sqlitepp.Statement.step script.eng (script.stmt_row, script.fresh [5])
  = (Throw (DatabaseError_code script.eng 5),
     (script.stmt_row, mkWorld [] [call_step 64%N] ""))
  /\ fst (sqlitepp.Statement.step script.eng
            (script.stmt_closed, script.fresh [SQLITE_ROW])) = Undefined
  /\ fst (legacy.Statement.step script.eng
            (script.old_stmt_closed, script.fresh [SQLITE_ROW])) = Undefined
  /\ legacy.Statement.step script.eng (script.old_stmt, script.fresh [SQLITE_ROW])
  = (Return true, (script.old_stmt_row, mkWorld [] [call_step 64%N] "")).
Proof.
  refine (conj _ (conj _ (conj _ (conj _ (conj _ _))))).
  - apply (step_outcomes script.eng script.stmt script.old_stmt
             (script.fresh [SQLITE_ROW]) SQLITE_ROW []); reflexivity.
  - apply (step_outcomes script.eng script.stmt_row script.old_stmt
             (script.fresh [SQLITE_DONE]) SQLITE_DONE []); reflexivity.
  - apply (step_outcomes script.eng script.stmt_row script.old_stmt
             (script.fresh [5]) 5 []); try reflexivity; discriminate.
  - apply (step_outcomes script.eng script.stmt_closed script.old_stmt
             (script.fresh [SQLITE_ROW]) SQLITE_ROW []); reflexivity.
  - apply (step_outcomes script.eng script.stmt_closed script.old_stmt_closed
             (script.fresh [SQLITE_ROW]) SQLITE_ROW []); reflexivity.
  - apply (step_outcomes script.eng script.stmt script.old_stmt
             (script.fresh [SQLITE_ROW]) SQLITE_ROW []); reflexivity.
Defined.

(** ** Statement::reset *)

Section Reset.
Context {E : Type} (eng : Engine E).

(** sqlitepp.cc: reset hands the engine's verdict back and writes no member
    of the Statement. *)
Lemma reset_cases (s : sqlitepp.Statement.t) (w : World E) (result : Z) (e' : E) :
  eng_reset eng (sqlitepp.Statement.m_handle s) (engine w) = (result, e') ->
  (isOpen s = true ->
     sqlitepp.Statement.reset eng (s, w)
     = (Return (bool_decide (result = SQLITE_OK)),
        (s, called w (call_reset (sqlitepp.Statement.m_handle s)) e')))
  /\ (isOpen s = false ->
     sqlitepp.Statement.reset eng (s, w) = (Undefined, (s, w))).
Proof.
  intros Hengine. unfold sqlitepp.Statement.reset. split; intros Hopen.
  - rewrite (bind_Return _ _ _ _ _ (requireOpen_open s w Hopen)).
    run. answer Hengine. reflexivity.
  - rewrite (bind_Undefined _ _ _ _ (requireOpen_closed s w Hopen)). reflexivity.
Qed.

(** sqlitepp.cpp: the same. *)
Lemma legacy_reset_cases (s : legacy.Statement.t) (w : World E) (result : Z) (e' : E) :
  eng_reset eng (legacy.Statement.m_handle s) (engine w) = (result, e') ->
  (isOpen s = true ->
     legacy.Statement.reset eng (s, w)
     = (Return (bool_decide (result = SQLITE_OK)),
        (s, called w (call_reset (legacy.Statement.m_handle s)) e')))
  /\ (isOpen s = false ->
     legacy.Statement.reset eng (s, w) = (Undefined, (s, w))).
Proof.
  intros Hengine. unfold legacy.Statement.reset. split; intros Hopen.
  - rewrite (bind_Return _ _ _ _ _ (requireOpen_open s w Hopen)).
    run. answer Hengine. reflexivity.
  - rewrite (bind_Undefined _ _ _ _ (requireOpen_closed s w Hopen)). reflexivity.
Qed.

End Reset.

(** C2, against the claim.  A Statement is stepped onto a row and then
    reset; the engine reports that the reset succeeded, reset() returns
    true, and canRead is still true: a successful reset does not move the
    Statement to the no-row state.  The same in sqlitepp.cpp. *)
Lemma reset_success_keeps_canRead :
  (sqlitepp.Statement.step script.eng ;; sqlitepp.Statement.reset script.eng)
    (script.stmt, script.fresh [SQLITE_ROW; SQLITE_OK])
  = (Return true,
     (script.stmt_row, mkWorld [] [call_step 64%N; call_reset 64%N] ""))
  /\ sqlitepp.Statement.m_canRead script.stmt_row = true
  /\ (legacy.Statement.step script.eng ;; legacy.Statement.reset script.eng ;;
      legacy.Statement.canRead)
    (script.old_stmt, script.fresh [SQLITE_ROW; SQLITE_OK])
  = (Return true,
     (script.old_stmt_row, mkWorld [] [call_step 64%N; call_reset 64%N] "")).
Proof. vm_compute. auto. Qed.

(** C2, amended.  On an open Statement, reset() makes one call to
    sqlite3_reset and returns true exactly when the engine answers
    SQLITE_OK; it never throws on the engine's answer and it never changes
    the Statement: canRead keeps the value the last step gave it, after a
    successful reset as after a failed one.  This holds for
    Statement::reset of sqlitepp.cc and of sqlitepp.cpp. *)
Theorem reset_returns_verdict_keeps_canRead {E} (eng : Engine E)
    (s : sqlitepp.Statement.t) (l : legacy.Statement.t) (w : World E)
    (result : Z) (e' : E) :
  (eng_reset eng (sqlitepp.Statement.m_handle s) (engine w) = (result, e') ->
   isOpen s = true ->
   exists b : bool,
     sqlitepp.Statement.reset eng (s, w)
     = (Return b, (s, called w (call_reset (sqlitepp.Statement.m_handle s)) e'))
     /\ (b = true <-> result = SQLITE_OK))
  /\
  (eng_reset eng (legacy.Statement.m_handle l) (engine w) = (result, e') ->
   isOpen l = true ->
   exists b : bool,
     legacy.Statement.reset eng (l, w)
     = (Return b, (l, called w (call_reset (legacy.Statement.m_handle l)) e'))
     /\ (b = true <-> result = SQLITE_OK)).
Proof.
  split; intros Hengine Ho.
  - destruct (reset_cases eng s w result e' Hengine) as [Hopen _].
    eexists. split; [exact (Hopen Ho)|]. apply bool_decide_eq_true.
  - destruct (legacy_reset_cases eng l w result e' Hengine) as [Hopen _].
    eexists. split; [exact (Hopen Ho)|]. apply bool_decide_eq_true.
Qed.

(** A reset that the engine refuses (code 1) on a Statement that has a
    row: reset() returns false, the Statement is as before. *)
Lemma reset_returns_verdict_keeps_canRead_witness :
  exists b : bool,
    sqlitepp.Statement.reset script.eng (script.stmt_row, script.fresh [1])
    = (Return b, (script.stmt_row, mkWorld [] [call_reset 64%N] ""))
    /\ (b = true <-> 1 = SQLITE_OK).
Proof.
  apply (reset_returns_verdict_keeps_canRead script.eng script.stmt_row
           script.old_stmt_row (script.fresh [1]) 1 []); reflexivity.
Defined.

(** ** Database::open *)

Section Open.
Context {E : Type} (eng : Engine E).

(** sqlitepp.cc: open, by cases on the Database's flag and on what
    sqlite3_open answers and stores. *)
Lemma open_cases (d : sqlitepp.Database.t) (w : World E) (file : string)
    (handle : ptr) (result : Z) (e1 : E) :
  eng_open eng file (engine w) = ((handle, result), e1) ->
  let w1 := called w (call_open file) e1 in
  (isOpen d = true ->
     sqlitepp.Database.open eng file (d, w) = (Throw logic_error, (d, w)))
  /\ (isOpen d = false -> handle = NULL ->
     sqlitepp.Database.open eng file (d, w)
     = (Throw runtime_error,
        (sqlitepp.Database.mk (sqlitepp.Database.openable d) NULL, w1)))
  /\ (isOpen d = false -> handle <> NULL -> result = SQLITE_OK ->
     sqlitepp.Database.open eng file (d, w)
     = (Return tt,
        (opened true (sqlitepp.Database.mk (sqlitepp.Database.openable d) handle),
         w1)))
  /\ (isOpen d = false -> handle <> NULL -> result <> SQLITE_OK ->
     forall errorMessage e2 closed e3,
       eng_errmsg eng handle e1 = (errorMessage, e2) ->
       eng_close eng handle e2 = (closed, e3) ->
       sqlitepp.Database.open eng file (d, w)
       = (Throw (DatabaseError_msg result errorMessage),
          (sqlitepp.Database.mk (sqlitepp.Database.openable d) handle,
           called (called w1 (call_errmsg handle) e2) (call_close handle) e3))).
Proof.
  intros Hengine w1. unfold sqlitepp.Database.open.
  refine (conj _ (conj _ (conj _ _))); intros Hopen.
  - run. answer Hopen. reflexivity.
  - intros ->. run. answer Hopen. answer Hengine. reflexivity.
  - intros Hnull ->. run. answer Hopen. answer Hengine.
    case_decide; [congruence|]. reflexivity.
  - intros Hnull Hresult errorMessage e2 closed e3 Hmsg Hclose.
    run. answer Hopen. answer Hengine.
    repeat (case_decide; try congruence). cbn.
    answer Hmsg. answer Hclose. reflexivity.
Qed.

(** sqlitepp.cpp: the same. *)
Lemma legacy_open_cases (d : legacy.Database.t) (w : World E) (file : string)
    (handle : ptr) (result : Z) (e1 : E) :
  eng_open eng file (engine w) = ((handle, result), e1) ->
  let w1 := called w (call_open file) e1 in
  (isOpen d = true ->
     legacy.Database.open eng file (d, w) = (Throw logic_error, (d, w)))
  /\ (isOpen d = false -> handle = NULL ->
     legacy.Database.open eng file (d, w)
     = (Throw runtime_error,
        (legacy.Database.mk (legacy.Database.openable d) NULL, w1)))
  /\ (isOpen d = false -> handle <> NULL -> result = SQLITE_OK ->
     legacy.Database.open eng file (d, w)
     = (Return tt,
        (opened true (legacy.Database.mk (legacy.Database.openable d) handle),
         w1)))
  /\ (isOpen d = false -> handle <> NULL -> result <> SQLITE_OK ->
     forall errorMessage e2 closed e3,
       eng_errmsg eng handle e1 = (errorMessage, e2) ->
       eng_close eng handle e2 = (closed, e3) ->
       legacy.Database.open eng file (d, w)
       = (Throw (DatabaseError_msg result errorMessage),
          (legacy.Database.mk (legacy.Database.openable d) handle,
           called (called w1 (call_errmsg handle) e2) (call_close handle) e3))).
Proof.
  intros Hengine w1. unfold legacy.Database.open.
  refine (conj _ (conj _ (conj _ _))); intros Hopen.
  - run. answer Hopen. reflexivity.
  - intros ->. run. answer Hopen. answer Hengine. reflexivity.
  - intros Hnull ->. run. answer Hopen. answer Hengine.
    case_decide; [congruence|]. reflexivity.
  - intros Hnull Hresult errorMessage e2 closed e3 Hmsg Hclose.
    run. answer Hopen. answer Hengine.
    repeat (case_decide; try congruence). cbn.
    answer Hmsg. answer Hclose. reflexivity.
Qed.

End Open.

(** C5.  Database::open(file) on a Database that is already open throws
    std::logic_error, makes no call to the engine and leaves the Database
    (open, on its first handle) as it was.  On a closed Database it calls
    sqlite3_open once: if the engine stored no handle it throws
    std::runtime_error; if it stored a handle and answered SQLITE_OK the
    Database is open on that handle; if it stored a handle and answered
    another code, open asks for the engine's message, closes the handle,
    and only then throws a DatabaseError carrying the code and that
    message, the Database staying closed.  This holds for Database::open
    of sqlitepp.cc and of sqlitepp.cpp. *)
Theorem open_outcomes {E} (eng : Engine E)
    (d : sqlitepp.Database.t) (o : legacy.Database.t) (w : World E)
    (file : string) (handle : ptr) (result : Z) (e1 : E) :
  eng_open eng file (engine w) = ((handle, result), e1) ->
  let w1 := called w (call_open file) e1 in
  ((isOpen d = true ->
      sqlitepp.Database.open eng file (d, w) = (Throw logic_error, (d, w)))
   /\ (isOpen d = false -> handle = NULL ->
      exists d', sqlitepp.Database.open eng file (d, w)
                 = (Throw runtime_error, (d', w1))
                 /\ isOpen d' = false)
   /\ (isOpen d = false -> handle <> NULL -> result = SQLITE_OK ->
      exists d', sqlitepp.Database.open eng file (d, w) = (Return tt, (d', w1))
                 /\ isOpen d' = true
                 /\ sqlitepp.Database.m_handle d' = handle)
   /\ (isOpen d = false -> handle <> NULL -> result <> SQLITE_OK ->
      forall errorMessage e2 closed e3,
        eng_errmsg eng handle e1 = (errorMessage, e2) ->
        eng_close eng handle e2 = (closed, e3) ->
        exists d' w',
          sqlitepp.Database.open eng file (d, w)
          = (Throw (database_error
                      (mkDatabaseError result
                         (getErrorMessage result errorMessage))), (d', w'))
          /\ isOpen d' = false
          /\ engine w' = e3
          /\ calls w' = calls w ++ [call_open file; call_errmsg handle;
                                    call_close handle]))
  /\
  ((isOpen o = true ->
      legacy.Database.open eng file (o, w) = (Throw logic_error, (o, w)))
   /\ (isOpen o = false -> handle = NULL ->
      exists o', legacy.Database.open eng file (o, w)
                 = (Throw runtime_error, (o', w1))
                 /\ isOpen o' = false)
   /\ (isOpen o = false -> handle <> NULL -> result = SQLITE_OK ->
      exists o', legacy.Database.open eng file (o, w) = (Return tt, (o', w1))
                 /\ isOpen o' = true
                 /\ legacy.Database.m_handle o' = handle)
   /\ (isOpen o = false -> handle <> NULL -> result <> SQLITE_OK ->
      forall errorMessage e2 closed e3,
        eng_errmsg eng handle e1 = (errorMessage, e2) ->
        eng_close eng handle e2 = (closed, e3) ->
        exists o' w',
          legacy.Database.open eng file (o, w)
          = (Throw (database_error
                      (mkDatabaseError result
                         (getErrorMessage result errorMessage))), (o', w'))
          /\ isOpen o' = false
          /\ engine w' = e3
          /\ calls w' = calls w ++ [call_open file; call_errmsg handle;
                                    call_close handle])).
Proof.
  intros Hengine w1. split.
  - destruct (open_cases eng d w file handle result e1 Hengine)
      as (Hagain & Hnomem & Hok & Hfail).
    refine (conj Hagain (conj _ (conj _ _))).
    + intros Hopen Hnull. eexists. split; [exact (Hnomem Hopen Hnull)|exact Hopen].
    + intros Hopen Hnull Hres. eexists. split; [exact (Hok Hopen Hnull Hres)|].
      split; reflexivity.
    + intros Hopen Hnull Hres errorMessage e2 closed e3 Hmsg Hclose.
      do 2 eexists. split; [exact (Hfail Hopen Hnull Hres _ _ _ _ Hmsg Hclose)|].
      split; [exact Hopen|]. split; [reflexivity|].
      cbn. rewrite <- !app_assoc. reflexivity.
  - destruct (legacy_open_cases eng o w file handle result e1 Hengine)
      as (Hagain & Hnomem & Hok & Hfail).
    refine (conj Hagain (conj _ (conj _ _))).
    + intros Hopen Hnull. eexists. split; [exact (Hnomem Hopen Hnull)|exact Hopen].
    + intros Hopen Hnull Hres. eexists. split; [exact (Hok Hopen Hnull Hres)|].
      split; reflexivity.
    + intros Hopen Hnull Hres errorMessage e2 closed e3 Hmsg Hclose.
      do 2 eexists. split; [exact (Hfail Hopen Hnull Hres _ _ _ _ Hmsg Hclose)|].
      split; [exact Hopen|]. split; [reflexivity|].
      cbn. rewrite <- !app_assoc. reflexivity.
Qed.

(** On the scripted engine: a second open of an open Database; an open
    that the engine refuses with code 14 after storing handle 32. *)
Lemma open_outcomes_witness :
  sqlitepp.Database.open script.eng "/tmp/test2.db"
    (script.db_open, script.fresh [32; 14; 0])
  = (Throw logic_error, (script.db_open, script.fresh [32; 14; 0]))
  /\ exists d' w',
    sqlitepp.Database.open script.eng "/tmp/test.db"
      (script.db, script.fresh [32; 14; 0])
    = (Throw (database_error
                (mkDatabaseError 14
                   (getErrorMessage 14 "unable to open database file"))),
       (d', w'))
    /\ isOpen d' = false
    /\ engine w' = []
    /\ calls w' = [call_open "/tmp/test.db"; call_errmsg 32%N; call_close 32%N].
Proof.
  split.
  - apply (open_outcomes script.eng script.db_open script.old_db
             (script.fresh [32; 14; 0]) "/tmp/test2.db" 32%N 14 [0]);
      reflexivity.
  - destruct (open_outcomes script.eng script.db script.old_db
                (script.fresh [32; 14; 0]) "/tmp/test.db" 32%N 14 [0] eq_refl)
      as [(_ & _ & _ & Hfail) _].
    apply (Hfail eq_refl) with (closed := 0) (e2 := [0]);
      try reflexivity; discriminate.
Defined.

(** ** Closing: Statement::close, Database::close, Database::~Database *)

Section Close.
Context {E : Type} (eng : Engine E).

(** Statement::close finalizes an open Statement, whatever the engine
    answers, and does nothing on a closed one. *)
Lemma Statement_close_cases (s : sqlitepp.Statement.t) (w : World E)
    (result : Z) (e' : E) :
  eng_finalize eng (sqlitepp.Statement.m_handle s) (engine w) = (result, e') ->
  (isOpen s = true ->
     sqlitepp.Statement.close eng (s, w)
     = (Return tt,
        (opened false s, called w (call_finalize (sqlitepp.Statement.m_handle s)) e')))
  /\ (isOpen s = false ->
     sqlitepp.Statement.close eng (s, w) = (Return tt, (s, w))).
Proof.
  intros Hengine. unfold sqlitepp.Statement.close. split; intros Hopen.
  - run. answer Hopen. answer Hengine. reflexivity.
  - run. answer Hopen. reflexivity.
Qed.

(** Database::close. *)
Lemma Database_close_cases (d : sqlitepp.Database.t) (w : World E)
    (result : Z) (e' : E) :
  eng_close eng (sqlitepp.Database.m_handle d) (engine w) = (result, e') ->
  let w' := called w (call_close (sqlitepp.Database.m_handle d)) e' in
  (isOpen d = false ->
     sqlitepp.Database.close eng (d, w) = (Return tt, (d, w)))
  /\ (isOpen d = true -> result = SQLITE_OK ->
     sqlitepp.Database.close eng (d, w) = (Return tt, (opened false d, w')))
  /\ (isOpen d = true -> result <> SQLITE_OK ->
     sqlitepp.Database.close eng (d, w)
     = (Throw (DatabaseError_code eng result), (d, w'))).
Proof.
  intros Hengine w'. unfold sqlitepp.Database.close.
  refine (conj _ (conj _ _)); intros Hopen.
  - run. answer Hopen. reflexivity.
  - intros ->. run. answer Hopen. answer Hengine. reflexivity.
  - intros Hresult. run. answer Hopen. answer Hengine.
    case_decide; [congruence|]. reflexivity.
Qed.

(** sqlitepp.cc, Database::~Database: the answer of sqlite3_close is not
    looked at. *)
Lemma destructor_cases (d : sqlitepp.Database.t) (w : World E)
    (result : Z) (e' : E) :
  eng_close eng (sqlitepp.Database.m_handle d) (engine w) = (result, e') ->
  (isOpen d = true ->
     sqlitepp.Database.destructor eng (d, w)
     = (Return tt,
        (opened false d, called w (call_close (sqlitepp.Database.m_handle d)) e')))
  /\ (isOpen d = false ->
     sqlitepp.Database.destructor eng (d, w) = (Return tt, (d, w))).
Proof.
  intros Hengine. unfold sqlitepp.Database.destructor. split; intros Hopen.
  - run. answer Hopen. answer Hengine. reflexivity.
  - run. answer Hopen. reflexivity.
Qed.

(** sqlitepp.cpp, Database::~Database: a close that fails is written to
    std::cerr and the process is aborted. *)
Lemma legacy_destructor_cases (d : legacy.Database.t) (w : World E)
    (result : Z) (e' : E) :
  eng_close eng (legacy.Database.m_handle d) (engine w) = (result, e') ->
  let w' := called w (call_close (legacy.Database.m_handle d)) e' in
  (isOpen d = true -> result = SQLITE_OK ->
     legacy.Database.destructor eng (d, w) = (Return tt, (opened false d, w')))
  /\ (isOpen d = true -> result <> SQLITE_OK ->
     legacy.Database.destructor eng (d, w)
     = (Abort,
        (d, mkWorld e' (calls w')
              (cerr w
               +:+ ("sqlitepp::Database::~Database(): Close failed with code "
                    +:+ pretty result +:+ " meaning: "
                    +:+ sqlite3_errstr eng result)))))
  /\ (isOpen d = false ->
     legacy.Database.destructor eng (d, w) = (Return tt, (d, w))).
Proof.
  intros Hengine w'. unfold legacy.Database.destructor.
  refine (conj _ (conj _ _)); intros Hopen.
  - intros ->. run. answer Hopen. answer Hengine. reflexivity.
  - intros Hresult. run. answer Hopen. answer Hengine.
    case_decide; [|congruence]. reflexivity.
  - run. answer Hopen. reflexivity.
Qed.

End Close.

(** C6, against the claim.  In sqlitepp.cpp the destructor of an open
    Database whose close the engine refuses (code 5) does not swallow the
    error: it writes it to std::cerr and aborts the process. *)
Lemma legacy_destructor_aborts :
  legacy.Database.destructor script.eng (script.old_db_open, script.fresh [5])
  = (Abort,
     (script.old_db_open,
      mkWorld [] [call_close 32%N]
        "sqlitepp::Database::~Database(): Close failed with code 5 meaning: database is locked")).
Proof. vm_compute. reflexivity. Qed.

(** C6, amended.  Destruction of a Database calls sqlite3_close once if the
    Database is still open, and makes no call otherwise; no exception ever
    leaves the destructor.  In sqlitepp.cc the engine's answer is ignored:
    the destructor returns with the Database marked closed.  In
    sqlitepp.cpp this is so only when the engine answers SQLITE_OK; on any
    other answer the destructor writes the code and its default message
    to std::cerr and aborts the process. *)
Theorem destructor_outcomes {E} (eng : Engine E)
    (d : sqlitepp.Database.t) (o : legacy.Database.t) (w : World E)
    (result : Z) (e' : E) :
  (eng_close eng (sqlitepp.Database.m_handle d) (engine w) = (result, e') ->
   (isOpen d = true ->
      exists d',
        sqlitepp.Database.destructor eng (d, w)
        = (Return tt, (d', called w (call_close (sqlitepp.Database.m_handle d)) e'))
        /\ isOpen d' = false)
   /\ (isOpen d = false ->
      sqlitepp.Database.destructor eng (d, w) = (Return tt, (d, w)))
   /\ (forall e st, sqlitepp.Database.destructor eng (d, w) <> (Throw e, st)))
  /\
  (eng_close eng (legacy.Database.m_handle o) (engine w) = (result, e') ->
   let w' := called w (call_close (legacy.Database.m_handle o)) e' in
   (isOpen o = true -> result = SQLITE_OK ->
      exists o',
        legacy.Database.destructor eng (o, w) = (Return tt, (o', w'))
        /\ isOpen o' = false)
   /\ (isOpen o = true -> result <> SQLITE_OK ->
      legacy.Database.destructor eng (o, w)
      = (Abort,
         (o, mkWorld e' (calls w')
               (cerr w
                +:+ ("sqlitepp::Database::~Database(): Close failed with code "
                     +:+ pretty result +:+ " meaning: "
                     +:+ sqlite3_errstr eng result)))))
   /\ (isOpen o = false ->
      legacy.Database.destructor eng (o, w) = (Return tt, (o, w)))
   /\ (forall e st, legacy.Database.destructor eng (o, w) <> (Throw e, st))).
Proof.
  split; intros Hengine.
  - destruct (destructor_cases eng d w result e' Hengine) as [Hopen Hclosed].
    refine (conj _ (conj Hclosed _)).
    + intros Ho. eexists. split; [exact (Hopen Ho)|]. reflexivity.
    + intros e st. destruct (isOpen d) eqn:Ho.
      * rewrite (Hopen eq_refl). discriminate.
      * rewrite (Hclosed eq_refl). discriminate.
  - intros w'.
    destruct (legacy_destructor_cases eng o w result e' Hengine)
      as (Hok & Hfail & Hclosed).
    refine (conj _ (conj Hfail (conj Hclosed _))).
    + intros Ho Hres. eexists. split; [exact (Hok Ho Hres)|]. reflexivity.
    + intros e st. destruct (isOpen o) eqn:Ho.
      * destruct (decide (result = SQLITE_OK)) as [Hres|Hres].
        -- rewrite (Hok eq_refl Hres). discriminate.
        -- rewrite (Hfail eq_refl Hres). discriminate.
      * rewrite (Hclosed eq_refl). discriminate.
Qed.

(** An open Database whose close the engine refuses (code 5): the
    destructor of sqlitepp.cc returns and the Database is closed. *)
Lemma destructor_outcomes_witness :
  exists d',
    sqlitepp.Database.destructor script.eng (script.db_open, script.fresh [5])
    = (Return tt, (d', mkWorld [] [call_close 32%N] ""))
    /\ isOpen d' = false.
Proof.
  apply (destructor_outcomes script.eng script.db_open script.old_db_open
           (script.fresh [5]) 5 []); reflexivity.
Defined.

(** C8, against the claim.  Database::close on an open Database whose
    close the engine refuses (code 5) throws a DatabaseError, and the
    Database is still open. *)
Lemma Database_close_can_throw :
  sqlitepp.Database.close script.eng (script.db_open, script.fresh [5])
  = (Throw (DatabaseError_code script.eng 5),
     (script.db_open, mkWorld [] [call_close 32%N] ""))
  /\ isOpen script.db_open = true.
Proof. vm_compute. auto. Qed.

(** C8, amended.  Statement::close never throws, from any state: on an
    open Statement it calls sqlite3_finalize once, ignores the answer and
    marks the Statement closed; on a closed one it does nothing; so a
    second close in succession does nothing and the Statement is closed
    both times.  Database::close does nothing on a closed Database; on an
    open one it calls sqlite3_close once and, if the engine answers
    SQLITE_OK, marks the Database closed, after which a second close does
    nothing; if the engine answers another code it throws a DatabaseError
    carrying that code and the Database stays open. *)
Theorem close_twice {E} (eng : Engine E)
    (s : sqlitepp.Statement.t) (d : sqlitepp.Database.t) (w : World E)
    (result : Z) (e' : E) :
  (eng_finalize eng (sqlitepp.Statement.m_handle s) (engine w) = (result, e') ->
   exists s' w',
     sqlitepp.Statement.close eng (s, w) = (Return tt, (s', w'))
     /\ isOpen s' = false
     /\ w' = (if isOpen s
              then called w (call_finalize (sqlitepp.Statement.m_handle s)) e'
              else w)
     /\ sqlitepp.Statement.close eng (s', w') = (Return tt, (s', w')))
  /\
  (eng_close eng (sqlitepp.Database.m_handle d) (engine w) = (result, e') ->
   let w' := called w (call_close (sqlitepp.Database.m_handle d)) e' in
   (isOpen d = false ->
      sqlitepp.Database.close eng (d, w) = (Return tt, (d, w)))
   /\ (isOpen d = true -> result = SQLITE_OK ->
      exists d',
        sqlitepp.Database.close eng (d, w) = (Return tt, (d', w'))
        /\ isOpen d' = false
        /\ sqlitepp.Database.close eng (d', w') = (Return tt, (d', w')))
   /\ (isOpen d = true -> result <> SQLITE_OK ->
      sqlitepp.Database.close eng (d, w)
      = (Throw (DatabaseError_code eng result), (d, w')))).
Proof.
  split; intros Hengine.
  - destruct (Statement_close_cases eng s w result e' Hengine) as [Hopen Hclosed].
    destruct (isOpen s) eqn:Ho.
    + do 2 eexists. split; [exact (Hopen eq_refl)|].
      split; [reflexivity|]. split; [reflexivity|].
      unfold sqlitepp.Statement.close. run. reflexivity.
    + do 2 eexists. split; [exact (Hclosed eq_refl)|].
      split; [exact Ho|]. split; [reflexivity|]. exact (Hclosed eq_refl).
  - intros w'.
    destruct (Database_close_cases eng d w result e' Hengine)
      as (Hclosed & Hok & Hfail).
    refine (conj Hclosed (conj _ Hfail)).
    intros Ho Hres. eexists. split; [exact (Hok Ho Hres)|].
    split; [reflexivity|]. unfold sqlitepp.Database.close. run. reflexivity.
Qed.

(** An open Statement whose finalize the engine answers with code 1 is
    closed all the same, and closing it again does nothing. *)
Lemma close_twice_witness :
  exists s' w',
    sqlitepp.Statement.close script.eng (script.stmt_row, script.fresh [1])
    = (Return tt, (s', w'))
    /\ isOpen s' = false
    /\ w' = (if isOpen script.stmt_row
             then called (script.fresh [1]) (call_finalize 64%N) []
             else script.fresh [1])
    /\ sqlitepp.Statement.close script.eng (s', w') = (Return tt, (s', w')).
Proof.
  apply (close_twice script.eng script.stmt_row script.db_open
           (script.fresh [1]) 1 []); reflexivity.
Defined.

(** ** Statement::bind *)

Section Bind.
Context {E : Type} (eng : Engine E).

(** Each overload makes one call to the engine, which answers. *)
Lemma sqlite3_bind_answers (nByte : string -> Z) (stmt : ptr) (index : Z)
    (v : value) (w : World E) :
  exists result e' c,
    sqlite3_bind eng nByte stmt index v w = (Return result, called w c e').
Proof.
  destruct v as [x|x|x]; cbn; autounfold with wrapper.
  - destruct (eng_bind_double eng stmt index x (engine w)) as [r e'] eqn:Hr.
    exists r, e', (call_bind_double stmt index x). reflexivity.
  - destruct (eng_bind_int eng stmt index x (engine w)) as [r e'] eqn:Hr.
    exists r, e', (call_bind_int stmt index x). reflexivity.
  - destruct (eng_bind_text eng stmt index x (nByte x) (engine w)) as [r e'] eqn:Hr.
    exists r, e', (call_bind_text stmt index x (nByte x)). reflexivity.
Qed.

(** Statement::handleBindResult, by the engine's result code and, for
    SQLITE_RANGE, by the index that offsets the literal. *)
Lemma handleBindResult_cases (index result : Z)
    (st : sqlitepp.Statement.t * World E) :
  sqlitepp.Statement.handleBindResult eng index result st
  = if decide (result = SQLITE_OK) then (Return tt, st)
    else if decide (result = SQLITE_RANGE) then
      if decide (0 <= index <= 25) then (Throw out_of_range, st)
      else (Undefined, st)
    else if decide (result = SQLITE_NOMEM) then (Throw runtime_error, st)
    else (Throw (DatabaseError_code eng result), st).
Proof.
  unfold sqlitepp.Statement.handleBindResult, literal_plus.
  change (Z.of_nat (String.length _)) with 25.
  repeat case_decide; reflexivity.
Qed.

(** Binding by index. *)
Lemma bind_cases (s : sqlitepp.Statement.t) (w : World E) (index : Z) (v : value)
    (result : Z) (w1 : World E) :
  sqlite3_bind eng int_of_size
    (sqlitepp.Statement.m_handle s) index v w = (Return result, w1) ->
  (isOpen s = false ->
     sqlitepp.Statement.bind eng index v (s, w) = (Undefined, (s, w)))
  /\ (isOpen s = true ->
     sqlitepp.Statement.bind eng index v (s, w)
     = sqlitepp.Statement.handleBindResult eng index result (s, w1)).
Proof.
  intros Hengine. unfold sqlitepp.Statement.bind. split; intros Hopen.
  - rewrite (bind_Undefined _ _ _ _ (requireOpen_closed s w Hopen)). reflexivity.
  - rewrite (bind_Return _ _ _ _ _ (requireOpen_open s w Hopen)).
    run. answer Hengine. reflexivity.
Qed.

(** Binding by name: the name is resolved first. *)
Lemma bind_name_cases (s : sqlitepp.Statement.t) (w : World E) (name : string)
    (v : value) (index : Z) (e1 : E) :
  eng_bind_parameter_index eng (sqlitepp.Statement.m_handle s) name (engine w)
  = (index, e1) ->
  let w1 := called w (call_bind_parameter_index (sqlitepp.Statement.m_handle s) name) e1 in
  (isOpen s = false ->
     sqlitepp.Statement.bind_name eng name v (s, w) = (Undefined, (s, w)))
  /\ (isOpen s = true -> index = 0 ->
     sqlitepp.Statement.bind_name eng name v (s, w)
     = (Throw invalid_argument, (s, w1)))
  /\ (isOpen s = true -> index <> 0 ->
     sqlitepp.Statement.bind_name eng name v (s, w)
     = sqlitepp.Statement.bind eng index v (s, w1)).
Proof.
  intros Hengine w1.
  unfold sqlitepp.Statement.bind_name, sqlitepp.Statement.getParameterIndex.
  refine (conj _ (conj _ _)); intros Hopen.
  - unfold mbind at 1, M_bind.
    rewrite (bind_Undefined _ _ _ _ (requireOpen_closed s w Hopen)). reflexivity.
  - intros ->. unfold mbind at 1, M_bind.
    rewrite (bind_Return _ _ _ _ _ (requireOpen_open s w Hopen)).
    run. answer Hengine. reflexivity.
  - intros Hindex. unfold mbind at 1, M_bind.
    rewrite (bind_Return _ _ _ _ _ (requireOpen_open s w Hopen)).
    run. answer Hengine. case_decide; [congruence|]. reflexivity.
Qed.

End Bind.

(** C7.  On an open Statement the value is handed to the engine once, and
    the engine's result code decides: SQLITE_OK returns, SQLITE_NOMEM
    throws std::runtime_error, any code other than these and SQLITE_RANGE
    throws a DatabaseError carrying the code.  Binding by name first asks
    the engine for the parameter's index: index 0 throws
    std::invalid_argument, any other index is bound as by index.  Where
    the call ends in one of these ways the Statement itself, its open
    flag and its canRead flag, is left as it was.  Two promises of the
    claim and of the header are not kept.  On a Statement that is not
    open, binding by index or by name does not throw std::logic_error:
    requireOpen builds the message from the dangling [m_name] and the
    call has no defined outcome.  On SQLITE_RANGE, std::out_of_range is
    thrown only for an index from 0 to 25: the message is the literal
    offset by the index, and for every other index the call has no
    defined outcome. *)
Theorem bind_outcomes {E} (eng : Engine E)
    (s : sqlitepp.Statement.t) (w : World E) (index : Z) (name : string)
    (v : value) :
  (forall result w1,
     sqlite3_bind eng int_of_size
       (sqlitepp.Statement.m_handle s) index v w = (Return result, w1) ->
     (isOpen s = false ->
        fst (sqlitepp.Statement.bind eng index v (s, w)) = Undefined)
     /\ (isOpen s = true -> result = SQLITE_RANGE -> 0 <= index <= 25 ->
        sqlitepp.Statement.bind eng index v (s, w) = (Throw out_of_range, (s, w1)))
     /\ (isOpen s = true -> result = SQLITE_RANGE -> ~ 0 <= index <= 25 ->
        fst (sqlitepp.Statement.bind eng index v (s, w)) = Undefined)
     /\ (isOpen s = true -> result = SQLITE_NOMEM ->
        sqlitepp.Statement.bind eng index v (s, w) = (Throw runtime_error, (s, w1)))
     /\ (isOpen s = true -> result <> SQLITE_OK -> result <> SQLITE_RANGE ->
         result <> SQLITE_NOMEM ->
        sqlitepp.Statement.bind eng index v (s, w)
        = (Throw (database_error
                    (mkDatabaseError result
                       (getErrorMessage result (sqlite3_errstr eng result)))),
           (s, w1)))
     /\ (isOpen s = true -> result = SQLITE_OK ->
        sqlitepp.Statement.bind eng index v (s, w) = (Return tt, (s, w1))))
  /\
  (forall resolved e1,
     eng_bind_parameter_index eng (sqlitepp.Statement.m_handle s) name (engine w)
     = (resolved, e1) ->
     let w1 :=
       called w (call_bind_parameter_index (sqlitepp.Statement.m_handle s) name) e1 in
     (isOpen s = false ->
        fst (sqlitepp.Statement.bind_name eng name v (s, w)) = Undefined)
     /\ (isOpen s = true -> resolved = 0 ->
        sqlitepp.Statement.bind_name eng name v (s, w)
        = (Throw invalid_argument, (s, w1)))
     /\ (isOpen s = true -> resolved <> 0 ->
        sqlitepp.Statement.bind_name eng name v (s, w)
        = sqlitepp.Statement.bind eng resolved v (s, w1))).
Proof.
  split.
  - intros result w1 Hengine.
    destruct (bind_cases eng s w index v result w1 Hengine) as [Hclosed Hopen].
    refine (conj _ (conj _ (conj _ (conj _ (conj _ _))))); intros Ho.
    + rewrite (Hclosed Ho). reflexivity.
    + intros -> Hindex. rewrite (Hopen Ho), handleBindResult_cases.
      destruct (decide (0 <= index <= 25)); [reflexivity|tauto].
    + intros -> Hindex. rewrite (Hopen Ho), handleBindResult_cases.
      destruct (decide (0 <= index <= 25)); [tauto|reflexivity].
    + intros ->. rewrite (Hopen Ho), handleBindResult_cases. reflexivity.
    + intros Hok Hrange Hnomem. rewrite (Hopen Ho), handleBindResult_cases.
      repeat case_decide; try congruence. reflexivity.
    + intros ->. rewrite (Hopen Ho), handleBindResult_cases. reflexivity.
  - intros resolved e1 Hengine.
    destruct (bind_name_cases eng s w name v resolved e1 Hengine)
      as (Hclosed & Hnone & Hsome).
    refine (conj _ (conj Hnone Hsome)).
    intros Ho. rewrite (Hclosed Ho). reflexivity.
Qed.

(** On the scripted engine: a bind on a Statement that was closed; an
    index (100000) that the engine calls out of range; an index (7) that
    it calls out of range and that lies inside the literal; a name that
    the engine does not know. *)
Lemma bind_outcomes_witness :
  fst (sqlitepp.Statement.bind script.eng 1 (of_int 1)
         (script.stmt_closed, script.fresh [SQLITE_OK])) = Undefined
  /\ fst (sqlitepp.Statement.bind script.eng 100000 (of_int 1)
            (script.stmt, script.fresh [SQLITE_RANGE])) = Undefined
  /\ sqlitepp.Statement.bind script.eng 7 (of_int 1)
    (script.stmt, script.fresh [SQLITE_RANGE])
  = (Throw out_of_range,
     (script.stmt, mkWorld [] [call_bind_int 64%N 7 1] ""))
  /\ sqlitepp.Statement.bind_name script.eng ":nope" (of_string "a")
    (script.stmt_row, script.fresh [0])
  = (Throw invalid_argument,
     (script.stmt_row, mkWorld [] [call_bind_parameter_index 64%N ":nope"] "")).
Proof.
  refine (conj _ (conj _ (conj _ _))).
  - destruct (bind_outcomes script.eng script.stmt_closed (script.fresh [SQLITE_OK])
                1 ":id" (of_int 1)) as [Hindex _].
    destruct (Hindex SQLITE_OK (mkWorld [] [call_bind_int 64%N 1 1] "") eq_refl)
      as (Hclosed & _).
    exact (Hclosed eq_refl).
  - destruct (bind_outcomes script.eng script.stmt (script.fresh [SQLITE_RANGE])
                100000 ":id" (of_int 1)) as [Hindex _].
    destruct (Hindex SQLITE_RANGE (mkWorld [] [call_bind_int 64%N 100000 1] "")
                eq_refl) as (_ & _ & Houtside & _).
    apply (Houtside eq_refl eq_refl). lia.
  - destruct (bind_outcomes script.eng script.stmt (script.fresh [SQLITE_RANGE])
                7 ":id" (of_int 1)) as [Hindex _].
    destruct (Hindex SQLITE_RANGE (mkWorld [] [call_bind_int 64%N 7 1] "")
                eq_refl) as (_ & Hinside & _).
    apply (Hinside eq_refl eq_refl). lia.
  - destruct (bind_outcomes script.eng script.stmt_row (script.fresh [0])
                2 ":nope" (of_string "a")) as [_ Hname].
    apply (Hname 0 []); reflexivity.
Defined.

(** ** Statements on the free store *)

Section Store.
Context {E : Type} (eng : Engine E).

(** A method called through a pointer runs on the object it refers to;
    the use count is not touched. *)
Lemma deref_run {A} (method : M (sqlitepp.Statement.t * World E) A)
    (μ : sqlitepp.Memory E) (a : sqlitepp.addr) (c : sqlitepp.Cell)
    (r : outcome A) (s' : sqlitepp.Statement.t) (w' : World E) :
  sqlitepp.heap μ !! a = Some c ->
  method (sqlitepp.object c, sqlitepp.world μ) = (r, (s', w')) ->
  sqlitepp.deref (Some a) method μ
  = (r, sqlitepp.mkMemory w'
          (<[a := sqlitepp.mkCell s' (sqlitepp.use_count c)]> (sqlitepp.heap μ))
          (sqlitepp.brk μ)).
Proof.
  intros Hcell Hrun. unfold sqlitepp.deref. rewrite Hcell, Hrun. reflexivity.
Qed.

(** A method that leaves its object as it was leaves the free store as it
    was. *)
Lemma deref_const {A} (method : M (sqlitepp.Statement.t * World E) A)
    (μ : sqlitepp.Memory E) (a : sqlitepp.addr) (c : sqlitepp.Cell)
    (r : outcome A) (w' : World E) :
  sqlitepp.heap μ !! a = Some c ->
  method (sqlitepp.object c, sqlitepp.world μ) = (r, (sqlitepp.object c, w')) ->
  sqlitepp.deref (Some a) method μ = (r, sqlitepp.set_world w' μ).
Proof.
  intros Hcell Hrun. rewrite (deref_run _ _ _ _ _ _ _ Hcell Hrun).
  unfold sqlitepp.set_world. f_equal. f_equal.
  destruct c as [obj n]. apply insert_id. exact Hcell.
Qed.

Lemma set_world_same (μ : sqlitepp.Memory E) :
  sqlitepp.set_world (sqlitepp.world μ) μ = μ.
Proof. destruct μ. reflexivity. Qed.

(** requireCanRead, by the flag. *)
Lemma requireCanRead_cases (s : sqlitepp.Statement.t) (w : World E) :
  sqlitepp.Statement.requireCanRead (s, w)
  = if sqlitepp.Statement.m_canRead s then (Return tt, (s, w))
    else (Throw logic_error, (s, w)).
Proof.
  unfold sqlitepp.Statement.requireCanRead. run.
  destruct (sqlitepp.Statement.m_canRead s); reflexivity.
Qed.

Lemma legacy_requireCanRead_cases (s : legacy.Statement.t) (w : World E) :
  legacy.Statement.requireCanRead (s, w)
  = if legacy.Statement.m_canRead s then (Return tt, (s, w))
    else (Throw logic_error, (s, w)).
Proof.
  unfold legacy.Statement.requireCanRead. run.
  destruct (legacy.Statement.m_canRead s); reflexivity.
Qed.

(** The two guards of every read of a ResultSet: they pass on an open
    Statement that has a row; on an open Statement without a row the
    second throws std::logic_error; on a Statement that is not open the
    first reads the dangling [m_name]. *)
Lemma guards_pass {A} (k : M (sqlitepp.Memory E) A)
    (μ : sqlitepp.Memory E) (a : sqlitepp.addr) (c : sqlitepp.Cell) :
  sqlitepp.heap μ !! a = Some c ->
  isOpen (sqlitepp.object c) = true ->
  sqlitepp.Statement.m_canRead (sqlitepp.object c) = true ->
  (sqlitepp.deref (Some a) requireOpen ;;
   sqlitepp.deref (Some a) sqlitepp.Statement.requireCanRead ;; k) μ = k μ.
Proof.
  intros Hcell Hopen Hread.
  rewrite (bind_Return _ _ μ tt μ).
  2:{ rewrite (deref_const _ _ _ _ _ _ Hcell (requireOpen_open _ _ Hopen)).
      rewrite set_world_same. reflexivity. }
  rewrite (bind_Return _ _ μ tt μ); [reflexivity|].
  erewrite deref_const; [|exact Hcell|].
  2:{ rewrite requireCanRead_cases, Hread. reflexivity. }
  rewrite set_world_same. reflexivity.
Qed.

Lemma guards_closed {A} (k : M (sqlitepp.Memory E) A)
    (μ : sqlitepp.Memory E) (a : sqlitepp.addr) (c : sqlitepp.Cell) :
  sqlitepp.heap μ !! a = Some c ->
  isOpen (sqlitepp.object c) = false ->
  (sqlitepp.deref (Some a) requireOpen ;;
   sqlitepp.deref (Some a) sqlitepp.Statement.requireCanRead ;; k) μ
  = (Undefined, μ).
Proof.
  intros Hcell Hopen.
  rewrite (bind_Undefined _ _ μ μ); [reflexivity|].
  rewrite (deref_const _ _ _ _ _ _ Hcell (requireOpen_closed _ _ Hopen)).
  rewrite set_world_same. reflexivity.
Qed.

Lemma guards_no_row {A} (k : M (sqlitepp.Memory E) A)
    (μ : sqlitepp.Memory E) (a : sqlitepp.addr) (c : sqlitepp.Cell) :
  sqlitepp.heap μ !! a = Some c ->
  isOpen (sqlitepp.object c) = true ->
  sqlitepp.Statement.m_canRead (sqlitepp.object c) = false ->
  (sqlitepp.deref (Some a) requireOpen ;;
   sqlitepp.deref (Some a) sqlitepp.Statement.requireCanRead ;; k) μ
  = (Throw logic_error, μ).
Proof.
  intros Hcell Hopen Hread.
  rewrite (bind_Return _ _ μ tt μ).
  2:{ rewrite (deref_const _ _ _ _ _ _ Hcell (requireOpen_open _ _ Hopen)).
      rewrite set_world_same. reflexivity. }
  rewrite (bind_Throw _ _ μ logic_error μ); [reflexivity|].
  erewrite deref_const; [|exact Hcell|].
  2:{ rewrite requireCanRead_cases, Hread. reflexivity. }
  rewrite set_world_same. reflexivity.
Qed.

(** Reading the handle through the pointer. *)
Lemma deref_handle (μ : sqlitepp.Memory E) (a : sqlitepp.addr) (c : sqlitepp.Cell) :
  sqlitepp.heap μ !! a = Some c ->
  sqlitepp.deref (Some a) (gets (fun s => sqlitepp.Statement.m_handle (fst s))) μ
  = (Return (sqlitepp.Statement.m_handle (sqlitepp.object c)), μ).
Proof.
  intros Hcell. erewrite deref_const; [|exact Hcell|reflexivity].
  rewrite set_world_same. reflexivity.
Qed.

End Store.

(** ** Reading the current row *)

Section Reads.
Context {E : Type} (eng : Engine E).

Ltac read_row Hcell Hopen Hread Hengine :=
  cbn [sqlitepp.ResultSet.m_statement];
  rewrite (guards_pass _ _ _ _ Hcell Hopen Hread);
  rewrite (bind_Return _ _ _ _ _ (deref_handle _ _ _ Hcell));
  run; answer Hengine; reflexivity.

(** sqlitepp.cc: on an open Statement that has a row, each read is one
    call to the engine. *)
Lemma readInt_row (μ : sqlitepp.Memory E) (a : sqlitepp.addr) (c : sqlitepp.Cell)
    (column v : Z) (e' : E) :
  let h := sqlitepp.Statement.m_handle (sqlitepp.object c) in
  sqlitepp.heap μ !! a = Some c ->
  isOpen (sqlitepp.object c) = true ->
  sqlitepp.Statement.m_canRead (sqlitepp.object c) = true ->
  eng_column_int eng h column (engine (sqlitepp.world μ)) = (v, e') ->
  sqlitepp.ResultSet.readInt eng (sqlitepp.ResultSet.mk (Some a)) column μ
  = (Return v,
     sqlitepp.set_world (called (sqlitepp.world μ) (call_column_int h column) e') μ).
Proof.
  intros h Hcell Hopen Hread Hengine; subst h. unfold sqlitepp.ResultSet.readInt.
  read_row Hcell Hopen Hread Hengine.
Qed.

Lemma readDouble_row (μ : sqlitepp.Memory E) (a : sqlitepp.addr) (c : sqlitepp.Cell)
    (column : Z) (v : double) (e' : E) :
  let h := sqlitepp.Statement.m_handle (sqlitepp.object c) in
  sqlitepp.heap μ !! a = Some c ->
  isOpen (sqlitepp.object c) = true ->
  sqlitepp.Statement.m_canRead (sqlitepp.object c) = true ->
  eng_column_double eng h column (engine (sqlitepp.world μ)) = (v, e') ->
  sqlitepp.ResultSet.readDouble eng (sqlitepp.ResultSet.mk (Some a)) column μ
  = (Return v,
     sqlitepp.set_world (called (sqlitepp.world μ) (call_column_double h column) e') μ).
Proof.
  intros h Hcell Hopen Hread Hengine; subst h. unfold sqlitepp.ResultSet.readDouble.
  read_row Hcell Hopen Hread Hengine.
Qed.

Lemma columnCount_row (μ : sqlitepp.Memory E) (a : sqlitepp.addr) (c : sqlitepp.Cell)
    (n : Z) (e' : E) :
  let h := sqlitepp.Statement.m_handle (sqlitepp.object c) in
  sqlitepp.heap μ !! a = Some c ->
  isOpen (sqlitepp.object c) = true ->
  sqlitepp.Statement.m_canRead (sqlitepp.object c) = true ->
  eng_data_count eng h (engine (sqlitepp.world μ)) = (n, e') ->
  sqlitepp.ResultSet.columnCount eng (sqlitepp.ResultSet.mk (Some a)) μ
  = (Return n,
     sqlitepp.set_world (called (sqlitepp.world μ) (call_data_count h) e') μ).
Proof.
  intros h Hcell Hopen Hread Hengine; subst h. unfold sqlitepp.ResultSet.columnCount.
  read_row Hcell Hopen Hread Hengine.
Qed.

(** readString builds a std::string from the pointer that
    sqlite3_column_text answers with: from a C string it returns the
    string, from the null pointer the construction has no meaning. *)
Lemma readString_row (μ : sqlitepp.Memory E) (a : sqlitepp.addr) (c : sqlitepp.Cell)
    (column : Z) (text : option string) (e' : E) :
  let h := sqlitepp.Statement.m_handle (sqlitepp.object c) in
  sqlitepp.heap μ !! a = Some c ->
  isOpen (sqlitepp.object c) = true ->
  sqlitepp.Statement.m_canRead (sqlitepp.object c) = true ->
  eng_column_text eng h column (engine (sqlitepp.world μ)) = (text, e') ->
  sqlitepp.ResultSet.readString eng (sqlitepp.ResultSet.mk (Some a)) column μ
  = (match text with Some t => Return t | None => Undefined end,
     sqlitepp.set_world (called (sqlitepp.world μ) (call_column_text h column) e') μ).
Proof.
  intros h Hcell Hopen Hread Hengine; subst h. unfold sqlitepp.ResultSet.readString.
  cbn [sqlitepp.ResultSet.m_statement].
  rewrite (guards_pass _ _ _ _ Hcell Hopen Hread).
  rewrite (bind_Return _ _ _ _ _ (deref_handle _ _ _ Hcell)).
  run. answer Hengine. destruct text; reflexivity.
Qed.

(** sqlitepp.cpp: the reads of the Statement itself. *)
Lemma legacy_guards_pass {A} (k : M (legacy.Statement.t * World E) A)
    (s : legacy.Statement.t) (w : World E) :
  isOpen s = true -> legacy.Statement.m_canRead s = true ->
  (requireOpen ;; legacy.Statement.requireCanRead ;; k) (s, w) = k (s, w).
Proof.
  intros Hopen Hread.
  rewrite (bind_Return _ _ _ _ _ (requireOpen_open s w Hopen)).
  rewrite (bind_Return _ _ (s, w) tt (s, w)); [reflexivity|].
  rewrite legacy_requireCanRead_cases, Hread. reflexivity.
Qed.

Lemma legacy_guards_no_row {A} (k : M (legacy.Statement.t * World E) A)
    (s : legacy.Statement.t) (w : World E) :
  isOpen s = true -> legacy.Statement.m_canRead s = false ->
  (requireOpen ;; legacy.Statement.requireCanRead ;; k) (s, w)
  = (Throw logic_error, (s, w)).
Proof.
  intros Hopen Hread.
  rewrite (bind_Return _ _ _ _ _ (requireOpen_open s w Hopen)).
  rewrite (bind_Throw _ _ (s, w) logic_error (s, w)); [reflexivity|].
  rewrite legacy_requireCanRead_cases, Hread. reflexivity.
Qed.

Lemma legacy_guards_closed {A} (k : M (legacy.Statement.t * World E) A)
    (s : legacy.Statement.t) (w : World E) :
  isOpen s = false ->
  (requireOpen ;; legacy.Statement.requireCanRead ;; k) (s, w)
  = (Undefined, (s, w)).
Proof.
  intros Hopen.
  rewrite (bind_Undefined _ _ _ _ (requireOpen_closed s w Hopen)). reflexivity.
Qed.

Lemma legacy_readInt_row (s : legacy.Statement.t) (w : World E)
    (column v : Z) (e' : E) :
  isOpen s = true -> legacy.Statement.m_canRead s = true ->
  eng_column_int eng (legacy.Statement.m_handle s) column (engine w) = (v, e') ->
  legacy.Statement.readInt eng column (s, w)
  = (Return v, (s, called w (call_column_int (legacy.Statement.m_handle s) column) e')).
Proof.
  intros Hopen Hread Hengine. unfold legacy.Statement.readInt.
  rewrite (legacy_guards_pass _ _ _ Hopen Hread). run. answer Hengine. reflexivity.
Qed.

Lemma legacy_readDouble_row (s : legacy.Statement.t) (w : World E)
    (column : Z) (v : double) (e' : E) :
  isOpen s = true -> legacy.Statement.m_canRead s = true ->
  eng_column_double eng (legacy.Statement.m_handle s) column (engine w) = (v, e') ->
  legacy.Statement.readDouble eng column (s, w)
  = (Return v,
     (s, called w (call_column_double (legacy.Statement.m_handle s) column) e')).
Proof.
  intros Hopen Hread Hengine. unfold legacy.Statement.readDouble.
  rewrite (legacy_guards_pass _ _ _ Hopen Hread). run. answer Hengine. reflexivity.
Qed.

Lemma legacy_readString_row (s : legacy.Statement.t) (w : World E)
    (column : Z) (text : option string) (e' : E) :
  isOpen s = true -> legacy.Statement.m_canRead s = true ->
  eng_column_text eng (legacy.Statement.m_handle s) column (engine w) = (text, e') ->
  legacy.Statement.readString eng column (s, w)
  = (match text with Some t => Return t | None => Undefined end,
     (s, called w (call_column_text (legacy.Statement.m_handle s) column) e')).
Proof.
  intros Hopen Hread Hengine. unfold legacy.Statement.readString.
  rewrite (legacy_guards_pass _ _ _ Hopen Hread). run. answer Hengine.
  destruct text; reflexivity.
Qed.

End Reads.

(** C10.  On an open Statement that has a row, readString hands the
    pointer that sqlite3_column_text answers with to the std::string
    constructor unchecked: when the engine answers with the null pointer
    (as it does for a column that holds SQL NULL) readString returns no
    string, the call has no defined outcome; when the engine answers with
    a C string, readString returns it.  readInt and readDouble return the
    engine's value whatever it is.  This holds for the reads of ResultSet
    in sqlitepp.cc and of Statement in sqlitepp.cpp. *)
Theorem readString_null {E} (eng : Engine E)
    (μ : sqlitepp.Memory E) (a : sqlitepp.addr) (c : sqlitepp.Cell)
    (l : legacy.Statement.t) (w : World E) (column : Z) :
  (sqlitepp.heap μ !! a = Some c ->
   isOpen (sqlitepp.object c) = true ->
   sqlitepp.Statement.m_canRead (sqlitepp.object c) = true ->
   let h := sqlitepp.Statement.m_handle (sqlitepp.object c) in
   let resultSet := sqlitepp.ResultSet.mk (Some a) in
   (forall e', eng_column_text eng h column (engine (sqlitepp.world μ)) = (None, e') ->
      sqlitepp.ResultSet.readString eng resultSet column μ
      = (Undefined,
         sqlitepp.set_world
           (called (sqlitepp.world μ) (call_column_text h column) e') μ))
   /\ (forall t e',
      eng_column_text eng h column (engine (sqlitepp.world μ)) = (Some t, e') ->
      sqlitepp.ResultSet.readString eng resultSet column μ
      = (Return t,
         sqlitepp.set_world
           (called (sqlitepp.world μ) (call_column_text h column) e') μ))
   /\ (forall v e',
      eng_column_int eng h column (engine (sqlitepp.world μ)) = (v, e') ->
      sqlitepp.ResultSet.readInt eng resultSet column μ
      = (Return v,
         sqlitepp.set_world
           (called (sqlitepp.world μ) (call_column_int h column) e') μ))
   /\ (forall v e',
      eng_column_double eng h column (engine (sqlitepp.world μ)) = (v, e') ->
      sqlitepp.ResultSet.readDouble eng resultSet column μ
      = (Return v,
         sqlitepp.set_world
           (called (sqlitepp.world μ) (call_column_double h column) e') μ)))
  /\
  (isOpen l = true ->
   legacy.Statement.m_canRead l = true ->
   let h := legacy.Statement.m_handle l in
   (forall e', eng_column_text eng h column (engine w) = (None, e') ->
      legacy.Statement.readString eng column (l, w)
      = (Undefined, (l, called w (call_column_text h column) e')))
   /\ (forall t e', eng_column_text eng h column (engine w) = (Some t, e') ->
      legacy.Statement.readString eng column (l, w)
      = (Return t, (l, called w (call_column_text h column) e')))
   /\ (forall v e', eng_column_int eng h column (engine w) = (v, e') ->
      legacy.Statement.readInt eng column (l, w)
      = (Return v, (l, called w (call_column_int h column) e')))
   /\ (forall v e', eng_column_double eng h column (engine w) = (v, e') ->
      legacy.Statement.readDouble eng column (l, w)
      = (Return v, (l, called w (call_column_double h column) e')))).
Proof.
  split.
  - intros Hcell Hopen Hread h resultSet. subst h resultSet.
    refine (conj _ (conj _ (conj _ _))).
    + intros e' Hengine.
      exact (readString_row eng μ a c column None e' Hcell Hopen Hread Hengine).
    + intros t e' Hengine.
      exact (readString_row eng μ a c column (Some t) e' Hcell Hopen Hread Hengine).
    + intros v e' Hengine.
      exact (readInt_row eng μ a c column v e' Hcell Hopen Hread Hengine).
    + intros v e' Hengine.
      exact (readDouble_row eng μ a c column v e' Hcell Hopen Hread Hengine).
  - intros Hopen Hread h. subst h.
    refine (conj _ (conj _ (conj _ _))).
    + intros e' Hengine.
      exact (legacy_readString_row eng l w column None e' Hopen Hread Hengine).
    + intros t e' Hengine.
      exact (legacy_readString_row eng l w column (Some t) e' Hopen Hread Hengine).
    + intros v e' Hengine.
      exact (legacy_readInt_row eng l w column v e' Hopen Hread Hengine).
    + intros v e' Hengine.
      exact (legacy_readDouble_row eng l w column v e' Hopen Hread Hengine).
Qed.

(** On the scripted engine, whose sqlite3_column_text answers 0 with the
    null pointer: readString has no outcome, readInt returns 0. *)
Lemma readString_null_witness :
  sqlitepp.ResultSet.readString script.eng (sqlitepp.ResultSet.mk (Some 0%nat)) 1
    (script.shared_row [0])
  = (Undefined,
     sqlitepp.set_world (mkWorld [] [call_column_text 64%N 1] "")
       (script.shared_row [0]))
  /\ sqlitepp.ResultSet.readInt script.eng (sqlitepp.ResultSet.mk (Some 0%nat)) 1
    (script.shared_row [0])
  = (Return 0,
     sqlitepp.set_world (mkWorld [] [call_column_int 64%N 1] "")
       (script.shared_row [0]))
  /\ legacy.Statement.readString script.eng 1 (script.old_stmt_row, script.fresh [0])
  = (Undefined, (script.old_stmt_row, mkWorld [] [call_column_text 64%N 1] "")).
Proof.
  refine (conj _ (conj _ _)).
  - destruct (readString_null script.eng (script.shared_row [0]) 0%nat
                (sqlitepp.mkCell
                   (sqlitepp.Statement.mk (mkOpenable true "Statement") 64%N true
                      (Some 0%nat)) 2)
                script.old_stmt_row (script.fresh [0]) 1) as [Hnew _].
    apply (Hnew eq_refl eq_refl eq_refl). reflexivity.
  - destruct (readString_null script.eng (script.shared_row [0]) 0%nat
                (sqlitepp.mkCell
                   (sqlitepp.Statement.mk (mkOpenable true "Statement") 64%N true
                      (Some 0%nat)) 2)
                script.old_stmt_row (script.fresh [0]) 1) as [Hnew _].
    apply (Hnew eq_refl eq_refl eq_refl). reflexivity.
  - destruct (readString_null script.eng (script.shared_row [0]) 0%nat
                (sqlitepp.mkCell
                   (sqlitepp.Statement.mk (mkOpenable true "Statement") 64%N true
                      (Some 0%nat)) 2)
                script.old_stmt_row (script.fresh [0]) 1) as [_ Hold].
    apply (Hold eq_refl eq_refl). reflexivity.
Defined.

(** ** Database::prepare and the canRead flag *)

Section Prepare.
Context {E : Type} (eng : Engine E).

(** ResultSet::canRead hands out the flag of the Statement, open or not,
    and calls nothing. *)
Lemma canRead_flag (μ : sqlitepp.Memory E) (a : sqlitepp.addr) (c : sqlitepp.Cell) :
  sqlitepp.heap μ !! a = Some c ->
  sqlitepp.ResultSet.canRead (sqlitepp.ResultSet.mk (Some a)) μ
  = (Return (sqlitepp.Statement.m_canRead (sqlitepp.object c)), μ).
Proof.
  intros Hcell. unfold sqlitepp.ResultSet.canRead.
  cbn [sqlitepp.ResultSet.m_statement].
  erewrite deref_const; [|exact Hcell|reflexivity].
  rewrite set_world_same. reflexivity.
Qed.

(** sqlitepp.cc: when the Database is open and the engine compiles the
    text, prepare places a new Statement on the free store: open, without
    a row, owned by the one shared_ptr that is returned, and holding a
    weak_ptr to itself. *)
Lemma prepare_fresh (d : sqlitepp.Database.t) (μ : sqlitepp.Memory E)
    (sql : string) (handle : ptr) (e' : E) :
  let nByte := int_of_size sql in
  isOpen d = true ->
  eng_prepare_v2 eng (sqlitepp.Database.m_handle d) sql nByte
    (engine (sqlitepp.world μ)) = ((handle, SQLITE_OK), e') ->
  handle <> NULL ->
  sqlitepp.Database.prepare eng sql (d, μ)
  = (Return (Some (sqlitepp.brk μ)),
     (d, sqlitepp.mkMemory
           (called (sqlitepp.world μ)
              (call_prepare_v2 (sqlitepp.Database.m_handle d) sql nByte) e')
           (<[sqlitepp.brk μ :=
                sqlitepp.mkCell
                  (sqlitepp.Statement.mk (mkOpenable true "Statement") handle false
                     (Some (sqlitepp.brk μ))) 1]> (sqlitepp.heap μ))
           (S (sqlitepp.brk μ)))).
Proof.
  intros nByte Hopen Hengine Hnull. subst nByte.
  unfold sqlitepp.Database.prepare.
  rewrite (bind_Return _ _ _ _ _ (requireOpen_open d μ Hopen)).
  run. answer Hengine. repeat (case_decide; try congruence).
  unfold sqlitepp.make_shared, sqlitepp.deref. cbn.
  rewrite lookup_insert_eq. cbn. rewrite insert_insert_eq. reflexivity.
Qed.

(** sqlitepp.cpp: the constructor of Statement under the same
    conditions. *)
Lemma legacy_new_fresh (d : legacy.Database.t) (w : World E)
    (sql : string) (handle : ptr) (e' : E) :
  isOpen d = true ->
  eng_prepare_v2 eng (legacy.Database.m_handle d) sql (-1) (engine w)
  = ((handle, SQLITE_OK), e') ->
  handle <> NULL ->
  legacy.Statement.new eng d sql w
  = (Return (legacy.Statement.mk (mkOpenable true "Statement") handle false),
     called w (call_prepare_v2 (legacy.Database.m_handle d) sql (-1)) e').
Proof.
  intros Hopen Hengine Hnull. unfold legacy.Statement.new.
  rewrite (bind_Return _ _ w tt w).
  2:{ unfold with_object. rewrite (requireOpen_open d w Hopen). reflexivity. }
  run. answer Hengine. repeat (case_decide; try congruence).
Qed.

(** sqlitepp.cc: on an open Statement without a row, the reads throw
    before any call. *)
Lemma reads_no_row (μ : sqlitepp.Memory E) (a : sqlitepp.addr) (c : sqlitepp.Cell)
    (column : Z) :
  let resultSet := sqlitepp.ResultSet.mk (Some a) in
  sqlitepp.heap μ !! a = Some c ->
  isOpen (sqlitepp.object c) = true ->
  sqlitepp.Statement.m_canRead (sqlitepp.object c) = false ->
  sqlitepp.ResultSet.readInt eng resultSet column μ = (Throw logic_error, μ)
  /\ sqlitepp.ResultSet.readDouble eng resultSet column μ = (Throw logic_error, μ)
  /\ sqlitepp.ResultSet.readString eng resultSet column μ = (Throw logic_error, μ)
  /\ sqlitepp.ResultSet.columnCount eng resultSet μ = (Throw logic_error, μ).
Proof.
  intros resultSet Hcell Hopen Hread. subst resultSet.
  refine (conj _ (conj _ (conj _ _))).
  - exact (guards_no_row _ μ a c Hcell Hopen Hread).
  - exact (guards_no_row _ μ a c Hcell Hopen Hread).
  - exact (guards_no_row _ μ a c Hcell Hopen Hread).
  - exact (guards_no_row _ μ a c Hcell Hopen Hread).
Qed.

(** sqlitepp.cc: on a Statement that is not open, the reads stop in
    requireOpen, with or without a row. *)
Lemma reads_closed (μ : sqlitepp.Memory E) (a : sqlitepp.addr) (c : sqlitepp.Cell)
    (column : Z) :
  let resultSet := sqlitepp.ResultSet.mk (Some a) in
  sqlitepp.heap μ !! a = Some c ->
  isOpen (sqlitepp.object c) = false ->
  sqlitepp.ResultSet.readInt eng resultSet column μ = (Undefined, μ)
  /\ sqlitepp.ResultSet.readDouble eng resultSet column μ = (Undefined, μ)
  /\ sqlitepp.ResultSet.readString eng resultSet column μ = (Undefined, μ)
  /\ sqlitepp.ResultSet.columnCount eng resultSet μ = (Undefined, μ).
Proof.
  intros resultSet Hcell Hopen. subst resultSet.
  refine (conj _ (conj _ (conj _ _))).
  - exact (guards_closed _ μ a c Hcell Hopen).
  - exact (guards_closed _ μ a c Hcell Hopen).
  - exact (guards_closed _ μ a c Hcell Hopen).
  - exact (guards_closed _ μ a c Hcell Hopen).
Qed.

(** sqlitepp.cpp: the same on the Statement. *)
Lemma legacy_reads_no_row (s : legacy.Statement.t) (w : World E) (column : Z) :
  isOpen s = true ->
  legacy.Statement.m_canRead s = false ->
  legacy.Statement.readInt eng column (s, w) = (Throw logic_error, (s, w))
  /\ legacy.Statement.readDouble eng column (s, w) = (Throw logic_error, (s, w))
  /\ legacy.Statement.readString eng column (s, w) = (Throw logic_error, (s, w))
  /\ legacy.Statement.columnCount eng (s, w) = (Throw logic_error, (s, w)).
Proof.
  intros Hopen Hread.
  refine (conj _ (conj _ (conj _ _))).
  - exact (legacy_guards_no_row _ s w Hopen Hread).
  - exact (legacy_guards_no_row _ s w Hopen Hread).
  - exact (legacy_guards_no_row _ s w Hopen Hread).
  - exact (legacy_guards_no_row _ s w Hopen Hread).
Qed.

Lemma legacy_reads_closed (s : legacy.Statement.t) (w : World E) (column : Z) :
  isOpen s = false ->
  legacy.Statement.readInt eng column (s, w) = (Undefined, (s, w))
  /\ legacy.Statement.readDouble eng column (s, w) = (Undefined, (s, w))
  /\ legacy.Statement.readString eng column (s, w) = (Undefined, (s, w))
  /\ legacy.Statement.columnCount eng (s, w) = (Undefined, (s, w)).
Proof.
  intros Hopen.
  refine (conj _ (conj _ (conj _ _))).
  - exact (legacy_guards_closed _ s w Hopen).
  - exact (legacy_guards_closed _ s w Hopen).
  - exact (legacy_guards_closed _ s w Hopen).
  - exact (legacy_guards_closed _ s w Hopen).
Qed.

End Prepare.

(** C9.  A Statement that Database::prepare returns is open and its
    canRead is false; a step() that finds a row makes canRead true, a
    step() that finds the end of the rows makes it false; and on an open
    Statement readInt, readDouble, readString and columnCount called
    while canRead is false throw std::logic_error without any call to
    the engine.  On a Statement that is not open the same reads, called
    while canRead is false, do not throw: requireOpen, which runs before
    the test of canRead, builds its message from the dangling [m_name],
    and the call has no defined outcome.  This holds for sqlitepp.cc,
    where the flag is read and the row is read through a ResultSet, and
    for sqlitepp.cpp, where the Statement does both. *)
Theorem canRead_protocol {E} (eng : Engine E) :
  (* sqlitepp.cc *)
  (forall (d : sqlitepp.Database.t) (μ : sqlitepp.Memory E) sql handle e',
     isOpen d = true ->
     eng_prepare_v2 eng (sqlitepp.Database.m_handle d) sql
       (int_of_size sql) (engine (sqlitepp.world μ))
     = ((handle, SQLITE_OK), e') ->
     handle <> NULL ->
     exists this μ' c,
       sqlitepp.Database.prepare eng sql (d, μ) = (Return (Some this), (d, μ'))
       /\ sqlitepp.heap μ' !! this = Some c
       /\ isOpen (sqlitepp.object c) = true
       /\ sqlitepp.ResultSet.canRead (sqlitepp.ResultSet.mk (Some this)) μ'
          = (Return false, μ'))
  /\ (forall (s : sqlitepp.Statement.t) (w : World E) result e',
     isOpen s = true ->
     eng_step eng (sqlitepp.Statement.m_handle s) (engine w) = (result, e') ->
     (result = SQLITE_ROW ->
        exists s' w', sqlitepp.Statement.step eng (s, w) = (Return true, (s', w'))
                      /\ sqlitepp.Statement.m_canRead s' = true)
     /\ (result = SQLITE_DONE ->
        exists s' w', sqlitepp.Statement.step eng (s, w) = (Return false, (s', w'))
                      /\ sqlitepp.Statement.m_canRead s' = false))
  /\ (forall (μ : sqlitepp.Memory E) a c column,
     sqlitepp.heap μ !! a = Some c ->
     sqlitepp.ResultSet.canRead (sqlitepp.ResultSet.mk (Some a)) μ
     = (Return false, μ) ->
     let resultSet := sqlitepp.ResultSet.mk (Some a) in
     (isOpen (sqlitepp.object c) = true ->
        sqlitepp.ResultSet.readInt eng resultSet column μ = (Throw logic_error, μ)
        /\ sqlitepp.ResultSet.readDouble eng resultSet column μ
           = (Throw logic_error, μ)
        /\ sqlitepp.ResultSet.readString eng resultSet column μ
           = (Throw logic_error, μ)
        /\ sqlitepp.ResultSet.columnCount eng resultSet μ = (Throw logic_error, μ))
     /\ (isOpen (sqlitepp.object c) = false ->
        fst (sqlitepp.ResultSet.readInt eng resultSet column μ) = Undefined
        /\ fst (sqlitepp.ResultSet.readDouble eng resultSet column μ) = Undefined
        /\ fst (sqlitepp.ResultSet.readString eng resultSet column μ) = Undefined
        /\ fst (sqlitepp.ResultSet.columnCount eng resultSet μ) = Undefined))
  (* sqlitepp.cpp *)
  /\ (forall (d : legacy.Database.t) (w : World E) sql handle e',
     isOpen d = true ->
     eng_prepare_v2 eng (legacy.Database.m_handle d) sql (-1) (engine w)
     = ((handle, SQLITE_OK), e') ->
     handle <> NULL ->
     exists s w',
       legacy.Database_prepare eng sql (d, w) = (Return s, (d, w'))
       /\ isOpen s = true
       /\ legacy.Statement.canRead (s, w') = (Return false, (s, w')))
  /\ (forall (s : legacy.Statement.t) (w : World E) result e',
     isOpen s = true ->
     eng_step eng (legacy.Statement.m_handle s) (engine w) = (result, e') ->
     (result = SQLITE_ROW ->
        exists s' w', legacy.Statement.step eng (s, w) = (Return true, (s', w'))
                      /\ legacy.Statement.canRead (s', w') = (Return true, (s', w')))
     /\ (result = SQLITE_DONE ->
        exists s' w', legacy.Statement.step eng (s, w) = (Return false, (s', w'))
                      /\ legacy.Statement.canRead (s', w') = (Return false, (s', w'))))
  /\ (forall (s : legacy.Statement.t) (w : World E) column,
     legacy.Statement.canRead (s, w) = (Return false, (s, w)) ->
     (isOpen s = true ->
        legacy.Statement.readInt eng column (s, w) = (Throw logic_error, (s, w))
        /\ legacy.Statement.readDouble eng column (s, w) = (Throw logic_error, (s, w))
        /\ legacy.Statement.readString eng column (s, w) = (Throw logic_error, (s, w))
        /\ legacy.Statement.columnCount eng (s, w) = (Throw logic_error, (s, w)))
     /\ (isOpen s = false ->
        fst (legacy.Statement.readInt eng column (s, w)) = Undefined
        /\ fst (legacy.Statement.readDouble eng column (s, w)) = Undefined
        /\ fst (legacy.Statement.readString eng column (s, w)) = Undefined
        /\ fst (legacy.Statement.columnCount eng (s, w)) = Undefined)).
Proof.
  refine (conj _ (conj _ (conj _ (conj _ (conj _ _))))).
  - intros d μ sql handle e' Hopen Hengine Hnull.
    do 3 eexists. split; [exact (prepare_fresh eng d μ sql handle e' Hopen Hengine Hnull)|].
    cbn [sqlitepp.heap]. split; [apply lookup_insert_eq|]. split; [reflexivity|].
    erewrite canRead_flag by (cbn [sqlitepp.heap]; apply lookup_insert_eq).
    reflexivity.
  - intros s w result e' Hopen Hengine.
    destruct (step_cases eng s w result e' Hengine) as (Hrow & Hdone & _).
    split; intros Hres; do 2 eexists.
    + split; [exact (Hrow Hopen Hres)|reflexivity].
    + split; [exact (Hdone Hopen Hres)|reflexivity].
  - intros μ a c column Hcell Hflag resultSet. split; intros Hopen.
    + apply (reads_no_row eng μ a c column Hcell Hopen).
      rewrite (canRead_flag μ a c Hcell) in Hflag. congruence.
    + subst resultSet.
      destruct (reads_closed eng μ a c column Hcell Hopen) as (H1 & H2 & H3 & H4).
      rewrite H1, H2, H3, H4. repeat split.
  - intros d w sql handle e' Hopen Hengine Hnull.
    do 2 eexists. split.
    { unfold legacy.Database_prepare. run.
      rewrite (legacy_new_fresh eng d w sql handle e' Hopen Hengine Hnull).
      reflexivity. }
    split; reflexivity.
  - intros s w result e' Hopen Hengine.
    destruct (legacy_step_cases eng s w result e' Hengine) as (Hrow & Hdone & _).
    split; intros Hres; do 2 eexists.
    + split; [exact (Hrow Hopen Hres)|reflexivity].
    + split; [exact (Hdone Hopen Hres)|reflexivity].
  - intros s w column Hflag. split; intros Hopen.
    + apply (legacy_reads_no_row eng s w column Hopen).
      unfold legacy.Statement.canRead, gets in Hflag. cbn in Hflag. congruence.
    + destruct (legacy_reads_closed eng s w column Hopen) as (H1 & H2 & H3 & H4).
      rewrite H1, H2, H3, H4. repeat split.
Qed.

(** On the scripted engine: prepare on an open Database yields a Statement
    at address 0 that is open and has no row, and reading from it throws;
    once that Statement is closed, still without a row, the same read has
    no defined outcome, in sqlitepp.cc and in sqlitepp.cpp. *)
Lemma canRead_protocol_witness :
  (exists this μ' c,
     sqlitepp.Database.prepare script.eng "SELECT id, value FROM test;"
       (script.db_open, script.store [64; 0])
     = (Return (Some this), (script.db_open, μ'))
     /\ sqlitepp.heap μ' !! this = Some c
     /\ isOpen (sqlitepp.object c) = true
     /\ sqlitepp.ResultSet.canRead (sqlitepp.ResultSet.mk (Some this)) μ'
        = (Return false, μ'))
  /\ sqlitepp.ResultSet.readInt script.eng (sqlitepp.ResultSet.mk (Some 0%nat)) 0
       (script.prepared [])
     = (Throw logic_error, script.prepared [])
  /\ fst (sqlitepp.ResultSet.readInt script.eng (sqlitepp.ResultSet.mk (Some 0%nat)) 0
            (script.prepared_closed [])) = Undefined
  /\ fst (legacy.Statement.readInt script.eng 0
            (opened false script.old_stmt, script.fresh [])) = Undefined.
Proof.
  refine (conj _ (conj _ (conj _ _))).
  - apply (canRead_protocol script.eng) with (handle := 64%N) (e' := []);
      [reflexivity|reflexivity|discriminate].
  - destruct (canRead_protocol script.eng) as (_ & _ & Hreads & _).
    destruct (Hreads (script.prepared []) 0%nat _ 0 eq_refl eq_refl) as [Hopen _].
    apply (Hopen eq_refl).
  - destruct (canRead_protocol script.eng) as (_ & _ & Hreads & _).
    destruct (Hreads (script.prepared_closed []) 0%nat _ 0 eq_refl eq_refl)
      as [_ Hclosed].
    apply (Hclosed eq_refl).
  - destruct (canRead_protocol script.eng) as (_ & _ & _ & _ & _ & Hreads).
    destruct (Hreads (opened false script.old_stmt) (script.fresh []) 0)
      as [_ Hclosed]; [reflexivity|].
    apply (Hclosed eq_refl).
Defined.

(** ** Statement::execute, ResultSet::next and shared ownership *)

Section Execute.
Context {E : Type} (eng : Engine E).

(** execute on an open Statement whose step finds a row or the end of the
    rows: the one engine call is that step, the ResultSet refers to the
    Statement at [this], and the Statement has one more owner. *)
Lemma execute_steps_once (μ : sqlitepp.Memory E) (this : sqlitepp.addr)
    (c : sqlitepp.Cell) (result : Z) (e' : E) (b : bool) :
  let h := sqlitepp.Statement.m_handle (sqlitepp.object c) in
  sqlitepp.heap μ !! this = Some c ->
  isOpen (sqlitepp.object c) = true ->
  sqlitepp.Statement.m_instancePointer (sqlitepp.object c) = Some this ->
  eng_step eng h (engine (sqlitepp.world μ)) = (result, e') ->
  (result = SQLITE_ROW /\ b = true) \/ (result = SQLITE_DONE /\ b = false) ->
  sqlitepp.Statement_execute eng this μ
  = (Return (sqlitepp.ResultSet.mk (Some this)),
     sqlitepp.mkMemory
       (called (sqlitepp.world μ) (call_step h) e')
       (<[this := sqlitepp.mkCell
                    (sqlitepp.Statement.set_canRead b (sqlitepp.object c))
                    (S (sqlitepp.use_count c))]> (sqlitepp.heap μ))
       (sqlitepp.brk μ)).
Proof.
  intros h Hcell Hopen Hself Hengine Hresult. subst h.
  destruct (step_cases eng _ _ _ _ Hengine) as (Hrow & Hdone & _).
  assert (Hstep : sqlitepp.Statement.step eng (sqlitepp.object c, sqlitepp.world μ)
                  = (Return b, (sqlitepp.Statement.set_canRead b (sqlitepp.object c),
                                called (sqlitepp.world μ)
                                  (call_step (sqlitepp.Statement.m_handle
                                                (sqlitepp.object c))) e'))).
  { destruct Hresult as [[-> ->]|[-> ->]]; auto. }
  unfold sqlitepp.Statement_execute.
  rewrite (bind_Return _ _ _ _ _ (deref_run _ _ _ _ _ _ _ Hcell Hstep)).
  unfold sqlitepp.deref, sqlitepp.lock, sqlitepp.ResultSet.new. run.
  rewrite lookup_insert_eq. cbn. rewrite Hself. cbn.
  rewrite insert_insert_eq, lookup_insert_eq. cbn.
  rewrite insert_insert_eq. reflexivity.
Qed.

(** execute when the step fails: the DatabaseError of step leaves execute,
    no ResultSet is made and no owner is added. *)
Lemma execute_step_fails (μ : sqlitepp.Memory E) (this : sqlitepp.addr)
    (c : sqlitepp.Cell) (result : Z) (e' : E) :
  let h := sqlitepp.Statement.m_handle (sqlitepp.object c) in
  sqlitepp.heap μ !! this = Some c ->
  isOpen (sqlitepp.object c) = true ->
  eng_step eng h (engine (sqlitepp.world μ)) = (result, e') ->
  result <> SQLITE_ROW -> result <> SQLITE_DONE ->
  sqlitepp.Statement_execute eng this μ
  = (Throw (DatabaseError_code eng result),
     sqlitepp.set_world (called (sqlitepp.world μ) (call_step h) e') μ).
Proof.
  intros h Hcell Hopen Hengine Hrow Hdone. subst h.
  destruct (step_cases eng _ _ _ _ Hengine) as (_ & _ & Herr & _).
  unfold sqlitepp.Statement_execute.
  rewrite (bind_Throw _ _ _ _ _
             (deref_const _ _ _ _ _ _ Hcell (Herr Hopen Hrow Hdone))).
  reflexivity.
Qed.

(** ResultSet::next is Statement::step on the Statement of the
    ResultSet. *)
Lemma next_is_step (resultSet : sqlitepp.ResultSet.t) (μ : sqlitepp.Memory E) :
  sqlitepp.ResultSet.next eng resultSet μ
  = sqlitepp.deref (sqlitepp.ResultSet.m_statement resultSet)
      (sqlitepp.Statement.step eng) μ.
Proof. reflexivity. Qed.

(** The end of one of several shared_ptr: the Statement stays where it is
    and as it is, and the engine is not called. *)
Lemma release_shared (μ : sqlitepp.Memory E) (a : sqlitepp.addr)
    (s : sqlitepp.Statement.t) (n : nat) :
  sqlitepp.heap μ !! a = Some (sqlitepp.mkCell s (S (S n))) ->
  sqlitepp.release eng (Some a) μ
  = (Return tt,
     sqlitepp.mkMemory (sqlitepp.world μ)
       (<[a := sqlitepp.mkCell s (S n)]> (sqlitepp.heap μ)) (sqlitepp.brk μ)).
Proof. intros Hcell. unfold sqlitepp.release. rewrite Hcell. reflexivity. Qed.

(** The end of the last shared_ptr: ~Statement runs (an open Statement is
    finalized) and the object is gone. *)
Lemma release_last (μ : sqlitepp.Memory E) (a : sqlitepp.addr)
    (s : sqlitepp.Statement.t) (result : Z) (e' : E) :
  sqlitepp.heap μ !! a = Some (sqlitepp.mkCell s 1) ->
  eng_finalize eng (sqlitepp.Statement.m_handle s) (engine (sqlitepp.world μ))
  = (result, e') ->
  sqlitepp.release eng (Some a) μ
  = (Return tt,
     sqlitepp.mkMemory
       (if isOpen s
        then called (sqlitepp.world μ)
               (call_finalize (sqlitepp.Statement.m_handle s)) e'
        else sqlitepp.world μ)
       (delete a (sqlitepp.heap μ)) (sqlitepp.brk μ)).
Proof.
  intros Hcell Hengine. unfold sqlitepp.release, sqlitepp.Statement.destructor.
  rewrite Hcell. destruct (isOpen s) eqn:Hopen; run.
  - answer Hopen. answer Hengine. reflexivity.
  - answer Hopen. reflexivity.
Qed.

End Execute.

(** C3.  On an open Statement at address [this] (made by prepare, so that
    its instance pointer refers to itself, and held by the caller):
    execute() makes one call to the engine, the sqlite3_step of one
    step().  When that step finds a row ([b] true) or the end of the rows
    ([b] false), execute() is the step followed by taking a further
    shared_ptr to the same Statement, which the returned ResultSet holds;
    when the step throws, execute() throws the same and makes no
    ResultSet.  ResultSet::next is one Statement::step on that Statement.
    When the caller drops its own shared_ptr after execute(), the
    Statement is neither finalized nor freed: through the ResultSet,
    canRead still answers [b], a row can still be read, and next still
    steps. *)
Theorem execute_shares_statement {E} (eng : Engine E)
    (μ : sqlitepp.Memory E) (this : sqlitepp.addr) (c : sqlitepp.Cell)
    (result : Z) (e' : E) (b : bool) (column : Z) :
  let h := sqlitepp.Statement.m_handle (sqlitepp.object c) in
  let resultSet := sqlitepp.ResultSet.mk (Some this) in
  sqlitepp.heap μ !! this = Some c ->
  isOpen (sqlitepp.object c) = true ->
  sqlitepp.Statement.m_instancePointer (sqlitepp.object c) = Some this ->
  (0 < sqlitepp.use_count c)%nat ->
  eng_step eng h (engine (sqlitepp.world μ)) = (result, e') ->
  (result <> SQLITE_ROW -> result <> SQLITE_DONE ->
   sqlitepp.Statement_execute eng this μ
   = (Throw (DatabaseError_code eng result),
      sqlitepp.set_world (called (sqlitepp.world μ) (call_step h) e') μ))
  /\
  ((result = SQLITE_ROW /\ b = true) \/ (result = SQLITE_DONE /\ b = false) ->
  exists μ1 μ2 μ3,
    sqlitepp.deref (Some this) (sqlitepp.Statement.step eng) μ = (Return b, μ1)
    /\ sqlitepp.lock (Some this) μ1 = (Return (Some this), μ2)
    /\ sqlitepp.Statement_execute eng this μ = (Return resultSet, μ2)
    /\ calls (sqlitepp.world μ2) = calls (sqlitepp.world μ) ++ [call_step h]
    /\ (forall ν, sqlitepp.ResultSet.next eng resultSet ν
                  = sqlitepp.deref (Some this) (sqlitepp.Statement.step eng) ν)
    /\ sqlitepp.release eng (Some this) μ2 = (Return tt, μ3)
    /\ sqlitepp.world μ3 = sqlitepp.world μ2
    /\ sqlitepp.ResultSet.canRead resultSet μ3 = (Return b, μ3)
    /\ (b = true -> forall v e2,
          eng_column_int eng h column (engine (sqlitepp.world μ3)) = (v, e2) ->
          sqlitepp.ResultSet.readInt eng resultSet column μ3
          = (Return v,
             sqlitepp.set_world
               (called (sqlitepp.world μ3) (call_column_int h column) e2) μ3))
    /\ (forall e2,
          eng_step eng h (engine (sqlitepp.world μ3)) = (SQLITE_ROW, e2) ->
          exists μ4, sqlitepp.ResultSet.next eng resultSet μ3 = (Return true, μ4)
                     /\ calls (sqlitepp.world μ4)
                        = calls (sqlitepp.world μ) ++ [call_step h; call_step h])).
Proof.
  intros h resultSet Hcell Hopen Hself Hheld Hengine.
  subst h resultSet. split.
  { intros Hrow Hdone.
    exact (execute_step_fails eng μ this c result e' Hcell Hopen Hengine Hrow Hdone). }
  intros Hresult.
  destruct c as [obj n]. cbn [sqlitepp.object sqlitepp.use_count] in *.
  destruct n as [|n]; [inversion Hheld|].
  assert (Hstep : sqlitepp.Statement.step eng (obj, sqlitepp.world μ)
                  = (Return b, (sqlitepp.Statement.set_canRead b obj,
                                called (sqlitepp.world μ)
                                  (call_step (sqlitepp.Statement.m_handle obj)) e'))).
  { destruct (step_cases eng _ _ _ _ Hengine) as (Hrow & Hdone & _).
    destruct Hresult as [[-> ->]|[-> ->]]; auto. }
  pose (obj' := sqlitepp.Statement.set_canRead b obj).
  assert (Hopen' : isOpen obj' = true) by exact Hopen.
  assert (Hread' : sqlitepp.Statement.m_canRead obj' = b) by reflexivity.
  eexists _, _, _.
  split; [exact (deref_run _ _ _ _ _ _ _ Hcell Hstep)|].
  split.
  { unfold sqlitepp.lock. cbn [sqlitepp.heap]. rewrite lookup_insert_eq.
    cbn. rewrite insert_insert_eq. reflexivity. }
  split.
  { exact (execute_steps_once eng μ this _ result e' b Hcell Hopen Hself Hengine
             Hresult). }
  split; [reflexivity|].
  split; [intros ν; reflexivity|].
  split.
  { apply release_shared. cbn [sqlitepp.heap]. apply lookup_insert_eq. }
  cbn [sqlitepp.world sqlitepp.heap]. rewrite insert_insert_eq.
  split; [reflexivity|].
  set (μ3 := sqlitepp.mkMemory _ _ _).
  assert (Hcell3 : sqlitepp.heap μ3 !! this = Some (sqlitepp.mkCell obj' (S n)))
    by apply lookup_insert_eq.
  split.
  { rewrite (canRead_flag μ3 _ _ Hcell3). reflexivity. }
  split.
  { intros -> v e2 Hint.
    exact (readInt_row eng μ3 this _ column v e2 Hcell3 Hopen' Hread' Hint). }
  intros e2 Hnext.
  destruct (step_cases eng obj' _ _ _ Hnext) as (Hrow & _).
  eexists. split.
  { exact (deref_run _ μ3 _ _ _ _ _ Hcell3 (Hrow Hopen' eq_refl)). }
  cbn. rewrite <- app_assoc. reflexivity.
Qed.

(** On the scripted engine, from the free store that prepare leaves: the
    query finds a row, the caller drops its Statement, the ResultSet
    still reads. *)
Lemma execute_shares_statement_witness :
  exists μ1 μ2 μ3,
    sqlitepp.deref (Some 0%nat) (sqlitepp.Statement.step script.eng)
      (script.prepared [SQLITE_ROW; 1]) = (Return true, μ1)
    /\ sqlitepp.lock (Some 0%nat) μ1 = (Return (Some 0%nat), μ2)
    /\ sqlitepp.Statement_execute script.eng 0%nat (script.prepared [SQLITE_ROW; 1])
       = (Return (sqlitepp.ResultSet.mk (Some 0%nat)), μ2)
    /\ calls (sqlitepp.world μ2) = [] ++ [call_step 64%N]
    /\ (forall ν, sqlitepp.ResultSet.next script.eng
                    (sqlitepp.ResultSet.mk (Some 0%nat)) ν
                  = sqlitepp.deref (Some 0%nat)
                      (sqlitepp.Statement.step script.eng) ν)
    /\ sqlitepp.release script.eng (Some 0%nat) μ2 = (Return tt, μ3)
    /\ sqlitepp.world μ3 = sqlitepp.world μ2
    /\ sqlitepp.ResultSet.canRead (sqlitepp.ResultSet.mk (Some 0%nat)) μ3
       = (Return true, μ3)
    /\ (true = true -> forall v e2,
          eng_column_int script.eng 64%N 0 (engine (sqlitepp.world μ3)) = (v, e2) ->
          sqlitepp.ResultSet.readInt script.eng
            (sqlitepp.ResultSet.mk (Some 0%nat)) 0 μ3
          = (Return v,
             sqlitepp.set_world
               (called (sqlitepp.world μ3) (call_column_int 64%N 0) e2) μ3))
    /\ (forall e2,
          eng_step script.eng 64%N (engine (sqlitepp.world μ3)) = (SQLITE_ROW, e2) ->
          exists μ4,
            sqlitepp.ResultSet.next script.eng
              (sqlitepp.ResultSet.mk (Some 0%nat)) μ3 = (Return true, μ4)
            /\ calls (sqlitepp.world μ4) = [] ++ [call_step 64%N; call_step 64%N]).
Proof.
  apply (execute_shares_statement script.eng (script.prepared [SQLITE_ROW; 1])
           0%nat (sqlitepp.mkCell
                    (sqlitepp.Statement.mk (mkOpenable true "Statement") 64%N false
                       (Some 0%nat)) 1)
           SQLITE_ROW [1] true 0);
    [reflexivity|reflexivity|reflexivity|cbn; lia|reflexivity
    |left; split; reflexivity].
Defined.

(** The free store [script.prepared] is the one that prepare leaves. *)
Example prepare_leaves_prepared :
  sqlitepp.Database.prepare script.eng "SELECT id, value FROM test;"
    (script.db_open, script.store [64; SQLITE_OK; SQLITE_ROW; 1])
  = (Return (Some 0%nat),
     (script.db_open,
      sqlitepp.set_world
        (mkWorld [SQLITE_ROW; 1]
           [call_prepare_v2 32%N "SELECT id, value FROM test;" 27] "")
        (script.prepared [SQLITE_ROW; 1]))).
Proof. vm_compute. reflexivity. Qed.

(** C4, against the claim.  A query is prepared and executed, its first
    step finds a row, and the Statement is closed explicitly while the
    ResultSet still refers to it.  canRead on the ResultSet then throws
    nothing: it returns true.  The engine saw the prepare, the step and
    the finalize, nothing else. *)
Lemma canRead_after_close_returns :
  fst (script.close_then_canRead
         (script.db_open, script.store [64; SQLITE_OK; SQLITE_ROW; SQLITE_OK]))
  = Return true
  /\ calls (sqlitepp.world (snd (snd (script.close_then_canRead
         (script.db_open, script.store [64; SQLITE_OK; SQLITE_ROW; SQLITE_OK])))))
  = [call_prepare_v2 32%N "SELECT id, value FROM test;" 27;
     call_step 64%N; call_finalize 64%N].
Proof. vm_compute. auto. Qed.

(** C4, amended.  A Statement is closed explicitly through any pointer to
    it while a ResultSet still refers to it.  The close returns; the
    Statement, still on the free store with the same owners, is marked
    not open, and the engine saw one sqlite3_finalize of its handle if it
    was open and no call otherwise.  canRead on the ResultSet then does
    not throw: it makes no call to the engine and returns the canRead
    flag of the Statement, which close does not touch, so it answers as
    it did before the close. *)
Theorem closed_statement_through_ResultSet {E} (eng : Engine E)
    (μ : sqlitepp.Memory E) (a : sqlitepp.addr) (c : sqlitepp.Cell)
    (result : Z) (e' : E) :
  let h := sqlitepp.Statement.m_handle (sqlitepp.object c) in
  let resultSet := sqlitepp.ResultSet.mk (Some a) in
  sqlitepp.heap μ !! a = Some c ->
  eng_finalize eng h (engine (sqlitepp.world μ)) = (result, e') ->
  exists μ1 s1,
    sqlitepp.deref (Some a) (sqlitepp.Statement.close eng) μ = (Return tt, μ1)
    /\ sqlitepp.heap μ1 !! a = Some (sqlitepp.mkCell s1 (sqlitepp.use_count c))
    /\ isOpen s1 = false
    /\ sqlitepp.world μ1
       = (if isOpen (sqlitepp.object c)
          then called (sqlitepp.world μ) (call_finalize h) e'
          else sqlitepp.world μ)
    /\ sqlitepp.ResultSet.canRead resultSet μ1
       = (Return (sqlitepp.Statement.m_canRead (sqlitepp.object c)), μ1).
Proof.
  intros h resultSet Hcell Hengine. subst h resultSet.
  destruct (Statement_close_cases eng _ _ _ _ Hengine) as [Hopen Hclosed].
  destruct (isOpen (sqlitepp.object c)) eqn:Ho.
  - do 2 eexists. split; [exact (deref_run _ _ _ _ _ _ _ Hcell (Hopen eq_refl))|].
    cbn [sqlitepp.heap sqlitepp.world].
    split; [apply lookup_insert_eq|]. split; [reflexivity|]. split; [reflexivity|].
    erewrite canRead_flag by (cbn [sqlitepp.heap]; apply lookup_insert_eq).
    reflexivity.
  - do 2 eexists. split; [exact (deref_run _ _ _ _ _ _ _ Hcell (Hclosed eq_refl))|].
    cbn [sqlitepp.heap sqlitepp.world].
    split; [apply lookup_insert_eq|]. split; [exact Ho|]. split; [reflexivity|].
    erewrite canRead_flag by (cbn [sqlitepp.heap]; apply lookup_insert_eq).
    reflexivity.
Qed.

(** On the scripted engine: the Statement with a row, shared with a
    ResultSet, is closed; it is finalized, and canRead still answers
    true. *)
Lemma closed_statement_through_ResultSet_witness :
  exists μ1 s1,
    sqlitepp.deref (Some 0%nat) (sqlitepp.Statement.close script.eng)
      (script.shared_row [SQLITE_OK]) = (Return tt, μ1)
    /\ sqlitepp.heap μ1 !! 0%nat = Some (sqlitepp.mkCell s1 2)
    /\ isOpen s1 = false
    /\ sqlitepp.world μ1 = mkWorld [] [call_finalize 64%N] ""
    /\ sqlitepp.ResultSet.canRead (sqlitepp.ResultSet.mk (Some 0%nat)) μ1
       = (Return true, μ1).
Proof.
  apply (closed_statement_through_ResultSet script.eng
           (script.shared_row [SQLITE_OK]) 0%nat
           (sqlitepp.mkCell
              (sqlitepp.Statement.mk (mkOpenable true "Statement") 64%N true
                 (Some 0%nat)) 2) SQLITE_OK []); reflexivity.
Defined.

(** * Further properties of the wrapper *)

(** ** The compiled handle is finalized once *)

Section FinalizeOnce.
Context {E : Type} (eng : Engine E).

(** sqlitepp.cc: ~Statement does what close does. *)
Lemma Statement_destructor_cases (s : sqlitepp.Statement.t) (w : World E)
    (result : Z) (e' : E) :
  eng_finalize eng (sqlitepp.Statement.m_handle s) (engine w) = (result, e') ->
  (isOpen s = true ->
     sqlitepp.Statement.destructor eng (s, w)
     = (Return tt,
        (opened false s, called w (call_finalize (sqlitepp.Statement.m_handle s)) e')))
  /\ (isOpen s = false ->
     sqlitepp.Statement.destructor eng (s, w) = (Return tt, (s, w))).
Proof.
  intros Hengine. unfold sqlitepp.Statement.destructor. split; intros Hopen.
  - run. answer Hopen. answer Hengine. reflexivity.
  - run. answer Hopen. reflexivity.
Qed.

(** sqlitepp.cpp: Statement::finalize and ~Statement. *)
Lemma legacy_finalize_cases (s : legacy.Statement.t) (w : World E)
    (result : Z) (e' : E) :
  eng_finalize eng (legacy.Statement.m_handle s) (engine w) = (result, e') ->
  (isOpen s = true ->
     legacy.Statement.finalize eng (s, w)
     = (Return tt,
        (opened false s, called w (call_finalize (legacy.Statement.m_handle s)) e')))
  /\ (isOpen s = false ->
     legacy.Statement.finalize eng (s, w) = (Return tt, (s, w))).
Proof.
  intros Hengine. unfold legacy.Statement.finalize. split; intros Hopen.
  - run. answer Hopen. answer Hengine. reflexivity.
  - run. answer Hopen. reflexivity.
Qed.

Lemma legacy_Statement_destructor_cases (s : legacy.Statement.t) (w : World E)
    (result : Z) (e' : E) :
  eng_finalize eng (legacy.Statement.m_handle s) (engine w) = (result, e') ->
  (isOpen s = true ->
     legacy.Statement.destructor eng (s, w)
     = (Return tt,
        (opened false s, called w (call_finalize (legacy.Statement.m_handle s)) e')))
  /\ (isOpen s = false ->
     legacy.Statement.destructor eng (s, w) = (Return tt, (s, w))).
Proof.
  intros Hengine. unfold legacy.Statement.destructor. split; intros Hopen.
  - run. answer Hopen. answer Hengine. reflexivity.
  - run. answer Hopen. reflexivity.
Qed.

End FinalizeOnce.

(** X1.  An explicit close (finalize in sqlitepp.cpp) followed by the
    destruction of the Statement never throws and calls sqlite3_finalize
    exactly once if the Statement was open, and not at all if it was
    already closed: the destructor does not finalize a second time. *)
Theorem close_then_destructor_finalizes_once {E} (eng : Engine E)
    (s : sqlitepp.Statement.t) (l : legacy.Statement.t) (w : World E)
    (result : Z) (e' : E) :
  (eng_finalize eng (sqlitepp.Statement.m_handle s) (engine w) = (result, e') ->
   exists s',
     (sqlitepp.Statement.close eng ;; sqlitepp.Statement.destructor eng) (s, w)
     = (Return tt,
        (s', if isOpen s
             then called w (call_finalize (sqlitepp.Statement.m_handle s)) e'
             else w))
     /\ isOpen s' = false)
  /\
  (eng_finalize eng (legacy.Statement.m_handle l) (engine w) = (result, e') ->
   exists l',
     (legacy.Statement.finalize eng ;; legacy.Statement.destructor eng) (l, w)
     = (Return tt,
        (l', if isOpen l
             then called w (call_finalize (legacy.Statement.m_handle l)) e'
             else w))
     /\ isOpen l' = false).
Proof.
  split; intros Hengine.
  - destruct (Statement_close_cases eng s w result e' Hengine) as [Hopen Hclosed].
    destruct (isOpen s) eqn:Ho.
    + eexists. split.
      { rewrite (bind_Return _ _ _ _ _ (Hopen eq_refl)).
        unfold sqlitepp.Statement.destructor. run. reflexivity. }
      reflexivity.
    + exists s. split; [|exact Ho].
      rewrite (bind_Return _ _ _ _ _ (Hclosed eq_refl)).
      exact (proj2 (Statement_destructor_cases eng s w result e' Hengine) Ho).
  - destruct (legacy_finalize_cases eng l w result e' Hengine) as [Hopen Hclosed].
    destruct (isOpen l) eqn:Ho.
    + eexists. split.
      { rewrite (bind_Return _ _ _ _ _ (Hopen eq_refl)).
        unfold legacy.Statement.destructor. run. reflexivity. }
      reflexivity.
    + exists l. split; [|exact Ho].
      rewrite (bind_Return _ _ _ _ _ (Hclosed eq_refl)).
      exact (proj2 (legacy_Statement_destructor_cases eng l w result e' Hengine) Ho).
Qed.

(** An open Statement with a row, closed and then destroyed: one
    sqlite3_finalize. *)
Lemma close_then_destructor_finalizes_once_witness :
  exists s',
    (sqlitepp.Statement.close script.eng ;; sqlitepp.Statement.destructor script.eng)
      (script.stmt_row, script.fresh [5; 5])
    = (Return tt,
       (s', if isOpen script.stmt_row
            then called (script.fresh [5; 5]) (call_finalize 64%N) [5]
            else script.fresh [5; 5]))
    /\ isOpen s' = false.
Proof.
  apply (close_then_destructor_finalizes_once script.eng script.stmt_row
           script.old_stmt_row (script.fresh [5; 5]) 5 [5]).
  reflexivity.
Defined.

(** ** Binding in sqlitepp.cpp, and what the engine is handed *)

Section LegacyBind.
Context {E : Type} (eng : Engine E).

Lemma legacy_handleBindResult_cases (index result : Z)
    (st : legacy.Statement.t * World E) :
  legacy.Statement.handleBindResult eng index result st
  = if decide (result = SQLITE_OK) then (Return tt, st)
    else if decide (result = SQLITE_RANGE) then
      if decide (0 <= index <= 25) then (Throw out_of_range, st)
      else (Undefined, st)
    else if decide (result = SQLITE_NOMEM) then (Throw runtime_error, st)
    else (Throw (DatabaseError_code eng result), st).
Proof.
  unfold legacy.Statement.handleBindResult, literal_plus.
  change (Z.of_nat (String.length _)) with 25.
  repeat case_decide; reflexivity.
Qed.

Lemma legacy_bind_cases (s : legacy.Statement.t) (w : World E) (index : Z)
    (v : value) (result : Z) (w1 : World E) :
  sqlite3_bind eng (fun _ => -1) (legacy.Statement.m_handle s) index v w
  = (Return result, w1) ->
  (isOpen s = false ->
     legacy.Statement.bind eng index v (s, w) = (Undefined, (s, w)))
  /\ (isOpen s = true ->
     legacy.Statement.bind eng index v (s, w)
     = legacy.Statement.handleBindResult eng index result (s, w1)).
Proof.
  intros Hengine. unfold legacy.Statement.bind. split; intros Hopen.
  - rewrite (bind_Undefined _ _ _ _ (requireOpen_closed s w Hopen)). reflexivity.
  - rewrite (bind_Return _ _ _ _ _ (requireOpen_open s w Hopen)).
    run. answer Hengine. reflexivity.
Qed.

Lemma legacy_bind_name_cases (s : legacy.Statement.t) (w : World E) (name : string)
    (v : value) (index : Z) (e1 : E) :
  eng_bind_parameter_index eng (legacy.Statement.m_handle s) name (engine w)
  = (index, e1) ->
  let w1 := called w (call_bind_parameter_index (legacy.Statement.m_handle s) name) e1 in
  (isOpen s = false ->
     legacy.Statement.bind_name eng name v (s, w) = (Undefined, (s, w)))
  /\ (isOpen s = true -> index = 0 ->
     legacy.Statement.bind_name eng name v (s, w)
     = (Throw invalid_argument, (s, w1)))
  /\ (isOpen s = true -> index <> 0 ->
     legacy.Statement.bind_name eng name v (s, w)
     = legacy.Statement.bind eng index v (s, w1)).
Proof.
  intros Hengine w1.
  unfold legacy.Statement.bind_name, legacy.Statement.getParameterIndex.
  refine (conj _ (conj _ _)); intros Hopen.
  - unfold mbind at 1, M_bind.
    rewrite (bind_Undefined _ _ _ _ (requireOpen_closed s w Hopen)). reflexivity.
  - intros ->. unfold mbind at 1, M_bind.
    rewrite (bind_Return _ _ _ _ _ (requireOpen_open s w Hopen)).
    run. answer Hengine. reflexivity.
  - intros Hindex. unfold mbind at 1, M_bind.
    rewrite (bind_Return _ _ _ _ _ (requireOpen_open s w Hopen)).
    run. answer Hengine. case_decide; [congruence|]. reflexivity.
Qed.

(** What [sqlite3_bind] leaves in the log. *)
Lemma sqlite3_bind_logs (nByte : string -> Z) (stmt : ptr) (index : Z)
    (v : value) (w : World E) :
  exists result e',
    sqlite3_bind eng nByte stmt index v w
    = (Return result, called w (bind_call nByte stmt index v) e').
Proof.
  destruct v as [x|x|x]; cbn; autounfold with wrapper.
  - destruct (eng_bind_double eng stmt index x (engine w)) as [r e'].
    exists r, e'. reflexivity.
  - destruct (eng_bind_int eng stmt index x (engine w)) as [r e'].
    exists r, e'. reflexivity.
  - destruct (eng_bind_text eng stmt index x (nByte x) (engine w)) as [r e'].
    exists r, e'. reflexivity.
Qed.

(** handleBindResult never changes the state it runs in. *)
Lemma handleBindResult_state (index result : Z)
    (st : sqlitepp.Statement.t * World E) :
  snd (sqlitepp.Statement.handleBindResult eng index result st) = st.
Proof. rewrite handleBindResult_cases. repeat case_decide; reflexivity. Qed.

Lemma legacy_handleBindResult_state (index result : Z)
    (st : legacy.Statement.t * World E) :
  snd (legacy.Statement.handleBindResult eng index result st) = st.
Proof. rewrite legacy_handleBindResult_cases. repeat case_decide; reflexivity. Qed.

End LegacyBind.

(** X2.  In sqlitepp.cpp, bindDouble / bindInt / bindString by index on
    an open Statement hand the value to the engine once, and the engine's
    result code decides: SQLITE_OK returns, SQLITE_NOMEM throws
    std::runtime_error, any code other than these and SQLITE_RANGE throws
    a DatabaseError carrying it.  On SQLITE_RANGE, std::out_of_range is
    thrown for an index from 0 to 25; for any other index the literal
    offset by the index is no string and the call has no defined
    outcome.  By name, the index is resolved first: 0 throws
    std::invalid_argument, any other index is bound as by index.  On a
    Statement that is not open, a bind by index or by name has no defined
    outcome (requireOpen reads the dangling [m_name]).  Where the call
    returns or throws, the Statement is left as it was. *)
Theorem legacy_bind_outcomes {E} (eng : Engine E)
    (s : legacy.Statement.t) (w : World E) (index : Z) (name : string)
    (v : value) :
  (forall result w1,
     sqlite3_bind eng (fun _ => -1) (legacy.Statement.m_handle s) index v w
     = (Return result, w1) ->
     (isOpen s = false ->
        fst (legacy.Statement.bind eng index v (s, w)) = Undefined)
     /\ (isOpen s = true -> result = SQLITE_RANGE -> 0 <= index <= 25 ->
        legacy.Statement.bind eng index v (s, w) = (Throw out_of_range, (s, w1)))
     /\ (isOpen s = true -> result = SQLITE_RANGE -> ~ 0 <= index <= 25 ->
        fst (legacy.Statement.bind eng index v (s, w)) = Undefined)
     /\ (isOpen s = true -> result = SQLITE_NOMEM ->
        legacy.Statement.bind eng index v (s, w) = (Throw runtime_error, (s, w1)))
     /\ (isOpen s = true -> result <> SQLITE_OK -> result <> SQLITE_RANGE ->
         result <> SQLITE_NOMEM ->
        legacy.Statement.bind eng index v (s, w)
        = (Throw (database_error
                    (mkDatabaseError result
                       (getErrorMessage result (sqlite3_errstr eng result)))),
           (s, w1)))
     /\ (isOpen s = true -> result = SQLITE_OK ->
        legacy.Statement.bind eng index v (s, w) = (Return tt, (s, w1))))
  /\
  (forall resolved e1,
     eng_bind_parameter_index eng (legacy.Statement.m_handle s) name (engine w)
     = (resolved, e1) ->
     let w1 :=
       called w (call_bind_parameter_index (legacy.Statement.m_handle s) name) e1 in
     (isOpen s = false ->
        fst (legacy.Statement.bind_name eng name v (s, w)) = Undefined)
     /\ (isOpen s = true -> resolved = 0 ->
        legacy.Statement.bind_name eng name v (s, w)
        = (Throw invalid_argument, (s, w1)))
     /\ (isOpen s = true -> resolved <> 0 ->
        legacy.Statement.bind_name eng name v (s, w)
        = legacy.Statement.bind eng resolved v (s, w1))).
Proof.
  split.
  - intros result w1 Hengine.
    destruct (legacy_bind_cases eng s w index v result w1 Hengine) as [Hclosed Hopen].
    refine (conj _ (conj _ (conj _ (conj _ (conj _ _))))); intros Ho.
    + rewrite (Hclosed Ho). reflexivity.
    + intros -> Hindex. rewrite (Hopen Ho), legacy_handleBindResult_cases.
      destruct (decide (0 <= index <= 25)); [reflexivity|tauto].
    + intros -> Hindex. rewrite (Hopen Ho), legacy_handleBindResult_cases.
      destruct (decide (0 <= index <= 25)); [tauto|reflexivity].
    + intros ->. rewrite (Hopen Ho), legacy_handleBindResult_cases. reflexivity.
    + intros Hok Hrange Hnomem. rewrite (Hopen Ho), legacy_handleBindResult_cases.
      repeat case_decide; try congruence. reflexivity.
    + intros ->. rewrite (Hopen Ho), legacy_handleBindResult_cases. reflexivity.
  - intros resolved e1 Hengine.
    destruct (legacy_bind_name_cases eng s w name v resolved e1 Hengine)
      as (Hclosed & Hnone & Hsome).
    refine (conj _ (conj Hnone Hsome)).
    intros Ho. rewrite (Hclosed Ho). reflexivity.
Qed.

(** On the scripted engine: a string that the engine has no memory for; a
    name that resolves to parameter 1 and is then bound; position 26,
    which the engine calls out of range; and a Statement that was
    finalized. *)
Lemma legacy_bind_outcomes_witness :
  legacy.Statement.bind script.eng 2 (of_string "test value")
    (script.old_stmt, script.fresh [SQLITE_NOMEM])
  = (Throw runtime_error,
     (script.old_stmt, mkWorld [] [call_bind_text 64%N 2 "test value" (-1)] ""))
  /\ legacy.Statement.bind_name script.eng ":id" (of_int 1)
    (script.old_stmt, script.fresh [1; SQLITE_OK])
  = legacy.Statement.bind script.eng 1 (of_int 1)
      (script.old_stmt,
       mkWorld [SQLITE_OK] [call_bind_parameter_index 64%N ":id"] "")
  /\ fst (legacy.Statement.bind script.eng 26 (of_int 1)
            (script.old_stmt, script.fresh [SQLITE_RANGE])) = Undefined
  /\ fst (legacy.Statement.bind script.eng 1 (of_int 1)
            (script.old_stmt_closed, script.fresh [SQLITE_OK])) = Undefined.
Proof.
  refine (conj _ (conj _ (conj _ _))).
  - destruct (legacy_bind_outcomes script.eng script.old_stmt
                (script.fresh [SQLITE_NOMEM]) 2 ":id" (of_string "test value"))
      as [Hindex _].
    destruct (Hindex SQLITE_NOMEM
                (mkWorld [] [call_bind_text 64%N 2 "test value" (-1)] "") eq_refl)
      as (_ & _ & _ & Hnomem & _).
    exact (Hnomem eq_refl eq_refl).
  - destruct (legacy_bind_outcomes script.eng script.old_stmt
                (script.fresh [1; SQLITE_OK]) 2 ":id" (of_int 1)) as [_ Hname].
    apply (Hname 1 [SQLITE_OK]); [reflexivity|reflexivity|discriminate].
  - destruct (legacy_bind_outcomes script.eng script.old_stmt
                (script.fresh [SQLITE_RANGE]) 26 ":id" (of_int 1)) as [Hindex _].
    destruct (Hindex SQLITE_RANGE (mkWorld [] [call_bind_int 64%N 26 1] "") eq_refl)
      as (_ & _ & Houtside & _).
    apply (Houtside eq_refl eq_refl). lia.
  - destruct (legacy_bind_outcomes script.eng script.old_stmt_closed
                (script.fresh [SQLITE_OK]) 1 ":id" (of_int 1)) as [Hindex _].
    destruct (Hindex SQLITE_OK (mkWorld [] [call_bind_int 64%N 1 1] "") eq_refl)
      as (Hclosed & _).
    exact (Hclosed eq_refl).
Defined.

(** [value.size()] arrives unchanged when it fits an int. *)
Lemma int_of_size_small (x : string) :
  Z.of_nat (String.length x) < 2 ^ 31 ->
  int_of_size x = Z.of_nat (String.length x).
Proof.
  intros Hsmall. unfold int_of_size, to_int.
  rewrite Z.mod_small; lia.
Qed.



(** ** Closing in sqlitepp.cpp *)

Section LegacyClose.
Context {E : Type} (eng : Engine E).

Lemma legacy_Database_close_cases (d : legacy.Database.t) (w : World E)
    (result : Z) (e' : E) :
  eng_close eng (legacy.Database.m_handle d) (engine w) = (result, e') ->
  let w' := called w (call_close (legacy.Database.m_handle d)) e' in
  (isOpen d = false ->
     legacy.Database.close eng (d, w) = (Return tt, (d, w)))
  /\ (isOpen d = true -> result = SQLITE_OK ->
     legacy.Database.close eng (d, w) = (Return tt, (opened false d, w')))
  /\ (isOpen d = true -> result <> SQLITE_OK ->
     legacy.Database.close eng (d, w)
     = (Throw (DatabaseError_code eng result), (d, w'))).
Proof.
  intros Hengine w'. unfold legacy.Database.close.
  refine (conj _ (conj _ _)); intros Hopen.
  - run. answer Hopen. reflexivity.
  - intros ->. run. answer Hopen. answer Hengine. reflexivity.
  - intros Hresult. run. answer Hopen. answer Hengine.
    case_decide; [congruence|]. reflexivity.
Qed.

End LegacyClose.

(** X4.  In sqlitepp.cpp, Statement::finalize never throws: on an open
    Statement it calls sqlite3_finalize once, ignores the answer and marks
    the Statement closed, on a closed one it does nothing, so that a
    second finalize does nothing.  Database::close does nothing on a
    closed Database; on an open one it calls sqlite3_close once: on
    SQLITE_OK the Database is closed and a second close does nothing, on
    any other answer a DatabaseError carrying the code is thrown and the
    Database stays open. *)
Theorem legacy_close_twice {E} (eng : Engine E)
    (s : legacy.Statement.t) (d : legacy.Database.t) (w : World E)
    (result : Z) (e' : E) :
  (eng_finalize eng (legacy.Statement.m_handle s) (engine w) = (result, e') ->
   exists s' w',
     legacy.Statement.finalize eng (s, w) = (Return tt, (s', w'))
     /\ isOpen s' = false
     /\ w' = (if isOpen s
              then called w (call_finalize (legacy.Statement.m_handle s)) e'
              else w)
     /\ legacy.Statement.finalize eng (s', w') = (Return tt, (s', w')))
  /\
  (eng_close eng (legacy.Database.m_handle d) (engine w) = (result, e') ->
   let w' := called w (call_close (legacy.Database.m_handle d)) e' in
   (isOpen d = false ->
      legacy.Database.close eng (d, w) = (Return tt, (d, w)))
   /\ (isOpen d = true -> result = SQLITE_OK ->
      exists d',
        legacy.Database.close eng (d, w) = (Return tt, (d', w'))
        /\ isOpen d' = false
        /\ legacy.Database.close eng (d', w') = (Return tt, (d', w')))
   /\ (isOpen d = true -> result <> SQLITE_OK ->
      legacy.Database.close eng (d, w)
      = (Throw (DatabaseError_code eng result), (d, w')))).
Proof.
  split; intros Hengine.
  - destruct (legacy_finalize_cases eng s w result e' Hengine) as [Hopen Hclosed].
    destruct (isOpen s) eqn:Ho.
    + do 2 eexists. split; [exact (Hopen eq_refl)|].
      split; [reflexivity|]. split; [reflexivity|].
      unfold legacy.Statement.finalize. run. reflexivity.
    + do 2 eexists. split; [exact (Hclosed eq_refl)|].
      split; [exact Ho|]. split; [reflexivity|]. exact (Hclosed eq_refl).
  - intros w'.
    destruct (legacy_Database_close_cases eng d w result e' Hengine)
      as (Hclosed & Hok & Hfail).
    refine (conj Hclosed (conj _ Hfail)).
    intros Ho Hres. eexists. split; [exact (Hok Ho Hres)|].
    split; [reflexivity|]. unfold legacy.Database.close. run. reflexivity.
Qed.

(** An open Database that the engine closes: closed, and closing it again
    is no call. *)
Lemma legacy_close_twice_witness :
  exists d',
    legacy.Database.close script.eng (script.old_db_open, script.fresh [SQLITE_OK])
    = (Return tt, (d', called (script.fresh [SQLITE_OK]) (call_close 32%N) []))
    /\ isOpen d' = false
    /\ legacy.Database.close script.eng
         (d', called (script.fresh [SQLITE_OK]) (call_close 32%N) [])
       = (Return tt, (d', called (script.fresh [SQLITE_OK]) (call_close 32%N) [])).
Proof.
  destruct (legacy_close_twice script.eng script.old_stmt script.old_db_open
              (script.fresh [SQLITE_OK]) SQLITE_OK []) as [_ Hdb].
  destruct (Hdb eq_refl) as (_ & Hok & _).
  exact (Hok eq_refl eq_refl).
Defined.

(** ** Database::lastInsertRowId *)

Lemma to_int_range (z : Z) : - 2 ^ 31 <= to_int z < 2 ^ 31.
Proof.
  unfold to_int. pose proof (Z.mod_pos_bound (z + 2 ^ 31) (2 ^ 32) eq_refl). lia.
Qed.

Lemma to_int_id (z : Z) : to_int z = z <-> - 2 ^ 31 <= z < 2 ^ 31.
Proof.
  split.
  - intros <-. apply to_int_range.
  - intros Hz. unfold to_int. rewrite Z.mod_small; lia.
Qed.

(** X5.  Database::lastInsertRowId on an open Database makes one call to
    sqlite3_last_insert_rowid and returns the 64-bit row id converted to
    int: the result is always in the range of int, and it is the engine's
    row id exactly when that row id is in the range of int; a larger row
    id comes back as a different number.  On a Database that is not open
    the call has no defined outcome (requireOpen reads the dangling
    [m_name]). *)
Theorem lastInsertRowId_outcomes {E} (eng : Engine E)
    (d : sqlitepp.Database.t) (w : World E) (rowid : Z) (e' : E) :
  eng_last_insert_rowid eng (sqlitepp.Database.m_handle d) (engine w)
  = (rowid, e') ->
  (isOpen d = false ->
     fst (sqlitepp.Database.lastInsertRowId eng (d, w)) = Undefined)
  /\ (isOpen d = true ->
     exists n,
       sqlitepp.Database.lastInsertRowId eng (d, w)
       = (Return n,
          (d, called w (call_last_insert_rowid (sqlitepp.Database.m_handle d)) e'))
       /\ - 2 ^ 31 <= n < 2 ^ 31
       /\ (n - rowid) mod 2 ^ 32 = 0
       /\ (n = rowid <-> - 2 ^ 31 <= rowid < 2 ^ 31)).
Proof.
  intros Hengine. unfold sqlitepp.Database.lastInsertRowId. split; intros Hopen.
  - rewrite (bind_Undefined _ _ _ _ (requireOpen_closed d w Hopen)). reflexivity.
  - exists (to_int rowid). split.
    { rewrite (bind_Return _ _ _ _ _ (requireOpen_open d w Hopen)).
      run. answer Hengine. reflexivity. }
    split; [apply to_int_range|]. split; [|apply to_int_id].
    unfold to_int.
    replace ((rowid + 2 ^ 31) mod 2 ^ 32 - 2 ^ 31 - rowid)
      with ((rowid + 2 ^ 31) mod 2 ^ 32 - (rowid + 2 ^ 31)) by lia.
    rewrite Zminus_mod, Zmod_mod, <- Zminus_mod, Z.sub_diag. reflexivity.
Qed.

(** On the scripted engine: row id 2^31, which comes back as -2^31, and
    a Database that was never opened. *)
Lemma lastInsertRowId_outcomes_witness :
  (exists n,
     sqlitepp.Database.lastInsertRowId script.eng
       (script.db_open, script.fresh [2 ^ 31])
     = (Return n, (script.db_open,
                   called (script.fresh [2 ^ 31]) (call_last_insert_rowid 32%N) []))
     /\ - 2 ^ 31 <= n < 2 ^ 31
     /\ (n - 2 ^ 31) mod 2 ^ 32 = 0
     /\ (n = 2 ^ 31 <-> - 2 ^ 31 <= 2 ^ 31 < 2 ^ 31))
  /\ sqlitepp.Database.lastInsertRowId script.eng
       (script.db_open, script.fresh [2 ^ 31])
     = (Return (- 2 ^ 31),
        (script.db_open, mkWorld [] [call_last_insert_rowid 32%N] ""))
  /\ fst (sqlitepp.Database.lastInsertRowId script.eng (script.db, script.fresh [2]))
     = Undefined.
Proof.
  refine (conj _ (conj _ _)); [|reflexivity|].
  - apply (lastInsertRowId_outcomes script.eng script.db_open
             (script.fresh [2 ^ 31]) (2 ^ 31) []); reflexivity.
  - apply (lastInsertRowId_outcomes script.eng script.db
             (script.fresh [2]) 2 []); reflexivity.
Defined.

(** ** columnCount *)

(** X6.  On an open Statement that has a row, columnCount makes one call
    to the engine and returns its answer; ResultSet::columnCount of
    sqlitepp.cc asks sqlite3_data_count, Statement::columnCount of
    sqlitepp.cpp asks sqlite3_column_count.  Nothing else is changed. *)
Theorem columnCount_outcome {E} (eng : Engine E)
    (μ : sqlitepp.Memory E) (a : sqlitepp.addr) (c : sqlitepp.Cell)
    (l : legacy.Statement.t) (w : World E) (n : Z) (e' : E) :
  (sqlitepp.heap μ !! a = Some c ->
   isOpen (sqlitepp.object c) = true ->
   sqlitepp.Statement.m_canRead (sqlitepp.object c) = true ->
   let h := sqlitepp.Statement.m_handle (sqlitepp.object c) in
   eng_data_count eng h (engine (sqlitepp.world μ)) = (n, e') ->
   sqlitepp.ResultSet.columnCount eng (sqlitepp.ResultSet.mk (Some a)) μ
   = (Return n,
      sqlitepp.set_world (called (sqlitepp.world μ) (call_data_count h) e') μ))
  /\
  (isOpen l = true ->
   legacy.Statement.m_canRead l = true ->
   eng_column_count eng (legacy.Statement.m_handle l) (engine w) = (n, e') ->
   legacy.Statement.columnCount eng (l, w)
   = (Return n, (l, called w (call_column_count (legacy.Statement.m_handle l)) e'))).
Proof.
  split.
  - intros Hcell Hopen Hread h Hengine.
    exact (columnCount_row eng μ a c n e' Hcell Hopen Hread Hengine).
  - intros Hopen Hread Hengine. unfold legacy.Statement.columnCount.
    rewrite (legacy_guards_pass _ _ _ Hopen Hread). run. answer Hengine.
    reflexivity.
Qed.

(** The row of the test suite has two columns. *)
Lemma columnCount_outcome_witness :
  sqlitepp.ResultSet.columnCount script.eng (sqlitepp.ResultSet.mk (Some 0%nat))
    (script.shared_row [2])
  = (Return 2,
     sqlitepp.set_world (called (script.fresh [2]) (call_data_count 64%N) [])
       (script.shared_row [2]))
  /\ legacy.Statement.columnCount script.eng (script.old_stmt_row, script.fresh [2])
  = (Return 2,
     (script.old_stmt_row, called (script.fresh [2]) (call_column_count 64%N) [])).
Proof.
  split.
  - apply (columnCount_outcome script.eng (script.shared_row [2]) 0%nat
             (sqlitepp.mkCell
                (sqlitepp.Statement.mk (mkOpenable true "Statement") 64%N true
                   (Some 0%nat)) 2)
             script.old_stmt_row (script.fresh [2]) 2 []); reflexivity.
  - apply (columnCount_outcome script.eng (script.shared_row [2]) 0%nat
             (sqlitepp.mkCell
                (sqlitepp.Statement.mk (mkOpenable true "Statement") 64%N true
                   (Some 0%nat)) 2)
             script.old_stmt_row (script.fresh [2]) 2 []); reflexivity.
Defined.

(** ** The handle of an open Database *)

(** X7.  An open Database never holds the null handle: Database() makes a
    closed Database, and open, close and the destructor keep the property
    "if the Database is open, its handle is not NULL", whatever the engine
    answers and however the call ends.  This holds in sqlitepp.cc and in
    sqlitepp.cpp. *)
Theorem open_Database_has_handle {E} (eng : Engine E)
    (d : sqlitepp.Database.t) (o : legacy.Database.t) (w : World E)
    (file : string) (uninit : ptr) :
  isOpen (sqlitepp.Database.new uninit) = false
  /\ isOpen (legacy.Database.new uninit) = false
  /\ ((isOpen d = true -> sqlitepp.Database.m_handle d <> NULL) ->
      forall d',
        d' = fst (snd (sqlitepp.Database.open eng file (d, w)))
        \/ d' = fst (snd (sqlitepp.Database.close eng (d, w)))
        \/ d' = fst (snd (sqlitepp.Database.destructor eng (d, w))) ->
        isOpen d' = true -> sqlitepp.Database.m_handle d' <> NULL)
  /\ ((isOpen o = true -> legacy.Database.m_handle o <> NULL) ->
      forall o',
        o' = fst (snd (legacy.Database.open eng file (o, w)))
        \/ o' = fst (snd (legacy.Database.close eng (o, w)))
        \/ o' = fst (snd (legacy.Database.destructor eng (o, w))) ->
        isOpen o' = true -> legacy.Database.m_handle o' <> NULL).
Proof.
  refine (conj eq_refl (conj eq_refl (conj _ _))).
  - intros Hd d' [-> | [-> | ->]].
    + destruct (eng_open eng file (engine w)) as [[h r] e1] eqn:Hengine.
      destruct (open_cases eng d w file h r e1 Hengine)
        as (Hagain & Hnomem & Hok & Hfail).
      destruct (isOpen d) eqn:Ho; [rewrite (Hagain eq_refl); intros _; exact (Hd eq_refl)|].
      destruct (decide (h = NULL)) as [Hnull|Hnull];
        [rewrite (Hnomem eq_refl Hnull); unfold isOpen in *; cbn in *; congruence|].
      destruct (decide (r = SQLITE_OK)) as [Hres|Hres];
        [rewrite (Hok eq_refl Hnull Hres); cbn; auto|].
      destruct (eng_errmsg eng h e1) as [msg e2] eqn:Hmsg.
      destruct (eng_close eng h e2) as [rc e3] eqn:Hclose.
      rewrite (Hfail eq_refl Hnull Hres _ _ _ _ eq_refl Hclose). unfold isOpen in *; cbn in *; congruence.
    + destruct (eng_close eng (sqlitepp.Database.m_handle d) (engine w))
        as [r e1] eqn:Hengine.
      destruct (Database_close_cases eng d w r e1 Hengine) as (Hclosed & Hok & Hfail).
      destruct (isOpen d) eqn:Ho; [|rewrite (Hclosed eq_refl); unfold isOpen in *; cbn in *; congruence].
      destruct (decide (r = SQLITE_OK)) as [Hres|Hres].
      * rewrite (Hok eq_refl Hres). cbn. discriminate.
      * rewrite (Hfail eq_refl Hres). intros _. exact (Hd eq_refl).
    + destruct (eng_close eng (sqlitepp.Database.m_handle d) (engine w))
        as [r e1] eqn:Hengine.
      destruct (destructor_cases eng d w r e1 Hengine) as (Hopen & Hclosed).
      destruct (isOpen d) eqn:Ho.
      * rewrite (Hopen eq_refl). cbn. discriminate.
      * rewrite (Hclosed eq_refl). unfold isOpen in *; cbn in *; congruence.
  - intros Hd o' [-> | [-> | ->]].
    + destruct (eng_open eng file (engine w)) as [[h r] e1] eqn:Hengine.
      destruct (legacy_open_cases eng o w file h r e1 Hengine)
        as (Hagain & Hnomem & Hok & Hfail).
      destruct (isOpen o) eqn:Ho; [rewrite (Hagain eq_refl); intros _; exact (Hd eq_refl)|].
      destruct (decide (h = NULL)) as [Hnull|Hnull];
        [rewrite (Hnomem eq_refl Hnull); unfold isOpen in *; cbn in *; congruence|].
      destruct (decide (r = SQLITE_OK)) as [Hres|Hres];
        [rewrite (Hok eq_refl Hnull Hres); cbn; auto|].
      destruct (eng_errmsg eng h e1) as [msg e2] eqn:Hmsg.
      destruct (eng_close eng h e2) as [rc e3] eqn:Hclose.
      rewrite (Hfail eq_refl Hnull Hres _ _ _ _ eq_refl Hclose). unfold isOpen in *; cbn in *; congruence.
    + destruct (eng_close eng (legacy.Database.m_handle o) (engine w))
        as [r e1] eqn:Hengine.
      destruct (legacy_Database_close_cases eng o w r e1 Hengine)
        as (Hclosed & Hok & Hfail).
      destruct (isOpen o) eqn:Ho; [|rewrite (Hclosed eq_refl); unfold isOpen in *; cbn in *; congruence].
      destruct (decide (r = SQLITE_OK)) as [Hres|Hres].
      * rewrite (Hok eq_refl Hres). cbn. discriminate.
      * rewrite (Hfail eq_refl Hres). intros _. exact (Hd eq_refl).
    + destruct (eng_close eng (legacy.Database.m_handle o) (engine w))
        as [r e1] eqn:Hengine.
      destruct (legacy_destructor_cases eng o w r e1 Hengine)
        as (Hok & Hfail & Hclosed).
      destruct (isOpen o) eqn:Ho; [|rewrite (Hclosed eq_refl); unfold isOpen in *; cbn in *; congruence].
      destruct (decide (r = SQLITE_OK)) as [Hres|Hres].
      * rewrite (Hok eq_refl Hres). cbn. discriminate.
      * rewrite (Hfail eq_refl Hres). intros _. exact (Hd eq_refl).
Qed.

(** A Database that was never opened is opened on handle 32: it holds
    that handle. *)
Lemma open_Database_has_handle_witness :
  sqlitepp.Database.m_handle
    (fst (snd (sqlitepp.Database.open script.eng "/tmp/test.db"
                 (script.db, script.fresh [32; SQLITE_OK])))) <> NULL.
Proof.
  destruct (open_Database_has_handle script.eng script.db script.old_db
              (script.fresh [32; SQLITE_OK]) "/tmp/test.db" 0%N)
    as (_ & _ & Hkeeps & _).
  apply Hkeeps; [discriminate|left; reflexivity|reflexivity].
Defined.

(** ** Opening again after a close *)

(** X8.  A closed Database can be opened, closed and opened again: when
    the engine accepts the three calls, open(file1); close(); open(file2)
    returns with the Database open on the handle of the second
    connection, and the engine saw exactly sqlite3_open(file1),
    sqlite3_close of the first handle, sqlite3_open(file2). *)
Theorem open_close_open {E} (eng : Engine E)
    (d : sqlitepp.Database.t) (w : World E) (file1 file2 : string)
    (h1 h2 : ptr) (e1 e2 e3 : E) :
  isOpen d = false ->
  eng_open eng file1 (engine w) = ((h1, SQLITE_OK), e1) -> h1 <> NULL ->
  eng_close eng h1 e1 = (SQLITE_OK, e2) ->
  eng_open eng file2 e2 = ((h2, SQLITE_OK), e3) -> h2 <> NULL ->
  exists d',
    (sqlitepp.Database.open eng file1 ;; sqlitepp.Database.close eng ;;
     sqlitepp.Database.open eng file2) (d, w)
    = (Return tt,
       (d', mkWorld e3
              (calls w ++ [call_open file1; call_close h1; call_open file2])
              (cerr w)))
    /\ isOpen d' = true
    /\ sqlitepp.Database.m_handle d' = h2.
Proof.
  intros Hclosed Hopen1 Hnull1 Hclose Hopen2 Hnull2.
  destruct (open_cases eng d w file1 h1 SQLITE_OK e1 Hopen1) as (_ & _ & Hok1 & _).
  eexists. split.
  { rewrite (bind_Return _ _ _ _ _ (Hok1 Hclosed Hnull1 eq_refl)).
    set (d1 := opened true _). set (w1 := called w _ e1).
    destruct (Database_close_cases eng d1 w1 SQLITE_OK e2 Hclose) as (_ & Hok2 & _).
    rewrite (bind_Return _ _ _ _ _ (Hok2 eq_refl eq_refl)).
    set (d2 := opened false d1). set (w2 := called w1 _ e2).
    destruct (open_cases eng d2 w2 file2 h2 SQLITE_OK e3 Hopen2) as (_ & _ & Hok3 & _).
    rewrite (Hok3 eq_refl Hnull2 eq_refl).
    subst w2 w1. unfold called. cbn. rewrite <- !app_assoc. reflexivity. }
  split; reflexivity.
Qed.

(** The two files of the test suite. *)
Lemma open_close_open_witness :
  exists d',
    (sqlitepp.Database.open script.eng "/tmp/test.db" ;;
     sqlitepp.Database.close script.eng ;;
     sqlitepp.Database.open script.eng "/tmp/test2.db")
      (script.db, script.fresh [32; SQLITE_OK; SQLITE_OK; 48; SQLITE_OK])
    = (Return tt,
       (d', mkWorld []
              ([] ++ [call_open "/tmp/test.db"; call_close 32%N;
                      call_open "/tmp/test2.db"]) ""))
    /\ isOpen d' = true
    /\ sqlitepp.Database.m_handle d' = 48%N.
Proof.
  apply (open_close_open script.eng script.db
           (script.fresh [32; SQLITE_OK; SQLITE_OK; 48; SQLITE_OK])
           "/tmp/test.db" "/tmp/test2.db" 32%N 48%N
           [SQLITE_OK; 48; SQLITE_OK] [48; SQLITE_OK] []);
    try reflexivity; discriminate.
Defined.

(** ** When a statement cannot be prepared *)

(** sqlitepp.cc: the ways in which prepare makes no Statement. *)
Lemma prepare_fails {E} (eng : Engine E)
    (d : sqlitepp.Database.t) (μ : sqlitepp.Memory E) (sql : string)
    (handle : ptr) (result : Z) (e1 : E) :
  let dbh := sqlitepp.Database.m_handle d in
  let nByte := int_of_size sql in
  eng_prepare_v2 eng dbh sql nByte (engine (sqlitepp.world μ))
  = ((handle, result), e1) ->
  let w1 := called (sqlitepp.world μ) (call_prepare_v2 dbh sql nByte) e1 in
  (isOpen d = false ->
     sqlitepp.Database.prepare eng sql (d, μ) = (Undefined, (d, μ)))
  /\ (isOpen d = true -> result <> SQLITE_OK ->
     forall errorMessage e2,
       eng_errmsg eng dbh e1 = (errorMessage, e2) ->
       sqlitepp.Database.prepare eng sql (d, μ)
       = (Throw (database_error
                   (mkDatabaseError result (getErrorMessage result errorMessage))),
          (d, sqlitepp.set_world (called w1 (call_errmsg dbh) e2) μ)))
  /\ (isOpen d = true -> result = SQLITE_OK -> handle = NULL ->
     sqlitepp.Database.prepare eng sql (d, μ)
     = (Throw runtime_error, (d, sqlitepp.set_world w1 μ))).
Proof.
  intros dbh nByte Hengine w1. subst dbh nByte w1.
  unfold sqlitepp.Database.prepare.
  refine (conj _ (conj _ _)); intros Hopen.
  - rewrite (bind_Undefined _ _ _ _ (requireOpen_closed d μ Hopen)). reflexivity.
  - intros Hres errorMessage e2 Hmsg.
    rewrite (bind_Return _ _ _ _ _ (requireOpen_open d μ Hopen)).
    run. answer Hengine. case_decide; [|congruence]. cbn. answer Hmsg.
    reflexivity.
  - intros -> ->.
    rewrite (bind_Return _ _ _ _ _ (requireOpen_open d μ Hopen)).
    run. answer Hengine. reflexivity.
Qed.

(** X9.  Database::prepare of sqlitepp.cc on an open Database calls
    sqlite3_prepare_v2 once, with the text and its size converted to int:
    if the engine answers with a code other than SQLITE_OK, prepare asks
    for the engine's message and throws a DatabaseError carrying the code
    and that message; if the engine answers SQLITE_OK but stores no
    handle, it throws std::runtime_error.  In both cases no Statement is
    made: the free store is as it was.  On a Database that is not open
    the call has no defined outcome (requireOpen reads the dangling
    [m_name]). *)
Theorem prepare_failures {E} (eng : Engine E)
    (d : sqlitepp.Database.t) (μ : sqlitepp.Memory E) (sql : string)
    (handle : ptr) (result : Z) (e1 : E) :
  let dbh := sqlitepp.Database.m_handle d in
  let nByte := int_of_size sql in
  eng_prepare_v2 eng dbh sql nByte (engine (sqlitepp.world μ))
  = ((handle, result), e1) ->
  let w1 := called (sqlitepp.world μ) (call_prepare_v2 dbh sql nByte) e1 in
  (isOpen d = false ->
     fst (sqlitepp.Database.prepare eng sql (d, μ)) = Undefined)
  /\ (isOpen d = true -> result <> SQLITE_OK ->
     forall errorMessage e2,
       eng_errmsg eng dbh e1 = (errorMessage, e2) ->
       sqlitepp.Database.prepare eng sql (d, μ)
       = (Throw (database_error
                   (mkDatabaseError result (getErrorMessage result errorMessage))),
          (d, sqlitepp.set_world (called w1 (call_errmsg dbh) e2) μ)))
  /\ (isOpen d = true -> result = SQLITE_OK -> handle = NULL ->
     sqlitepp.Database.prepare eng sql (d, μ)
     = (Throw runtime_error, (d, sqlitepp.set_world w1 μ))).
Proof.
  intros dbh nByte Hengine w1.
  destruct (prepare_fails eng d μ sql handle result e1 Hengine)
    as (Hclosed & Herr & Hnull).
  refine (conj _ (conj Herr Hnull)).
  intros Hopen. rewrite (Hclosed Hopen). reflexivity.
Qed.

(** On the scripted engine: a text the engine rejects with code 1, and a
    Database that was never opened. *)
Lemma prepare_failures_witness :
  sqlitepp.Database.prepare script.eng "SELEKT" (script.db_open, script.store [0; 1])
  = (Throw (database_error
              (mkDatabaseError 1
                 (getErrorMessage 1 "unable to open database file"))),
     (script.db_open,
      sqlitepp.set_world
        (called (called (script.fresh [0; 1]) (call_prepare_v2 32%N "SELEKT" 6) [])
           (call_errmsg 32%N) [])
        (script.store [0; 1])))
  /\ fst (sqlitepp.Database.prepare script.eng "SELECT 1;"
            (script.db, script.store [64; 0])) = Undefined.
Proof.
  split.
  - destruct (prepare_failures script.eng script.db_open (script.store [0; 1])
                "SELEKT" 0%N 1 [] eq_refl) as (_ & Hfail & _).
    apply Hfail; [reflexivity|discriminate|reflexivity].
  - destruct (prepare_failures script.eng script.db (script.store [64; 0])
                "SELECT 1;" 64%N 0 [] eq_refl) as (Hclosed & _).
    apply Hclosed. reflexivity.
Defined.

(** X10.  The constructor of Statement in sqlitepp.cpp, and with it
    Database::prepare, on an open Database calls sqlite3_prepare_v2 once,
    with the text and the length -1: a code other than SQLITE_OK gives a
    DatabaseError carrying the code and the engine's message, SQLITE_OK
    without a handle gives std::runtime_error; the Database is not
    changed.  When the Database is not open, neither has a defined
    outcome: database.requireOpen() reads the dangling [m_name] of the
    Database. *)
Theorem legacy_prepare_failures {E} (eng : Engine E)
    (d : legacy.Database.t) (w : World E) (sql : string)
    (handle : ptr) (result : Z) (e1 : E) :
  let dbh := legacy.Database.m_handle d in
  eng_prepare_v2 eng dbh sql (-1) (engine w) = ((handle, result), e1) ->
  let w1 := called w (call_prepare_v2 dbh sql (-1)) e1 in
  (isOpen d = false ->
     fst (legacy.Statement.new eng d sql w) = Undefined
     /\ fst (legacy.Database_prepare eng sql (d, w)) = Undefined)
  /\ (isOpen d = true -> result <> SQLITE_OK ->
     forall errorMessage e2,
       eng_errmsg eng dbh e1 = (errorMessage, e2) ->
       let thrown :=
         database_error
           (mkDatabaseError result (getErrorMessage result errorMessage)) in
       legacy.Statement.new eng d sql w
       = (Throw thrown, called w1 (call_errmsg dbh) e2)
       /\ legacy.Database_prepare eng sql (d, w)
          = (Throw thrown, (d, called w1 (call_errmsg dbh) e2)))
  /\ (isOpen d = true -> result = SQLITE_OK -> handle = NULL ->
     legacy.Statement.new eng d sql w = (Throw runtime_error, w1)
     /\ legacy.Database_prepare eng sql (d, w) = (Throw runtime_error, (d, w1))).
Proof.
  intros dbh Hengine w1. subst dbh w1.
  assert (Hguard_open : isOpen d = true ->
            with_object d (requireOpen (W:=World E)) w = (Return tt, w)).
  { intros Hopen. unfold with_object.
    rewrite (requireOpen_open d w Hopen). reflexivity. }
  assert (Hguard_closed : isOpen d = false ->
            with_object d (requireOpen (W:=World E)) w = (Undefined, w)).
  { intros Hopen. unfold with_object.
    rewrite (requireOpen_closed d w Hopen). reflexivity. }
  refine (conj _ (conj _ _)); intros Hopen.
  - assert (Hnew : legacy.Statement.new eng d sql w = (Undefined, w)).
    { unfold legacy.Statement.new.
      rewrite (bind_Undefined _ _ _ _ (Hguard_closed Hopen)). reflexivity. }
    split; [rewrite Hnew; reflexivity|].
    unfold legacy.Database_prepare. run. rewrite Hnew. reflexivity.
  - intros Hres errorMessage e2 Hmsg thrown. subst thrown.
    assert (Hnew : legacy.Statement.new eng d sql w
                   = (Throw (DatabaseError_msg result errorMessage),
                      called (called w (call_prepare_v2
                                          (legacy.Database.m_handle d) sql (-1)) e1)
                        (call_errmsg (legacy.Database.m_handle d)) e2)).
    { unfold legacy.Statement.new.
      rewrite (bind_Return _ _ _ _ _ (Hguard_open Hopen)).
      run. answer Hengine. case_decide; [|congruence]. cbn. answer Hmsg.
      reflexivity. }
    split; [exact Hnew|].
    unfold legacy.Database_prepare. run. rewrite Hnew. reflexivity.
  - intros -> ->.
    assert (Hnew : legacy.Statement.new eng d sql w
                   = (Throw runtime_error,
                      called w (call_prepare_v2
                                  (legacy.Database.m_handle d) sql (-1)) e1)).
    { unfold legacy.Statement.new.
      rewrite (bind_Return _ _ _ _ _ (Hguard_open Hopen)).
      run. answer Hengine. reflexivity. }
    split; [exact Hnew|].
    unfold legacy.Database_prepare. run. rewrite Hnew. reflexivity.
Qed.

(** On the scripted engine: a Statement on a Database that was never
    opened. *)
Lemma legacy_prepare_failures_witness :
  fst (legacy.Statement.new script.eng script.old_db "SELECT 1;"
         (script.fresh [64; 0])) = Undefined
  /\ fst (legacy.Database_prepare script.eng "SELECT 1;"
            (script.old_db, script.fresh [64; 0])) = Undefined.
Proof.
  destruct (legacy_prepare_failures script.eng script.old_db (script.fresh [64; 0])
              "SELECT 1;" 64%N 0 [] eq_refl) as (Hclosed & _).
  apply Hclosed. reflexivity.
Defined.

(** ** Database::execute *)

Lemma on_env_run {T W A} (m : M W A) (this : T) (w w' : W) (r : outcome A) :
  m w = (r, w') -> on_env m (this, w) = (r, (this, w')).
Proof. intros Hm. unfold on_env, zoom. cbn. rewrite Hm. reflexivity. Qed.

Lemma scoped_Return {S A} (body : M S A) (cleanup : M S unit) (s s' s'' : S) (a : A) :
  body s = (Return a, s') -> cleanup s' = (Return tt, s'') ->
  scoped body cleanup s = (Return a, s'').
Proof.
  intros Hbody Hcleanup. unfold scoped. rewrite Hbody.
  rewrite (bind_Return _ _ _ _ _ Hcleanup). reflexivity.
Qed.

Lemma scoped_Throw {S A} (body : M S A) (cleanup : M S unit) (s s' s'' : S)
    (e : exception) :
  body s = (Throw e, s') -> cleanup s' = (Return tt, s'') ->
  scoped body cleanup s = (Throw e, s'').
Proof.
  intros Hbody Hcleanup. unfold scoped. rewrite Hbody.
  rewrite (bind_Return _ _ _ _ _ Hcleanup). reflexivity.
Qed.

Section DatabaseExecute.
Context {E : Type} (eng : Engine E).

(** sqlitepp.cc: the one-shot Statement of execute is made, stepped once,
    finalized and freed, whether the step returns or throws. *)
Lemma Database_execute_steps (d : sqlitepp.Database.t) (μ : sqlitepp.Memory E)
    (sql : string) (handle : ptr) (result finalized : Z) (e1 e2 e3 : E) :
  let dbh := sqlitepp.Database.m_handle d in
  let nByte := int_of_size sql in
  isOpen d = true ->
  sqlitepp.heap μ !! sqlitepp.brk μ = None ->
  eng_prepare_v2 eng dbh sql nByte (engine (sqlitepp.world μ))
  = ((handle, SQLITE_OK), e1) ->
  handle <> NULL ->
  eng_step eng handle e1 = (result, e2) ->
  eng_finalize eng handle e2 = (finalized, e3) ->
  sqlitepp.Database.execute eng sql (d, μ)
  = (if decide (result = SQLITE_ROW \/ result = SQLITE_DONE)
     then Return tt else Throw (DatabaseError_code eng result),
     (d, sqlitepp.mkMemory
           (mkWorld e3
              (calls (sqlitepp.world μ)
               ++ [call_prepare_v2 dbh sql nByte; call_step handle;
                   call_finalize handle])
              (cerr (sqlitepp.world μ)))
           (sqlitepp.heap μ) (S (sqlitepp.brk μ)))).
Proof.
  intros dbh nByte Hopen Hfresh Hprepare Hnull Hstep Hfinalize. subst dbh nByte.
  unfold sqlitepp.Database.execute.
  rewrite (bind_Return _ _ _ _ _ (requireOpen_open d μ Hopen)).
  rewrite (bind_Return _ _ _ _ _
             (prepare_fresh eng d μ sql handle e1 Hopen Hprepare Hnull)).
  set (a := sqlitepp.brk μ) in *.
  set (s0 := sqlitepp.Statement.mk _ handle false (Some a)).
  set (μ1 := sqlitepp.mkMemory _ _ _).
  assert (Hcell1 : sqlitepp.heap μ1 !! a = Some (sqlitepp.mkCell s0 1))
    by apply lookup_insert_eq.
  destruct (step_cases eng s0 (sqlitepp.world μ1) result e2 Hstep)
    as (Hrow & Hdone & Herr & _).
  (* the end of the local shared_ptr, from any state of the Statement *)
  assert (Hrelease : forall s1 w2,
    isOpen s1 = true -> sqlitepp.Statement.m_handle s1 = handle ->
    engine w2 = e2 ->
    on_env (sqlitepp.release eng (Some a))
      (d, sqlitepp.mkMemory w2
            (<[a := sqlitepp.mkCell s1 1]> (sqlitepp.heap μ1)) (sqlitepp.brk μ1))
    = (Return tt,
       (d, sqlitepp.mkMemory (called w2 (call_finalize handle) e3)
             (sqlitepp.heap μ) (S a)))).
  { intros s1 w2 Hopen1 Hhandle Hengine2. apply on_env_run.
    erewrite release_last;
      [|cbn [sqlitepp.heap]; apply lookup_insert_eq
       |cbn [sqlitepp.world]; rewrite Hhandle, Hengine2; exact Hfinalize].
    rewrite Hopen1, Hhandle. cbn [sqlitepp.heap sqlitepp.world sqlitepp.brk].
    subst μ1. cbn [sqlitepp.heap sqlitepp.brk].
    rewrite insert_insert_eq, (delete_insert_id _ _ _ Hfresh). reflexivity. }
  destruct (decide (result = SQLITE_ROW)) as [Hr|Hr];
    [|destruct (decide (result = SQLITE_DONE)) as [Hd|Hd]].
  - rewrite decide_True by auto.
    erewrite scoped_Return.
    2:{ erewrite bind_Return; [reflexivity|].
        apply on_env_run. exact (deref_run _ _ _ _ _ _ _ Hcell1 (Hrow eq_refl Hr)). }
    2:{ apply Hrelease; reflexivity. }
    unfold called. cbn. rewrite <- !app_assoc. reflexivity.
  - rewrite decide_True by auto.
    erewrite scoped_Return.
    2:{ erewrite bind_Return; [reflexivity|].
        apply on_env_run. exact (deref_run _ _ _ _ _ _ _ Hcell1 (Hdone eq_refl Hd)). }
    2:{ apply Hrelease; reflexivity. }
    unfold called. cbn. rewrite <- !app_assoc. reflexivity.
  - rewrite decide_False by tauto.
    erewrite scoped_Throw.
    2:{ erewrite bind_Throw; [reflexivity|].
        apply on_env_run. exact (deref_run _ _ _ _ _ _ _ Hcell1 (Herr eq_refl Hr Hd)). }
    2:{ apply Hrelease; reflexivity. }
    unfold called. cbn. rewrite <- !app_assoc. reflexivity.
Qed.

End DatabaseExecute.



Section LegacyExecute.
Context {E : Type} (eng : Engine E).

(** sqlitepp.cpp: the local Statement of execute is stepped once and
    finalized once, by finalize() when the step returns and by the
    destructor when it throws. *)
Lemma legacy_execute_steps (d : legacy.Database.t) (w : World E)
    (sql : string) (handle : ptr) (result finalized : Z) (e1 e2 e3 : E) :
  let dbh := legacy.Database.m_handle d in
  isOpen d = true ->
  eng_prepare_v2 eng dbh sql (-1) (engine w) = ((handle, SQLITE_OK), e1) ->
  handle <> NULL ->
  eng_step eng handle e1 = (result, e2) ->
  eng_finalize eng handle e2 = (finalized, e3) ->
  legacy.Database_execute eng sql (d, w)
  = (if decide (result = SQLITE_ROW \/ result = SQLITE_DONE)
     then Return tt else Throw (DatabaseError_code eng result),
     (d, mkWorld e3
           (calls w ++ [call_prepare_v2 dbh sql (-1); call_step handle;
                        call_finalize handle])
           (cerr w))).
Proof.
  intros dbh Hopen Hprepare Hnull Hstep Hfinalize. subst dbh.
  unfold legacy.Database_execute.
  rewrite (bind_Return _ _ _ _ _ (requireOpen_open d w Hopen)).
  unfold mbind at 1, M_bind. unfold gets at 1.
  rewrite (bind_Return _ _ _ _ _
             (on_env_run _ d _ _ _
                (legacy_new_fresh eng d w sql handle e1 Hopen Hprepare Hnull))).
  set (s0 := legacy.Statement.mk _ handle false).
  set (w1 := called w _ e1).
  destruct (legacy_step_cases eng s0 w1 result e2 Hstep)
    as (Hrow & Hdone & Herr & _).
  apply on_env_run. unfold with_object.
  destruct (decide (result = SQLITE_ROW)) as [Hr|Hr];
    [|destruct (decide (result = SQLITE_DONE)) as [Hd|Hd]].
  - rewrite decide_True by auto.
    erewrite scoped_Return.
    2:{ rewrite (bind_Return _ _ _ _ _ (Hrow eq_refl Hr)).
        exact (proj1 (legacy_finalize_cases eng
                        (legacy.Statement.set_canRead true s0)
                        (called w1 (call_step handle) e2) finalized e3 Hfinalize)
                 eq_refl). }
    2:{ unfold legacy.Statement.destructor. run. reflexivity. }
    unfold called. cbn. rewrite <- !app_assoc. reflexivity.
  - rewrite decide_True by auto.
    erewrite scoped_Return.
    2:{ rewrite (bind_Return _ _ _ _ _ (Hdone eq_refl Hd)).
        exact (proj1 (legacy_finalize_cases eng
                        (legacy.Statement.set_canRead false s0)
                        (called w1 (call_step handle) e2) finalized e3 Hfinalize)
                 eq_refl). }
    2:{ unfold legacy.Statement.destructor. run. reflexivity. }
    unfold called. cbn. rewrite <- !app_assoc. reflexivity.
  - rewrite decide_False by tauto.
    erewrite scoped_Throw.
    2:{ rewrite (bind_Throw _ _ _ _ _ (Herr eq_refl Hr Hd)). reflexivity. }
    2:{ exact (proj1 (legacy_Statement_destructor_cases eng s0
                        (called w1 (call_step handle) e2) finalized e3 Hfinalize)
                 eq_refl). }
    unfold called. cbn. rewrite <- !app_assoc. reflexivity.
Qed.

End LegacyExecute.



(** ** The end of a Statement's life on the free store *)

(** sqlitepp.cc: execute stops at the open check of its step. *)
Lemma execute_on_closed {E} (eng : Engine E)
    (μ : sqlitepp.Memory E) (this : sqlitepp.addr) (c : sqlitepp.Cell) :
  sqlitepp.heap μ !! this = Some c ->
  isOpen (sqlitepp.object c) = false ->
  sqlitepp.Statement_execute eng this μ = (Undefined, μ).
Proof.
  intros Hcell Hopen. unfold sqlitepp.Statement_execute.
  destruct (eng_step eng (sqlitepp.Statement.m_handle (sqlitepp.object c))
              (engine (sqlitepp.world μ))) as [result e'] eqn:Hengine.
  destruct (step_cases eng _ _ _ _ Hengine) as (_ & _ & _ & Hclosed).
  rewrite (bind_Undefined _ _ _ _ (deref_const _ _ _ _ _ _ Hcell (Hclosed Hopen))).
  rewrite set_world_same. reflexivity.
Qed.



Section LastOwner.
Context {E : Type} (eng : Engine E).

(** The ResultSet of execute and the caller's shared_ptr are the two
    owners; when both have ended, the Statement has been finalized once
    and is gone. *)
Lemma owners_end (μ : sqlitepp.Memory E) (this : sqlitepp.addr)
    (obj : sqlitepp.Statement.t) (finalized : Z) (e' : E) :
  sqlitepp.heap μ !! this = Some (sqlitepp.mkCell obj 2) ->
  eng_finalize eng (sqlitepp.Statement.m_handle obj) (engine (sqlitepp.world μ))
  = (finalized, e') ->
  (sqlitepp.release eng (Some this) ;;
   sqlitepp.ResultSet.destructor eng (sqlitepp.ResultSet.mk (Some this))) μ
  = (Return tt,
     sqlitepp.mkMemory
       (if isOpen obj
        then called (sqlitepp.world μ)
               (call_finalize (sqlitepp.Statement.m_handle obj)) e'
        else sqlitepp.world μ)
       (delete this (sqlitepp.heap μ)) (sqlitepp.brk μ)).
Proof.
  intros Hcell Hengine.
  rewrite (bind_Return _ _ _ _ _ (release_shared eng μ this obj 0 Hcell)).
  unfold sqlitepp.ResultSet.destructor. cbn [sqlitepp.ResultSet.m_statement].
  erewrite release_last;
    [|cbn [sqlitepp.heap]; apply lookup_insert_eq|exact Hengine].
  cbn [sqlitepp.heap sqlitepp.world sqlitepp.brk].
  rewrite delete_insert_eq. reflexivity.
Qed.

End LastOwner.

(** X14.  A Statement that the caller alone holds is executed, and then
    the caller's shared_ptr and the ResultSet both end: the calls to the
    engine are the step and one sqlite3_finalize, and the Statement is no
    longer on the free store.  If the Statement is closed explicitly
    before the two owners end, the finalize is that of close and the last
    owner adds no second one. *)
Theorem last_owner_finalizes_once {E} (eng : Engine E)
    (μ : sqlitepp.Memory E) (this : sqlitepp.addr) (obj : sqlitepp.Statement.t)
    (result finalized : Z) (e1 e2 : E) (b : bool) :
  let h := sqlitepp.Statement.m_handle obj in
  sqlitepp.heap μ !! this = Some (sqlitepp.mkCell obj 1) ->
  isOpen obj = true ->
  sqlitepp.Statement.m_instancePointer obj = Some this ->
  eng_step eng h (engine (sqlitepp.world μ)) = (result, e1) ->
  (result = SQLITE_ROW /\ b = true) \/ (result = SQLITE_DONE /\ b = false) ->
  eng_finalize eng h e1 = (finalized, e2) ->
  let after :=
    sqlitepp.mkMemory
      (mkWorld e2 (calls (sqlitepp.world μ) ++ [call_step h; call_finalize h])
         (cerr (sqlitepp.world μ)))
      (delete this (sqlitepp.heap μ)) (sqlitepp.brk μ) in
  (resultSet ← sqlitepp.Statement_execute eng this;
   sqlitepp.release eng (Some this) ;;
   sqlitepp.ResultSet.destructor eng resultSet) μ = (Return tt, after)
  /\
  (resultSet ← sqlitepp.Statement_execute eng this;
   sqlitepp.deref (Some this) (sqlitepp.Statement.close eng) ;;
   sqlitepp.release eng (Some this) ;;
   sqlitepp.ResultSet.destructor eng resultSet) μ = (Return tt, after).
Proof.
  intros h Hcell Hopen Hself Hstep Hresult Hfinalize after. subst h after.
  pose proof (execute_steps_once eng μ this _ result e1 b Hcell Hopen Hself Hstep
                Hresult) as Hexecute.
  cbn [sqlitepp.object sqlitepp.use_count] in Hexecute.
  set (obj' := sqlitepp.Statement.set_canRead b obj) in *.
  set (μ2 := sqlitepp.mkMemory _ _ _) in Hexecute.
  assert (Hcell2 : sqlitepp.heap μ2 !! this = Some (sqlitepp.mkCell obj' 2))
    by apply lookup_insert_eq.
  split.
  - rewrite (bind_Return _ _ _ _ _ Hexecute).
    rewrite (owners_end eng μ2 this obj' finalized e2 Hcell2 Hfinalize).
    replace (isOpen obj') with true by (symmetry; exact Hopen).
    subst μ2. cbn [sqlitepp.heap sqlitepp.world sqlitepp.brk].
    rewrite delete_insert_eq. unfold called. cbn. rewrite <- !app_assoc.
    reflexivity.
  - rewrite (bind_Return _ _ _ _ _ Hexecute).
    destruct (Statement_close_cases eng obj' (sqlitepp.world μ2) finalized e2
                Hfinalize) as [Hclose _].
    rewrite (bind_Return _ _ _ _ _
               (deref_run _ _ _ _ _ _ _ Hcell2 (Hclose Hopen))).
    cbn [sqlitepp.use_count].
    set (μ3 := sqlitepp.mkMemory _ _ _).
    assert (Hcell3 : sqlitepp.heap μ3 !! this
                     = Some (sqlitepp.mkCell (opened false obj') 2))
      by apply lookup_insert_eq.
    destruct (eng_finalize eng (sqlitepp.Statement.m_handle (opened false obj'))
                (engine (sqlitepp.world μ3))) as [r3 e3] eqn:Hagain.
    rewrite (owners_end eng μ3 this (opened false obj') r3 e3 Hcell3 Hagain).
    subst μ3 μ2. cbn [sqlitepp.heap sqlitepp.world sqlitepp.brk].
    rewrite !delete_insert_eq. unfold called. cbn. rewrite <- !app_assoc.
    reflexivity.
Qed.

(** From the free store that prepare leaves, on the scripted engine. *)
Lemma last_owner_finalizes_once_witness :
  (resultSet ← sqlitepp.Statement_execute script.eng 0%nat;
   sqlitepp.release script.eng (Some 0%nat) ;;
   sqlitepp.ResultSet.destructor script.eng resultSet)
    (script.prepared [SQLITE_ROW; SQLITE_OK])
  = (Return tt,
     sqlitepp.mkMemory
       (mkWorld [] ([] ++ [call_step 64%N; call_finalize 64%N]) "")
       (delete 0%nat (sqlitepp.heap (script.prepared [SQLITE_ROW; SQLITE_OK])))
       1%nat).
Proof.
  apply (last_owner_finalizes_once script.eng
           (script.prepared [SQLITE_ROW; SQLITE_OK]) 0%nat
           (sqlitepp.Statement.mk (mkOpenable true "Statement") 64%N false
              (Some 0%nat))
           SQLITE_ROW SQLITE_OK [SQLITE_OK] [] true);
    try reflexivity. left; split; reflexivity.
Defined.

(** ** The free store stays well-formed *)

Section WellFormed.
Context {E : Type} (eng : Engine E).

Lemma keeps_wf_ret {A} (a : A) : sqlitepp.keeps_wf (mret a : M (sqlitepp.Memory E) A).
Proof. intros μ Hwf. exact Hwf. Qed.

Lemma keeps_wf_bind {A B} (m : M (sqlitepp.Memory E) A)
    (k : A -> M (sqlitepp.Memory E) B) :
  sqlitepp.keeps_wf m -> (forall a, sqlitepp.keeps_wf (k a)) -> sqlitepp.keeps_wf (m ≫= k).
Proof.
  intros Hm Hk μ Hwf. specialize (Hm μ Hwf).
  unfold mbind, M_bind. destruct (m μ) as [[a|e| |] μ']; cbn in *; auto.
  apply Hk. exact Hm.
Qed.

Lemma keeps_wf_on_world {A} (m : M (World E) A) : sqlitepp.keeps_wf (sqlitepp.on_world m).
Proof.
  intros μ Hwf. unfold sqlitepp.on_world, zoom.
  destruct (m (sqlitepp.world μ)) as [r w']. exact Hwf.
Qed.

(** A method that does not write the instance pointer keeps the free
    store well-formed when called through a pointer. *)
Lemma keeps_wf_deref {A} (p : sqlitepp.shared_ptr)
    (method : M (sqlitepp.Statement.t * World E) A) :
  (forall s w,
     sqlitepp.Statement.m_instancePointer (fst (snd (method (s, w))))
     = sqlitepp.Statement.m_instancePointer s) ->
  sqlitepp.keeps_wf (sqlitepp.deref p method).
Proof.
  intros Hframe μ Hwf. unfold sqlitepp.deref.
  destruct p as [a|]; [|exact Hwf].
  destruct (sqlitepp.heap μ !! a) as [c|] eqn:Hcell; [|exact Hwf].
  specialize (Hframe (sqlitepp.object c) (sqlitepp.world μ)).
  destruct (method (sqlitepp.object c, sqlitepp.world μ)) as [r [s w]].
  cbn in *. unfold sqlitepp.wf in *. cbn.
  apply map_Forall_insert_2; [|exact Hwf].
  destruct (Hwf a c Hcell) as (Hbrk & Howned & Hself).
  cbn. rewrite Hframe. auto.
Qed.

Lemma keeps_wf_lock (p : sqlitepp.weak_ptr) : sqlitepp.keeps_wf (sqlitepp.lock (E:=E) p).
Proof.
  intros μ Hwf. unfold sqlitepp.lock.
  destruct p as [a|]; [|exact Hwf].
  destruct (sqlitepp.heap μ !! a) as [c|] eqn:Hcell; [|exact Hwf].
  unfold sqlitepp.wf in *. cbn.
  apply map_Forall_insert_2; [|exact Hwf].
  destruct (Hwf a c Hcell) as (Hbrk & Howned & Hself). cbn.
  repeat split; [exact Hbrk|lia|exact Hself].
Qed.

Lemma keeps_wf_release (p : sqlitepp.shared_ptr) : sqlitepp.keeps_wf (sqlitepp.release eng p).
Proof.
  intros μ Hwf. unfold sqlitepp.release.
  destruct p as [a|]; [|exact Hwf].
  destruct (sqlitepp.heap μ !! a) as [c|] eqn:Hcell; [|exact Hwf].
  destruct (Hwf a c Hcell) as (Hbrk & Howned & Hself).
  destruct (sqlitepp.use_count c) as [|[|n]] eqn:Hcount.
  - destruct (with_object _ _ _) as [r w']. cbn.
    apply map_Forall_delete. exact Hwf.
  - destruct (with_object _ _ _) as [r w']. cbn.
    apply map_Forall_delete. exact Hwf.
  - unfold sqlitepp.wf in *. cbn.
    apply map_Forall_insert_2; [|exact Hwf].
    cbn. repeat split; [exact Hbrk|lia|exact Hself].
Qed.

(** The methods of Statement do not write the instance pointer. *)
Lemma step_frame (s : sqlitepp.Statement.t) (w : World E) :
  sqlitepp.Statement.m_instancePointer (fst (snd (sqlitepp.Statement.step eng (s, w))))
  = sqlitepp.Statement.m_instancePointer s.
Proof.
  destruct (eng_step eng (sqlitepp.Statement.m_handle s) (engine w))
    as [result e'] eqn:Hengine.
  destruct (step_cases eng s w result e' Hengine) as (Hrow & Hdone & Herr & Hclosed).
  destruct (isOpen s) eqn:Hopen; [|rewrite (Hclosed eq_refl); reflexivity].
  destruct (decide (result = SQLITE_ROW)) as [Hr|Hr];
    [rewrite (Hrow eq_refl Hr); reflexivity|].
  destruct (decide (result = SQLITE_DONE)) as [Hd|Hd];
    [rewrite (Hdone eq_refl Hd); reflexivity|].
  rewrite (Herr eq_refl Hr Hd). reflexivity.
Qed.

Lemma close_frame (s : sqlitepp.Statement.t) (w : World E) :
  sqlitepp.Statement.m_instancePointer (fst (snd (sqlitepp.Statement.close eng (s, w))))
  = sqlitepp.Statement.m_instancePointer s.
Proof.
  destruct (eng_finalize eng (sqlitepp.Statement.m_handle s) (engine w))
    as [result e'] eqn:Hengine.
  destruct (Statement_close_cases eng s w result e' Hengine) as (Hopen & Hclosed).
  destruct (isOpen s) eqn:Ho;
    [rewrite (Hopen eq_refl)|rewrite (Hclosed eq_refl)]; reflexivity.
Qed.

Lemma reset_frame (s : sqlitepp.Statement.t) (w : World E) :
  fst (snd (sqlitepp.Statement.reset eng (s, w))) = s.
Proof.
  destruct (eng_reset eng (sqlitepp.Statement.m_handle s) (engine w))
    as [result e'] eqn:Hengine.
  destruct (reset_cases eng s w result e' Hengine) as (Hopen & Hclosed).
  destruct (isOpen s) eqn:Ho;
    [rewrite (Hopen eq_refl)|rewrite (Hclosed eq_refl)]; reflexivity.
Qed.

Lemma bind_frame (s : sqlitepp.Statement.t) (w : World E) (index : Z) (v : value) :
  fst (snd (sqlitepp.Statement.bind eng index v (s, w))) = s.
Proof.
  destruct (sqlite3_bind_logs eng int_of_size
              (sqlitepp.Statement.m_handle s) index v w) as (r & e' & Hengine).
  destruct (bind_cases eng s w index v r _ Hengine) as (Hclosed & Hopen).
  destruct (isOpen s) eqn:Ho.
  - rewrite (Hopen eq_refl), handleBindResult_state. reflexivity.
  - rewrite (Hclosed eq_refl). reflexivity.
Qed.

Lemma bind_name_frame (s : sqlitepp.Statement.t) (w : World E) (name : string)
    (v : value) :
  fst (snd (sqlitepp.Statement.bind_name eng name v (s, w))) = s.
Proof.
  destruct (eng_bind_parameter_index eng (sqlitepp.Statement.m_handle s) name
              (engine w)) as [index e'] eqn:Hengine.
  destruct (bind_name_cases eng s w name v index e' Hengine)
    as (Hclosed & Hzero & Hbind).
  destruct (isOpen s) eqn:Ho; [|rewrite (Hclosed eq_refl); reflexivity].
  destruct (decide (index = 0)) as [Hi|Hi].
  - rewrite (Hzero eq_refl Hi). reflexivity.
  - rewrite (Hbind eq_refl Hi). apply bind_frame.
Qed.

(** Database::prepare keeps the free store well-formed, however it
    ends. *)
Lemma prepare_wf (d : sqlitepp.Database.t) (sql : string) (μ : sqlitepp.Memory E) :
  sqlitepp.wf μ -> sqlitepp.wf (snd (snd (sqlitepp.Database.prepare eng sql (d, μ)))).
Proof.
  intros Hwf.
  destruct (eng_prepare_v2 eng (sqlitepp.Database.m_handle d) sql
              (int_of_size sql) (engine (sqlitepp.world μ)))
    as [[handle result] e1] eqn:Hengine.
  destruct (prepare_fails eng d μ sql handle result e1 Hengine)
    as (Hclosed & Hfail & Hnull).
  destruct (isOpen d) eqn:Hopen; [|rewrite (Hclosed eq_refl); exact Hwf].
  destruct (decide (result = SQLITE_OK)) as [Hr|Hr].
  - destruct (decide (handle = NULL)) as [Hh|Hh];
      [rewrite (Hnull eq_refl Hr Hh); exact Hwf|].
    subst result.
    rewrite (prepare_fresh eng d μ sql handle e1 Hopen Hengine Hh).
    unfold sqlitepp.wf in *. cbn.
    apply map_Forall_insert_2; [cbn; repeat split; lia|].
    eapply map_Forall_impl; [exact Hwf|].
    cbn. intros a c (Hbrk & Howned & Hself). repeat split; [lia|lia|exact Hself].
  - destruct (eng_errmsg eng (sqlitepp.Database.m_handle d) e1) as [msg e2] eqn:Hmsg.
    rewrite (Hfail eq_refl Hr msg e2 eq_refl). exact Hwf.
Qed.

(** Statement::execute keeps it well-formed. *)
Lemma execute_wf (this : sqlitepp.addr) : sqlitepp.keeps_wf (sqlitepp.Statement_execute eng this).
Proof.
  unfold sqlitepp.Statement_execute.
  apply keeps_wf_bind; [apply keeps_wf_deref, step_frame|intros _].
  apply keeps_wf_bind; [apply keeps_wf_deref; reflexivity|intros p].
  apply keeps_wf_bind; [apply keeps_wf_lock|intros q]. apply keeps_wf_ret.
Qed.

(** On a well-formed free store, lock on the instance pointer of a
    Statement finds the Statement itself. *)
Lemma execute_result (μ μ' : sqlitepp.Memory E) (this : sqlitepp.addr)
    (c : sqlitepp.Cell) (resultSet : sqlitepp.ResultSet.t) :
  sqlitepp.wf μ ->
  sqlitepp.heap μ !! this = Some c ->
  sqlitepp.Statement_execute eng this μ = (Return resultSet, μ') ->
  sqlitepp.ResultSet.m_statement resultSet = Some this
  /\ exists c', sqlitepp.heap μ' !! this = Some c'
                /\ sqlitepp.use_count c' = S (sqlitepp.use_count c).
Proof.
  intros Hwf Hcell Hrun.
  destruct (Hwf this c Hcell) as (_ & _ & Hself).
  destruct (eng_step eng (sqlitepp.Statement.m_handle (sqlitepp.object c))
              (engine (sqlitepp.world μ))) as [result e'] eqn:Hengine.
  destruct (isOpen (sqlitepp.object c)) eqn:Hopen.
  2:{ rewrite (execute_on_closed eng μ this c Hcell Hopen) in Hrun. discriminate. }
  destruct (decide (result = SQLITE_ROW)) as [Hr|Hr].
  { rewrite (execute_steps_once eng μ this c result e' true Hcell Hopen Hself
               Hengine (or_introl (conj Hr eq_refl))) in Hrun.
    inversion Hrun; subst. split; [reflexivity|].
    eexists. cbn [sqlitepp.heap]. rewrite lookup_insert_eq. split; reflexivity. }
  destruct (decide (result = SQLITE_DONE)) as [Hd|Hd].
  { rewrite (execute_steps_once eng μ this c result e' false Hcell Hopen Hself
               Hengine (or_intror (conj Hd eq_refl))) in Hrun.
    inversion Hrun; subst. split; [reflexivity|].
    eexists. cbn [sqlitepp.heap]. rewrite lookup_insert_eq. split; reflexivity. }
  rewrite (execute_step_fails eng μ this c result e' Hcell Hopen Hengine Hr Hd)
    in Hrun.
  discriminate.
Qed.

End WellFormed.

Section WellFormedReads.
Context {E : Type} (eng : Engine E).

Lemma requireOpen_frame (s : sqlitepp.Statement.t) (w : World E) :
  fst (snd (requireOpen (s, w))) = s.
Proof.
  destruct (isOpen s) eqn:Hopen;
    [rewrite (requireOpen_open s w Hopen)|rewrite (requireOpen_closed s w Hopen)];
    reflexivity.
Qed.

Lemma requireCanRead_frame (s : sqlitepp.Statement.t) (w : World E) :
  fst (snd (sqlitepp.Statement.requireCanRead (s, w))) = s.
Proof.
  rewrite requireCanRead_cases.
  destruct (sqlitepp.Statement.m_canRead s); reflexivity.
Qed.

(** The guards and the handle read of every read keep the free store
    well-formed. *)
Lemma keeps_wf_guarded {A} (p : sqlitepp.shared_ptr)
    (k : ptr -> M (sqlitepp.Memory E) A) :
  (forall h, sqlitepp.keeps_wf (k h)) ->
  sqlitepp.keeps_wf
    (sqlitepp.deref p requireOpen ;;
     sqlitepp.deref p sqlitepp.Statement.requireCanRead ;;
     h ← sqlitepp.deref p (gets (fun s => sqlitepp.Statement.m_handle (fst s)));
     k h).
Proof.
  intros Hk.
  apply keeps_wf_bind.
  { apply keeps_wf_deref. intros s w. rewrite requireOpen_frame. reflexivity. }
  intros _. apply keeps_wf_bind.
  { apply keeps_wf_deref. intros s w. rewrite requireCanRead_frame. reflexivity. }
  intros _. apply keeps_wf_bind; [apply keeps_wf_deref; reflexivity|exact Hk].
Qed.

End WellFormedReads.

(** X15.  The free store of Statements is well-formed when every
    Statement on it lies below the next free address, has at least one
    owner, and holds an instance pointer to itself.  The empty store is
    well-formed, and Database::prepare, Statement::execute, the methods
    of ResultSet, a close, reset or bind through any pointer, and the end
    of any shared_ptr keep it well-formed, whatever the engine answers
    and whether the call returns or throws. *)
Theorem free_store_stays_well_formed {E} (eng : Engine E)
    (μ : sqlitepp.Memory E) (d : sqlitepp.Database.t) (sql name : string)
    (this : sqlitepp.addr) (p : sqlitepp.shared_ptr)
    (resultSet : sqlitepp.ResultSet.t) (index column : Z) (v : value) :
  (forall w n, sqlitepp.wf (sqlitepp.mkMemory (E:=E) w ∅ n))
  /\
  (sqlitepp.wf μ ->
   sqlitepp.wf (snd (snd (sqlitepp.Database.prepare eng sql (d, μ))))
   /\ sqlitepp.wf (snd (sqlitepp.Statement_execute eng this μ))
   /\ sqlitepp.wf (snd (sqlitepp.ResultSet.next eng resultSet μ))
   /\ sqlitepp.wf (snd (sqlitepp.ResultSet.canRead resultSet μ))
   /\ sqlitepp.wf (snd (sqlitepp.ResultSet.columnCount eng resultSet μ))
   /\ sqlitepp.wf (snd (sqlitepp.ResultSet.readInt eng resultSet column μ))
   /\ sqlitepp.wf (snd (sqlitepp.ResultSet.readDouble eng resultSet column μ))
   /\ sqlitepp.wf (snd (sqlitepp.ResultSet.readString eng resultSet column μ))
   /\ sqlitepp.wf (snd (sqlitepp.deref p (sqlitepp.Statement.close eng) μ))
   /\ sqlitepp.wf (snd (sqlitepp.deref p (sqlitepp.Statement.reset eng) μ))
   /\ sqlitepp.wf (snd (sqlitepp.deref p (sqlitepp.Statement.bind eng index v) μ))
   /\ sqlitepp.wf
        (snd (sqlitepp.deref p (sqlitepp.Statement.bind_name eng name v) μ))
   /\ sqlitepp.wf (snd (sqlitepp.release eng p μ))
   /\ sqlitepp.wf (snd (sqlitepp.ResultSet.destructor eng resultSet μ))).
Proof.
  split.
  { intros w n. unfold sqlitepp.wf. cbn. apply map_Forall_empty. }
  intros Hwf.
  split; [exact (prepare_wf eng d sql μ Hwf)|].
  split; [exact (execute_wf eng this μ Hwf)|].
  split; [exact (keeps_wf_deref _ _ (step_frame eng) μ Hwf)|].
  split; [apply keeps_wf_deref; [reflexivity|exact Hwf]|].
  split.
  { apply keeps_wf_guarded; [|exact Hwf]. intros h. apply keeps_wf_on_world. }
  split.
  { apply keeps_wf_guarded; [|exact Hwf]. intros h. apply keeps_wf_on_world. }
  split.
  { apply keeps_wf_guarded; [|exact Hwf]. intros h. apply keeps_wf_on_world. }
  split.
  { apply keeps_wf_guarded; [|exact Hwf]. intros h.
    apply keeps_wf_bind; [apply keeps_wf_on_world|].
    intros [t|] ν Hν; exact Hν. }
  split; [exact (keeps_wf_deref _ _ (close_frame eng) μ Hwf)|].
  split.
  { apply keeps_wf_deref; [|exact Hwf]. intros s w. rewrite reset_frame. reflexivity. }
  split.
  { apply keeps_wf_deref; [|exact Hwf]. intros s w. rewrite bind_frame. reflexivity. }
  split.
  { apply keeps_wf_deref; [|exact Hwf]. intros s w.
    rewrite bind_name_frame. reflexivity. }
  split; [exact (keeps_wf_release eng p μ Hwf)|].
  exact (keeps_wf_release eng _ μ Hwf).
Qed.

(** The store that prepare leaves is well-formed, and so is what execute
    makes of it. *)
Lemma free_store_stays_well_formed_witness :
  sqlitepp.wf (script.prepared [SQLITE_ROW])
  /\ sqlitepp.wf
       (snd (sqlitepp.Statement_execute script.eng 0%nat
               (script.prepared [SQLITE_ROW]))).
Proof.
  assert (Hwf : sqlitepp.wf (script.prepared [SQLITE_ROW])).
  { unfold sqlitepp.wf, script.prepared. cbn.
    apply map_Forall_singleton. cbn. repeat split; lia. }
  split; [exact Hwf|].
  destruct (free_store_stays_well_formed script.eng (script.prepared [SQLITE_ROW])
              script.db_open "" "" 0%nat None (sqlitepp.ResultSet.mk None) 0 0
              (of_int 0)) as [_ Hkeeps].
  apply (Hkeeps Hwf).
Defined.

(** X16.  On a well-formed free store, a ResultSet that
    Statement::execute returns always refers to the Statement that was
    executed, never to nothing, and that Statement has exactly one more
    owner than before. *)
Theorem execute_returns_own_statement {E} (eng : Engine E)
    (μ μ' : sqlitepp.Memory E) (this : sqlitepp.addr) (c : sqlitepp.Cell)
    (resultSet : sqlitepp.ResultSet.t) :
  sqlitepp.wf μ ->
  sqlitepp.heap μ !! this = Some c ->
  sqlitepp.Statement_execute eng this μ = (Return resultSet, μ') ->
  sqlitepp.ResultSet.m_statement resultSet = Some this
  /\ exists c', sqlitepp.heap μ' !! this = Some c'
                /\ sqlitepp.use_count c' = S (sqlitepp.use_count c).
Proof. exact (execute_result eng μ μ' this c resultSet). Qed.

(** From the store that prepare leaves, on the scripted engine. *)
Lemma execute_returns_own_statement_witness :
  sqlitepp.ResultSet.m_statement
    (sqlitepp.ResultSet.mk (Some 0%nat)) = Some 0%nat
  /\ exists c',
       sqlitepp.heap
         (snd (sqlitepp.Statement_execute script.eng 0%nat
                 (script.prepared [SQLITE_ROW]))) !! 0%nat = Some c'
       /\ sqlitepp.use_count c' = 2%nat.
Proof.
  apply (execute_returns_own_statement script.eng (script.prepared [SQLITE_ROW])
           (snd (sqlitepp.Statement_execute script.eng 0%nat
                   (script.prepared [SQLITE_ROW])))
           0%nat
           (sqlitepp.mkCell
              (sqlitepp.Statement.mk (mkOpenable true "Statement") 64%N false
                 (Some 0%nat)) 1)).
  - unfold sqlitepp.wf, script.prepared. cbn.
    apply map_Forall_singleton. cbn. repeat split; lia.
  - reflexivity.
  - vm_compute. reflexivity.
Defined.

(** ** Database(const std::string& file) *)

(** X17.  The constructor Database(file) is Database() followed by
    open(file): it makes one call to sqlite3_open.  When the engine stores
    a handle and answers SQLITE_OK the constructed Database is open on
    that handle; when it stores no handle the constructor throws
    std::runtime_error; when it stores a handle and answers another code
    the constructor asks for the message, closes the handle and throws a
    DatabaseError carrying the code and the message.  This holds in
    sqlitepp.cc and in sqlitepp.cpp. *)
Theorem new_file_outcomes {E} (eng : Engine E) (w : World E) (uninit : ptr)
    (file : string) (handle : ptr) (result : Z) (e1 : E) :
  eng_open eng file (engine w) = ((handle, result), e1) ->
  let w1 := called w (call_open file) e1 in
  (handle = NULL ->
     sqlitepp.Database.new_file eng uninit file w = (Throw runtime_error, w1)
     /\ legacy.Database.new_file eng uninit file w = (Throw runtime_error, w1))
  /\ (handle <> NULL -> result = SQLITE_OK ->
     exists d o,
       sqlitepp.Database.new_file eng uninit file w = (Return d, w1)
       /\ isOpen d = true /\ sqlitepp.Database.m_handle d = handle
       /\ legacy.Database.new_file eng uninit file w = (Return o, w1)
       /\ isOpen o = true /\ legacy.Database.m_handle o = handle)
  /\ (handle <> NULL -> result <> SQLITE_OK ->
     forall errorMessage e2 closed e3,
       eng_errmsg eng handle e1 = (errorMessage, e2) ->
       eng_close eng handle e2 = (closed, e3) ->
       let thrown :=
         database_error
           (mkDatabaseError result (getErrorMessage result errorMessage)) in
       let w3 := called (called w1 (call_errmsg handle) e2) (call_close handle) e3 in
       sqlitepp.Database.new_file eng uninit file w = (Throw thrown, w3)
       /\ legacy.Database.new_file eng uninit file w = (Throw thrown, w3)).
Proof.
  intros Hengine w1.
  destruct (open_cases eng (sqlitepp.Database.new uninit) w file handle result e1
              Hengine) as (_ & Hnomem & Hok & Hfail).
  destruct (legacy_open_cases eng (legacy.Database.new uninit) w file handle
              result e1 Hengine) as (_ & Lnomem & Lok & Lfail).
  unfold sqlitepp.Database.new_file, legacy.Database.new_file.
  refine (conj _ (conj _ _)).
  - intros Hnull. rewrite (Hnomem eq_refl Hnull), (Lnomem eq_refl Hnull).
    split; reflexivity.
  - intros Hnull Hres. rewrite (Hok eq_refl Hnull Hres), (Lok eq_refl Hnull Hres).
    do 2 eexists. repeat split; reflexivity.
  - intros Hnull Hres errorMessage e2 closed e3 Hmsg Hclose. cbv zeta.
    rewrite (Hfail eq_refl Hnull Hres _ _ _ _ Hmsg Hclose),
      (Lfail eq_refl Hnull Hres _ _ _ _ Hmsg Hclose).
    split; reflexivity.
Qed.

(** The Database of the test suite, constructed on its file. *)
Lemma new_file_outcomes_witness :
  exists d o,
    sqlitepp.Database.new_file script.eng 0%N "/tmp/test.db"
      (script.fresh [32; SQLITE_OK])
    = (Return d, called (script.fresh [32; SQLITE_OK]) (call_open "/tmp/test.db") [])
    /\ isOpen d = true /\ sqlitepp.Database.m_handle d = 32%N
    /\ legacy.Database.new_file script.eng 0%N "/tmp/test.db"
         (script.fresh [32; SQLITE_OK])
       = (Return o,
          called (script.fresh [32; SQLITE_OK]) (call_open "/tmp/test.db") [])
    /\ isOpen o = true /\ legacy.Database.m_handle o = 32%N.
Proof.
  destruct (new_file_outcomes script.eng (script.fresh [32; SQLITE_OK]) 0%N
              "/tmp/test.db" 32%N SQLITE_OK [] eq_refl) as (_ & Hok & _).
  apply Hok; [discriminate|reflexivity].
Defined.
